(** * Storage-enclosure management: a shallow embedding of
      [middlewared/plugins/enclosure.py]

    The development follows the Python module top-down:
    - [PyText]: the [str] and [int] primitives the plugin calls;
    - [Rx]: the star-free regular expressions of the model classifier and the
      three line shapes of the diagnostic decoder;
    - the element model ([Element], [ArrayDevSlot]), the [Enclosure] object with
      [_parse], [map_disks_to_enclosure_slots], [_set_model],
      [_parse_raw_value] and [_enclosure_element];
    - [EnclosureService.query] and [EnclosureService.set_slot_status];
    - the [status] and [value] properties of the element classes, the slot
      lookups [_get_slot], [_get_slot_for_disk] and [_get_ses_slot], and
      [EnclosureService.sync_disk].

    Python [int] is [Z]; [str] is [string], read as ASCII text (the decoder
    input is [sg_ses] output and sysfs attribute files).  Behaviour that only
    shows on code points above 127 is outside the model.  A Python exception
    is a value of [exn]; a call that may raise returns [result]. *)

From Stdlib Require Import ZArith String Ascii List Lia Bool.
From Stdlib Require Import DecimalString DecimalZ DecimalPos.
From Stdlib Require HexadecimalString.
From Stdlib Require Import Permutation Sorted.
From stdpp Require Import gmap strings list.

Import ListNotations.
Local Open Scope string_scope.
Local Open Scope Z_scope.

(** ** Exceptions and the error monad *)

Inductive exn : Type :=
| ValueError
| KeyError
| IndexError
| TypeError
| FileNotFoundError
| OSError
| MatchNotFound
| CallError (msg : string) (errno : option Z).

Inductive result (A : Type) : Type :=
| Ok (a : A)
| Raise (e : exn).
Arguments Ok {A} a.
Arguments Raise {A} e.

Definition bind {A B} (r : result A) (k : A -> result B) : result B :=
  match r with
  | Ok a => k a
  | Raise e => Raise e
  end.

Notation "'do' x <- r ; k" := (bind r (fun x => k))
  (at level 10, x name, r at level 100, k at level 200).

(** [errno.ENOENT]: the plugin's "not found" outcome. *)
Definition ENOENT : Z := 2.

Definition NotFound (e : exn) : Prop :=
  match e with
  | CallError _ (Some code) => code = ENOENT
  | _ => False
  end.

(** ** Python text primitives *)

Module PyText.

Definition code (c : ascii) : nat := nat_of_ascii c.

(** [str.isspace] and the regex class [\s], on ASCII. *)
Definition isspace (c : ascii) : bool :=
  let n := code c in
  (((9 <=? n) && (n <=? 13)) || ((28 <=? n) && (n <=? 32)))%nat.

Definition isdigit (c : ascii) : bool :=
  let n := code c in ((48 <=? n) && (n <=? 57))%nat.

Definition upper_char (c : ascii) : ascii :=
  let n := code c in
  if ((97 <=? n) && (n <=? 122))%nat then ascii_of_nat (n - 32) else c.

Definition lower_char (c : ascii) : ascii :=
  let n := code c in
  if ((65 <=? n) && (n <=? 90))%nat then ascii_of_nat (n + 32) else c.

Fixpoint lower (s : string) : string :=
  match s with
  | EmptyString => EmptyString
  | String c s' => String (lower_char c) (lower s')
  end.

(** [s.startswith(p)] *)
Fixpoint startswith (p s : string) : bool :=
  match p, s with
  | EmptyString, _ => true
  | String a p', String b s' => Ascii.eqb a b && startswith p' s'
  | String _ _, EmptyString => false
  end.

(** [sub in s] *)
Fixpoint contains (sub s : string) : bool :=
  startswith sub s ||
  match s with
  | EmptyString => false
  | String _ s' => contains sub s'
  end.

(** [s[:n]] and [s[n:]] for [n >= 0] *)
Fixpoint take (n : nat) (s : string) : string :=
  match n, s with
  | S n', String c s' => String c (take n' s')
  | _, _ => EmptyString
  end.

Fixpoint drop (n : nat) (s : string) : string :=
  match n, s with
  | S n', String _ s' => drop n' s'
  | _, _ => s
  end.

(** [s.removeprefix(p)] *)
Definition removeprefix (p s : string) : string :=
  if startswith p s then drop (String.length p) s else s.

(** [s.lstrip()], [s.rstrip()], [s.strip()] *)
Fixpoint lstrip (s : string) : string :=
  match s with
  | String c s' => if isspace c then lstrip s' else s
  | EmptyString => EmptyString
  end.

Fixpoint rstrip (s : string) : string :=
  match s with
  | EmptyString => EmptyString
  | String c s' =>
      match rstrip s' with
      | EmptyString => if isspace c then EmptyString else String c EmptyString
      | r => String c r
      end
  end.

Definition strip (s : string) : string := rstrip (lstrip s).

(** [s.split(sep)] for a one-character separator: every occurrence cuts,
    empty fields are kept, and the empty string gives one empty field. *)
Fixpoint split_on (sep : ascii) (s : string) : list string :=
  match s with
  | EmptyString => [EmptyString]
  | String c s' =>
      if Ascii.eqb c sep then EmptyString :: split_on sep s'
      else match split_on sep s' with
           | w :: ws => String c w :: ws
           | [] => [String c EmptyString]
           end
  end.

(** [s.split()]: cut at runs of whitespace, no empty fields. *)
Fixpoint split_ws (s : string) : list string :=
  match s with
  | EmptyString => []
  | String c s' =>
      if isspace c then split_ws s'
      else match s' with
           | EmptyString => [String c EmptyString]
           | String c' _ =>
               if isspace c' then String c EmptyString :: split_ws s'
               else match split_ws s' with
                    | w :: ws => String c w :: ws
                    | [] => [String c EmptyString]
                    end
           end
  end.

(** [sep.join(words)] *)
Fixpoint join (sep : string) (ws : list string) : string :=
  match ws with
  | [] => EmptyString
  | [w] => w
  | w :: ws' => w ++ sep ++ join sep ws'
  end.

(** [s.replace(old, "")] for a non-empty [old]: scan left to right and skip
    every non-overlapping occurrence; [skip] counts the characters of the
    occurrence being skipped. *)
Fixpoint remove_all (old : string) (skip : nat) (s : string) : string :=
  match s with
  | EmptyString => EmptyString
  | String c s' =>
      match skip with
      | S n => remove_all old n s'
      | O =>
          if startswith old s
          then remove_all old (String.length old - 1) s'
          else String c (remove_all old 0 s')
      end
  end.

Definition replace_empty (old s : string) : string := remove_all old 0 s.

(** [s.splitlines()]: the ASCII line boundaries are \n, \r, \r\n, \v, \f,
    \x1c, \x1d and \x1e; there is no empty last line. *)
Definition is_linebreak (c : ascii) : bool :=
  let n := code c in
  (((10 <=? n) && (n <=? 13)) || ((28 <=? n) && (n <=? 30)))%nat.

Fixpoint splitlines_from (cur : string) (after_cr : bool) (s : string)
  : list string :=
  match s with
  | EmptyString =>
      match cur with EmptyString => [] | _ => [cur] end
  | String c s' =>
      if (code c =? 10)%nat then
        if after_cr then splitlines_from EmptyString false s'
        else cur :: splitlines_from EmptyString false s'
      else if (code c =? 13)%nat then
        cur :: splitlines_from EmptyString true s'
      else if is_linebreak c then
        cur :: splitlines_from EmptyString false s'
      else splitlines_from (cur ++ String c EmptyString) false s'
  end.

Definition splitlines (s : string) : list string :=
  splitlines_from EmptyString false s.

(** [str(n)] *)
Definition str_of_int (n : Z) : string := NilZero.string_of_int (Z.to_int n).

(** [int(s, base)] for base 10 and 16: surrounding whitespace is dropped,
    one sign is allowed, base 16 allows a [0x] prefix, and single
    underscores may separate digits.  Anything else is [ValueError]. *)
Definition digit_val (base : Z) (c : ascii) : option Z :=
  let n := Z.of_nat (code c) in
  let d := if (48 <=? n) && (n <=? 57) then n - 48
           else if (97 <=? n) && (n <=? 122) then n - 87
           else if (65 <=? n) && (n <=? 90) then n - 55
           else base in
  if d <? base then Some d else None.

Fixpoint parse_digits (base acc : Z) (need_digit : bool) (s : string)
  : option Z :=
  match s with
  | EmptyString => if need_digit then None else Some acc
  | String c s' =>
      if (code c =? 95)%nat then
        if need_digit then None else parse_digits base acc true s'
      else match digit_val base c with
           | Some d => parse_digits base (acc * base + d) false s'
           | None => None
           end
  end.

Definition parse_unsigned (base : Z) (s : string) : option Z :=
  if (base =? 16) && (startswith "0x" s || startswith "0X" s) then
    match drop 2 s with
    | String c s' =>
        if (code c =? 95)%nat then parse_digits base 0 true s'
        else parse_digits base 0 true (String c s')
    | EmptyString => None
    end
  else parse_digits base 0 true s.

Definition int_base (base : Z) (s : string) : result Z :=
  let t := strip s in
  let r := match t with
           | String "-" t' => option_map Z.opp (parse_unsigned base t')
           | String "+" t' => parse_unsigned base t'
           | _ => parse_unsigned base t
           end in
  match r with
  | Some n => Ok n
  | None => Raise ValueError
  end.

Definition int (s : string) : result Z := int_base 10 s.

End PyText.

Import PyText.

(** ** Regular expressions of the plugin *)

Module Rx.

(** The classifier's patterns are star-free: literals, one-character
    classes, alternation and sequence.  [re.match] anchors at the start of
    the subject and accepts any remainder. *)
Inductive regex : Type :=
| Lit (s : string)
| Cls (chars : string)
| Alt (a b : regex)
| Cat (a b : regex).

Fixpoint in_class (chars : string) (c : ascii) : bool :=
  match chars with
  | EmptyString => false
  | String d chars' => Ascii.eqb c d || in_class chars' c
  end.

Fixpoint run (r : regex) (s : string) (k : string -> bool) : bool :=
  match r with
  | Lit l => if startswith l s then k (drop (String.length l) s) else false
  | Cls chars =>
      match s with
      | String c s' => if in_class chars c then k s' else false
      | EmptyString => false
      end
  | Alt a b => run a s k || run b s k
  | Cat a b => run a s (fun rest => run b rest k)
  end.

Definition re_match (r : regex) (s : string) : bool := run r s (fun _ => true).

Definition M_SERIES_REGEX : regex :=
  Cat (Alt (Lit "ECStream") (Lit "iX")) (Cat (Lit " 4024S") (Cls "ps")).
Definition R_SERIES_REGEX : regex :=
  Cat (Alt (Lit "ECStream") (Lit "iX"))
      (Cat (Lit " ") (Alt (Lit "FS1") (Alt (Lit "FS2") (Cat (Lit "DSS212S") (Cls "ps"))))).
Definition R20_REGEX : regex :=
  Alt (Cat (Lit "iX ") (Cat (Alt (Lit "TrueNAS R20") (Lit "2012S")) (Lit "p")))
      (Lit "SMC SC826-P").
Definition R50_REGEX : regex := Cat (Lit "iX eDrawer4048S") (Cls "12").
Definition X_SERIES_REGEX : regex :=
  Cat (Lit "CELESTIC ") (Alt (Lit "P3215-O") (Lit "P3217-B")).
Definition ES24_REGEX : regex := Cat (Alt (Lit "ECStream") (Lit "iX")) (Lit " 4024J").
Definition ES24F_REGEX : regex :=
  Cat (Alt (Lit "ECStream") (Lit "iX")) (Cat (Lit " 2024J") (Cls "ps")).
Definition MINI_REGEX : regex := Cat (Alt (Lit "TRUE") (Lit "FREE")) (Lit "NAS-MINI").

(** *** The three line shapes of the status block *)

Fixpoint span (p : ascii -> bool) (s : string) : string * string :=
  match s with
  | String c s' =>
      if p c then let (a, b) := span p s' in (String c a, b)
      else (EmptyString, s)
  | EmptyString => (EmptyString, EmptyString)
  end.

(** [(.+)] followed by the literal [pat]: the longest non-empty,
    newline-free prefix of [s] after which [pat] follows. *)
Fixpoint greedy_until (pat s : string) : option string :=
  match s with
  | EmptyString => None
  | String c s' =>
      if (code c =? 10)%nat then None
      else match greedy_until pat s' with
           | Some g => Some (String c g)
           | None => if startswith pat s' then Some (String c EmptyString) else None
           end
  end.

(** [re.match(r"\s+Element type: (.+), subenclosure", line)], group 1.
    The literal starts with a non-space, so [\s+] takes the whole run of
    leading whitespace. *)
Definition match_element_type (line : string) : option string :=
  let (ws, rest) := span isspace line in
  match ws with
  | EmptyString => None
  | _ =>
      if startswith "Element type: " rest
      then greedy_until ", subenclosure" (drop 14 rest)
      else None
  end.

(** [re.match(r"\s+Element ([0-9]+) descriptor:", line)], group 1. *)
Definition match_element_descriptor (line : string) : option string :=
  let (ws, rest) := span isspace line in
  match ws with
  | EmptyString => None
  | _ =>
      if startswith "Element " rest then
        let (ds, rest') := span isdigit (drop 8 rest) in
        match ds with
        | EmptyString => None
        | _ => if startswith " descriptor:" rest' then Some ds else None
        end
      else None
  end.

Definition is_hex_or_space (c : ascii) : bool :=
  let n := code c in
  (((48 <=? n) && (n <=? 57)) || ((97 <=? n) && (n <=? 102)) || (n =? 32))%nat.

Fixpoint all_chars (p : ascii -> bool) (s : string) : bool :=
  match s with
  | EmptyString => true
  | String c s' => p c && all_chars p s'
  end.

Definition eleven_at (s : string) : option string :=
  let g := take 11 s in
  if (String.length g =? 11)%nat && all_chars is_hex_or_space g then Some g else None.

(** [re.match(r"\s+([0-9a-f ]{11})", line)], group 1.  [\s+] is greedy and
    gives characters back one at a time: with [k] leading whitespace
    characters, the group is tried after [k], then [k-1], ... then 1 of
    them.  [try_back n] tries the offsets [n], [n-1], ..., 1. *)
Fixpoint try_back (line : string) (n : nat) : option string :=
  match n with
  | O => None
  | S n' =>
      match eleven_at (drop n line) with
      | Some g => Some g
      | None => try_back line n'
      end
  end.

Definition match_hex_bytes (line : string) : option string :=
  let (ws, _) := span isspace line in
  try_back line (String.length ws).

(** [re.sub(r"\s+", " ", s)] *)
Fixpoint collapse_ws (s : string) : string :=
  match s with
  | EmptyString => EmptyString
  | String c s' =>
      if isspace c then
        match s' with
        | String c' _ => if isspace c' then collapse_ws s' else String " " (collapse_ws s')
        | EmptyString => String " " EmptyString
        end
      else String c (collapse_ws s')
  end.

Definition is_lower_hex (c : ascii) : bool :=
  let n := code c in (((48 <=? n) && (n <=? 57)) || ((97 <=? n) && (n <=? 102)))%nat.

(** [re.search(r"\s+enclosure logical identifier \(hex\): ([0-9a-f]+)", cf)],
    group 1: the leftmost whitespace character that is directly followed by
    the label and at least one hex digit decides the match. *)
Fixpoint search_logical_id (cf : string) : option string :=
  match cf with
  | EmptyString => None
  | String c cf' =>
      let here :=
        if isspace c && startswith "enclosure logical identifier (hex): " cf' then
          match fst (span is_lower_hex (drop 36 cf')) with
          | EmptyString => None
          | ds => Some ds
          end
        else None in
      match here with
      | Some ds => Some ds
      | None => search_logical_id cf'
      end
  end.

End Rx.

Import Rx.

(** ** The element model *)

(** [value_raw] is either the packed 32-bit SES word or, on platforms that
    read slot state from sysfs, the status text. *)
Inductive raw : Type :=
| RawInt (n : Z)
| RawStr (s : string).

(** An optional keyword argument or attribute: absent, [None], or a string. *)
Inductive pyopt : Type :=
| PyNone
| PyStr (s : string).

Inductive kind : Type :=
| AlarmElm | CommPort | CurrSensor | EnclosureElm | VoltSensor | Cooling
| TempSensor | PowerSupply | ArrayDevSlot | SASConnector | SASExpander
| Generic.

(** The [name] class attribute of each subclass of [Element]. *)
Definition class_name (k : kind) : option string :=
  match k with
  | AlarmElm => Some "Audible alarm"
  | CommPort => Some "Communication Port"
  | CurrSensor => Some "Current Sensor"
  | EnclosureElm => Some "Enclosure"
  | VoltSensor => Some "Voltage Sensor"
  | Cooling => Some "Cooling"
  | TempSensor => Some "Temperature Sensor"
  | PowerSupply => Some "Power Supply"
  | ArrayDevSlot => Some "Array Device Slot"
  | SASConnector => Some "SAS Connector"
  | SASExpander => Some "SAS Expander"
  | Generic => None
  end.

Record Element : Type := mkElement {
  cls : kind;
  name : string;
  slot : Z;
  value_raw : raw;
  status_raw : raw;
  descriptor : string;
  devname : string;
  (** [_identify] and [_fault] exist only on instances built from a text
      [value_raw]; [None] here is a missing attribute ([hasattr] is false). *)
  _identify : option pyopt;
  _fault : option pyopt
}.

(** The keyword arguments of [Element.__init__]; [None] is an absent key. *)
Record kwargs : Type := mkKwargs {
  kw_name : option string;
  kw_value_raw : raw;
  kw_slot : Z;
  kw_desc : option string;
  kw_identify : option pyopt;
  kw_fault : option pyopt
}.

Definition pop {A} (o : option A) : result A :=
  match o with
  | Some a => Ok a
  | None => Raise KeyError
  end.

(** [Element.__init__] for the class [k]; [dev_name] is what the subclass
    stores in [devname] afterwards (empty outside [ArrayDevSlot]). *)
Definition Element_init (k : kind) (kw : kwargs) (dev_name : string) : result Element :=
  do nm <- match kw_name kw with
           | Some n => Ok n
           | None => match class_name k with
                     | Some n => Ok n
                     | None => Ok EmptyString
                     end
           end;
  do attrs <- match kw_value_raw kw with
              | RawInt v =>
                  Ok (RawInt (Z.land (Z.shiftr v 24) 15), None, None)
              | RawStr s =>
                  do i <- pop (kw_identify kw);
                  do f <- pop (kw_fault kw);
                  Ok (RawStr s, Some i, Some f)
              end;
  let '(st, i, f) := attrs in
  Ok {| cls := k; name := nm; slot := kw_slot kw; value_raw := kw_value_raw kw;
        status_raw := st;
        descriptor := match kw_desc kw with Some d => d | None => "Unknown" end;
        devname := dev_name; _identify := i; _fault := f |}.

Definition negb_startswith_pass (y : string) : bool := negb (startswith "pass" y).

(** [ArrayDevSlot.__init__(dev=..., **kwargs)] *)
Definition ArrayDevSlot_init (dev : string) (kw : kwargs) : result Element :=
  let devs := List.filter negb_startswith_pass (split_on "," (strip dev)) in
  Element_init ArrayDevSlot kw (match devs with d :: _ => d | [] => EmptyString end).

(** Python truth value of [n & mask]. *)
Definition bit_set (n mask : Z) : bool := negb (Z.land n mask =? 0).

Definition pyopt_ne (o : pyopt) (s : string) : bool :=
  match o with
  | PyNone => true
  | PyStr t => negb (String.eqb t s)
  end.

(** [ArrayDevSlot.identify] and [ArrayDevSlot.fault].  With the attribute
    missing ([hasattr] is false) the SES word decides; shifting or masking a
    text [value_raw] is a [TypeError]. *)
Definition identify (e : Element) : result bool :=
  match _identify e with
  | Some i => Ok (pyopt_ne i "0")
  | None =>
      match value_raw e with
      | RawInt v => Ok (bit_set (Z.shiftr v 8) 2)
      | RawStr _ => Raise TypeError
      end
  end.

Definition fault (e : Element) : result bool :=
  match _fault e with
  | Some f => Ok (pyopt_ne f "0")
  | None =>
      match value_raw e with
      | RawInt v => Ok (bit_set v 32)
      | RawStr _ => Raise TypeError
      end
  end.

(** ** Packing the four status bytes *)

Inductive raw_input : Type :=
| FromStr (s : string)
| FromList (l : list Z).

Fixpoint mapM {A B} (f : A -> result B) (l : list A) : result (list B) :=
  match l with
  | [] => Ok []
  | a :: l' => do b <- f a; do bs <- mapM f l'; Ok (b :: bs)
  end.

(** [v << n]; a negative count is a [ValueError]. *)
Definition py_shl (v n : Z) : result Z :=
  if n <? 0 then Raise ValueError else Ok (Z.shiftl v n).

(** The loop [for i, v in enumerate(value): newvalue |= v << (2 * (3 - i)) * 4]
    from index [i] on. *)
Fixpoint pack_from (i : Z) (value : list Z) (newvalue : Z) : result Z :=
  match value with
  | [] => Ok newvalue
  | v :: rest =>
      do x <- py_shl v ((2 * (3 - i)) * 4);
      pack_from (i + 1) rest (Z.lor newvalue x)
  end.

Definition hex_field (t : string) : result Z := int_base 16 (replace_empty "0x" t).

Definition _parse_raw_value (value : raw_input) : result Z :=
  do l <- match value with
          | FromStr s => mapM hex_field (split_on " " s)
          | FromList l => Ok l
          end;
  pack_from 0 l 0.

(** Reading byte [i] back, as the element classes do with shifts and masks. *)
Definition extract_byte (raw_value : Z) (i : Z) : Z :=
  Z.land (Z.shiftr raw_value ((2 * (3 - i)) * 4)) 255.


(** ** The [Enclosure] object *)

Record Enclosure : Type := mkEnclosure {
  num : Z;
  enc_devname : string;
  product_name : string;
  encname : string;
  encid : string;
  model : string;
  controller : bool;
  status : string;
  (** [__elements], in the order of [append]; [__elementsbyname] groups the
      same elements by [name] and is recomputed by [iter_by_name]. *)
  elements : list Element
}.

Definition with_model (m : string) (self : Enclosure) : Enclosure :=
  {| num := num self; enc_devname := enc_devname self;
     product_name := product_name self; encname := encname self;
     encid := encid self; model := m; controller := controller self;
     status := status self; elements := elements self |}.

Definition with_controller (c : bool) (self : Enclosure) : Enclosure :=
  {| num := num self; enc_devname := enc_devname self;
     product_name := product_name self; encname := encname self;
     encid := encid self; model := model self; controller := c;
     status := status self; elements := elements self |}.

Definition with_identity (nm id : string) (self : Enclosure) : Enclosure :=
  {| num := num self; enc_devname := enc_devname self;
     product_name := product_name self; encname := nm;
     encid := id; model := model self; controller := controller self;
     status := status self; elements := elements self |}.

(** [Enclosure.append] *)
Definition append (self : Enclosure) (element : Element) : Enclosure :=
  {| num := num self; enc_devname := enc_devname self;
     product_name := product_name self; encname := encname self;
     encid := encid self; model := model self; controller := controller self;
     status := status self; elements := elements self ++ [element] |}.

Definition R20_VARIANT : list string := ["TRUENAS-R20"; "TRUENAS-R20A"; "TRUENAS-R20B"].

Definition str_in (s : string) (l : list string) : bool := existsb (String.eqb s) l.

(** [Enclosure._set_model]: the [if]/[elif] chain, first match wins. *)
Definition _set_model (self : Enclosure) (data : string) : Enclosure :=
  let n := encname self in
  if re_match M_SERIES_REGEX n then
    with_controller true (with_model "M Series" self)
  else if re_match R_SERIES_REGEX n || re_match R20_REGEX n || re_match R50_REGEX n then
    with_controller true (with_model (replace_empty "TRUENAS-" (product_name self)) self)
  else if String.eqb n "AHCI SGPIO Enclosure 2.00" then
    with_controller true
      (if str_in (product_name self) R20_VARIANT then
         with_controller true (with_model (replace_empty "TRUENAS-" (product_name self)) self)
       else if re_match MINI_REGEX (product_name self) then
         with_controller true (with_model (product_name self) self)
       else self)
  else if re_match X_SERIES_REGEX n then
    with_controller true (with_model "X Series" self)
  else if startswith "BROADCOM VirtualSES 03" n then
    with_controller true (with_model "H Series" self)
  else if startswith "QUANTA JB9 SIM" n then with_model "E60" self
  else if startswith "Storage 1729" n then with_model "E24" self
  else if startswith "ECStream 3U16+4R-4X6G.3" n then
    if contains "SD_9GV12P1J_12R6K4" data then
      with_controller true (with_model "Z Series" self)
    else with_model "E16" self
  else if startswith "ECStream 3U16RJ-AC.r3" n then with_model "E16" self
  else if startswith "HGST H4102-J" n then with_model "ES102" self
  else if startswith "VikingES NDS-41022-BB" n || startswith "VikingES VDS-41022-BB" n then
    with_model "ES102G2" self
  else if startswith "CELESTIC R0904" n then with_model "ES60" self
  else if startswith "HGST H4060-J" n then with_model "ES60G2" self
  else if re_match ES24_REGEX n then with_model "ES24" self
  else if re_match ES24F_REGEX n then with_model "ES24F" self
  else if startswith "CELESTIC X2012" n then with_model "ES12" self
  else self.

(** The guards of the chain, in order: some classification rule applies to
    the decoded name. *)
Definition rule_guards (n : string) : list bool :=
  [ re_match M_SERIES_REGEX n;
    re_match R_SERIES_REGEX n || re_match R20_REGEX n || re_match R50_REGEX n;
    String.eqb n "AHCI SGPIO Enclosure 2.00";
    re_match X_SERIES_REGEX n;
    startswith "BROADCOM VirtualSES 03" n;
    startswith "QUANTA JB9 SIM" n;
    startswith "Storage 1729" n;
    startswith "ECStream 3U16+4R-4X6G.3" n;
    startswith "ECStream 3U16RJ-AC.r3" n;
    startswith "HGST H4102-J" n;
    startswith "VikingES NDS-41022-BB" n || startswith "VikingES VDS-41022-BB" n;
    startswith "CELESTIC R0904" n;
    startswith "HGST H4060-J" n;
    re_match ES24_REGEX n;
    re_match ES24F_REGEX n;
    startswith "CELESTIC X2012" n ].

Definition matches_some_rule (n : string) : bool := existsb id (rule_guards n).

Definition basic_kwargs (slot : Z) (value : raw) (desc : string) : kwargs :=
  {| kw_name := None; kw_value_raw := value; kw_slot := slot;
     kw_desc := Some desc; kw_identify := None; kw_fault := None |}.

(** [Enclosure._enclosure_element(slot, name, value, status, desc, dev,
    ident=None, fault=None)]; the result [None] is the bare [return] of the
    two exclusion rules.  [status] is accepted and never read. *)
Definition _enclosure_element (self : Enclosure) (slot : Z) (name : string)
    (value : raw) (status : pyopt) (desc dev : string) (ident fault : pyopt)
  : result (option Element) :=
  let plain (k : kind) :=
    do e <- Element_init k (basic_kwargs slot value desc) EmptyString; Ok (Some e) in
  if String.eqb name "Audible alarm" then plain AlarmElm
  else if String.eqb name "Communication Port" then plain CommPort
  else if String.eqb name "Current Sensor" then plain CurrSensor
  else if String.eqb name "Enclosure" then plain EnclosureElm
  else if String.eqb name "Voltage Sensor" then plain VoltSensor
  else if String.eqb name "Cooling" then plain Cooling
  else if String.eqb name "Temperature Sensors" then plain TempSensor
  else if String.eqb name "Power Supply" then plain PowerSupply
  else if String.eqb name "Array Device Slot" then
    if startswith "ECStream 3U16+4R-4X6G.3" (encname self) && (16 <? slot) then Ok None
    else if startswith "R50, " (model self) && (25 <=? slot) then Ok None
    else
      do e <- ArrayDevSlot_init dev
                {| kw_name := None; kw_value_raw := value; kw_slot := slot;
                   kw_desc := Some desc; kw_identify := Some ident;
                   kw_fault := Some fault |};
      Ok (Some e)
  else if String.eqb name "SAS Connector" then plain SASConnector
  else if String.eqb name "SAS Expander" then plain SASExpander
  else
    do e <- Element_init Generic
              {| kw_name := Some name; kw_value_raw := value; kw_slot := slot;
                 kw_desc := Some desc; kw_identify := None; kw_fault := None |}
              EmptyString;
    Ok (Some e).

(** ** What the host shows: sysfs slot directories and the SES status page *)

(** One child of [/sys/class/enclosure/<pci>/].  An attribute file that
    cannot be read ([FileNotFoundError]) is [None]; [block] lists the
    names under [device/block], [None] when that directory is missing. *)
Record SysfsEntry : Type := mkSysfsEntry {
  entry_name : string;
  entry_is_dir : bool;
  slot_file : option string;
  status_file : option string;
  locate_file : option string;
  fault_file : option string;
  block : option (list string)
}.

(** One item of [EnclosureDevice(path).status()['elements']]. *)
Record SesElement : Type := mkSesElement {
  ses_type : Z;
  ses_descriptor : string;
  ses_status : list Z
}.

Record Host : Type := mkHost {
  (** [pathlib.Path('/sys/class/enclosure/<pci>').iterdir()] *)
  sysfs_iterdir : string -> result (list SysfsEntry);
  (** [EnclosureDevice('/dev/<devname>').status()['elements'].items()] *)
  ses_elements : string -> result (list (Z * SesElement))
}.

Definition slot_info : Type := (string * string * string * string)%type.

(** The body of the directory loop: [None] is [continue] (an ignored port or
    "not a slot directory"), otherwise the key and value stored in
    [mapping]. *)
Definition read_slot_dir (is_hseries : bool) (i : SysfsEntry) : option (Z * slot_info) :=
  if is_hseries && str_in (entry_name i) ["4"; "5"; "6"; "7"] then None
  else
    match slot_file i, status_file i, locate_file i, fault_file i with
    | Some sl, Some st, Some id, Some fl =>
        match int (strip sl) with
        | Ok slot =>
            let dev := match block i with
                       | Some (d :: _) => d
                       | _ => EmptyString
                       end in
            Some (slot, (dev, strip st, strip id, strip fl))
        | Raise _ => None
        end
    | _, _, _, _ => None
    end.

Definition collect_mapping (is_hseries : bool) (entries : list SysfsEntry)
  : gmap Z slot_info :=
  fold_left (fun m i => match read_slot_dir is_hseries i with
                        | Some (k, v) => <[k := v]> m
                        | None => m
                        end)
            (List.filter entry_is_dir entries) ∅.

(** [min(mapping)]; [None] is the [ValueError] of an empty dict. *)
Definition min_key {V} (m : gmap Z V) : option Z :=
  match (map_to_list m).*1 with
  | [] => None
  | k :: ks => Some (fold_right Z.min k ks)
  end.

(** [{k + 1: v for k, v in mapping.items()}] *)
Definition bump_keys {V} (m : gmap Z V) : gmap Z V := kmap Z.succ m.

(** [sorted(keys)], by insertion: Python's sort is stable, and so is this
    one. [le x y] is [key x <= key y]. *)
Section Sorted.
Context {A : Type} (le : A -> A -> bool).

Fixpoint insert_sorted (x : A) (l : list A) : list A :=
  match l with
  | [] => [x]
  | y :: l' => if le x y then x :: l else y :: insert_sorted x l'
  end.

Definition py_sorted (l : list A) : list A := fold_right insert_sorted [] l.
End Sorted.

Definition sorted_keys {V} (m : gmap Z V) : list Z := py_sorted Z.leb (map_to_list m).*1.

Definition collect_raw_values (items : list (Z * SesElement)) : gmap Z (list Z) :=
  fold_left (fun m kv =>
               let '(k, v) := kv in
               if (ses_type v =? 23) && negb (String.eqb (ses_descriptor v) "<empty>")
               then <[k := ses_status v]> m else m)
            items ∅.

(** The loop [for slot in sorted(mapping)] of [map_disks_to_enclosure_slots]. *)
Fixpoint add_slots (is_hseries : bool) (mapping : gmap Z slot_info)
    (disk_raw_values : gmap Z (list Z)) (slots : list Z) (self : Enclosure)
  : result Enclosure :=
  match slots with
  | [] => Ok self
  | slot :: rest =>
      match mapping !! slot with
      | None => Raise KeyError
      | Some (disk, slot_status, ident, fault) =>
          do info <-
            (if is_hseries then
               _enclosure_element self slot "Array Device Slot" (RawStr slot_status)
                                  PyNone "" disk (PyStr ident) (PyStr fault)
             else
               do v <- _parse_raw_value
                         (FromList (default [5; 0; 0; 0] (disk_raw_values !! slot)));
               _enclosure_element self slot "Array Device Slot" (RawInt v)
                                  PyNone "" disk PyNone PyNone);
          add_slots is_hseries mapping disk_raw_values rest
                    (match info with Some e => append self e | None => self end)
      end
  end.

(** [Enclosure.map_disks_to_enclosure_slots]: the updated object and the
    returned mapping ([None] for the early [return]). *)
Definition map_disks_to_enclosure_slots (host : Host) (self : Enclosure)
    (is_hseries : bool) : result (Enclosure * option (gmap Z slot_info)) :=
  let pci := removeprefix "bsg/" (enc_devname self) in
  do entries <- sysfs_iterdir host pci;
  let mapping := collect_mapping is_hseries entries in
  match min_key mapping with
  | None => Ok (self, None)
  | Some lo =>
      let mapping := if lo =? 0 then bump_keys mapping else mapping in
      do disk_raw_values <-
        (if is_hseries then Ok ∅
         else do items <- ses_elements host (enc_devname self);
              Ok (collect_raw_values items));
      do self' <- add_slots is_hseries mapping disk_raw_values (sorted_keys mapping) self;
      Ok (self', Some mapping)
  end.

(** ** The diagnostic decoder *)

(** The two loop-carried variables of the status-block walk. *)
Record walk : Type := mkWalk {
  element_type : option string;
  element_number : option Z
}.

(** [word[0].upper() + word[1:]] *)
Definition capitalise (word : string) : string :=
  match word with
  | String c w => String (upper_char c) w
  | EmptyString => EmptyString
  end.

(** What the header branch stores in [element_type]. *)
Definition header_type (g : string) : string :=
  let t := if negb (String.eqb g "Audible alarm")
           then join " " (List.map capitalise (split_ws g)) else g in
  if String.eqb t "Temperature Sensor" then "Temperature Sensors" else t.

(** [all((element_type, element_number, element_type != 'Array Device Slot'))]:
    the type is a non-empty string, the number is a non-zero integer. *)
Definition ready (st : walk) : option (string * Z) :=
  match element_type st, element_number st with
  | Some (String c t), Some n =>
      if negb (n =? 0) && negb (String.eqb (String c t) "Array Device Slot")
      then Some (String c t, n) else None
  | _, _ => None
  end.

(** The body of the third branch: the element decoded from the byte group
    [g], if the carried state allows one. *)
Definition decode_bytes (self : Enclosure) (st : walk) (g : string)
  : result (option Element) :=
  match ready st with
  | Some (ty, n) =>
      do v <- _parse_raw_value (FromStr g);
      _enclosure_element self (n + 1) ty (RawInt v) PyNone "" "" PyNone PyNone
  | None => Ok None
  end.

(** One iteration of [for line in es.splitlines()]. *)
Definition parse_line (self : Enclosure) (st : walk) (line : string)
  : result (Enclosure * walk) :=
  match match_element_type line with
  | Some g =>
      Ok (self, {| element_type := Some (header_type g); element_number := None |})
  | None =>
      match match_element_descriptor line with
      | Some g =>
          do n <- int g;
          Ok (self, {| element_type := element_type st; element_number := Some n |})
      | None =>
          match match_hex_bytes line with
          | Some g =>
              do element <- decode_bytes self st g;
              Ok (match element with Some e => append self e | None => self end,
                  {| element_type := element_type st; element_number := None |})
          | None =>
              Ok (self, {| element_type := element_type st; element_number := None |})
          end
      end
  end.

Fixpoint parse_lines (self : Enclosure) (st : walk) (lines : list string)
  : result (Enclosure * walk) :=
  match lines with
  | [] => Ok (self, st)
  | line :: rest =>
      do r <- parse_line self st line;
      parse_lines (fst r) (snd r) rest
  end.

Definition is_hseries_product (product : string) : bool := startswith "TRUENAS-H" product.

(** [Enclosure._parse(data)] with [data = (cf, es)]. *)
Definition _parse (host : Host) (self : Enclosure) (cf es : string) : result Enclosure :=
  do first <- match splitlines cf with
              | l :: _ => Ok l
              | [] => Raise IndexError
              end;
  let self := with_identity (collapse_ws (strip first))
                            (match search_logical_id cf with
                             | Some g => g
                             | None => encid self
                             end) self in
  let self := _set_model self cf in
  do r <- map_disks_to_enclosure_slots host self (is_hseries_product (product_name self));
  do w <- parse_lines (fst r) {| element_type := None; element_number := None |}
                      (splitlines es);
  Ok (fst w).

(** [Enclosure.__init__(num, data, stat, product_name)] with
    [data = (devname, (cf, es))]. *)
Definition Enclosure_init (host : Host) (n : Z) (data : string * (string * string))
    (product : string) : result Enclosure :=
  let '(dev, (cf, es)) := data in
  _parse host
    {| num := n; enc_devname := dev; product_name := product; encname := "";
       encid := ""; model := ""; controller := false; status := "OK";
       elements := [] |}
    cf es.

(** [Enclosure.get_by_slot] *)
Definition get_by_slot (self : Enclosure) (s : Z) : option Element :=
  List.find (fun e => slot e =? s) (elements self).

(** [Enclosure.iter_by_name]: the groups of [__elementsbyname], sorted by
    name; inside a group the elements keep their [append] order. *)
Definition iter_by_name (self : Enclosure) : list (string * list Element) :=
  List.map (fun n => (n, List.filter (fun e => String.eqb (name e) n) (elements self)))
           (py_sorted String.leb (remove_dups (List.map name (elements self)))).

(** ** The collection [Enclosures] *)

Definition blacklist (product : string) : list string :=
  (if startswith "TRUENAS-H" product then [] else ["VirtualSES"])
  ++ (if negb (contains "-MINI-" product) && negb (str_in product R20_VARIANT)
      then ["AHCI SGPIO Enclosure 2.00"] else []).

Fixpoint build_enclosures (host : Host) (stat : list (Z * (string * (string * string))))
    (product : string) : result (list Enclosure) :=
  match stat with
  | [] => Ok []
  | (n, data) :: rest =>
      do enclosure <- Enclosure_init host n data product;
      do encs <- build_enclosures host rest product;
      Ok (if existsb (fun s => contains s (encname enclosure)) (blacklist product)
          then encs else enclosure :: encs)
  end.

(** [Enclosures.__init__(stat, product_name)]: [stat.items()] in dict order. *)
Definition Enclosures_init (host : Host) (stat : list (Z * (string * (string * string))))
    (product : string) : result (list Enclosure) :=
  if negb (startswith "TRUENAS-" product || startswith "FREENAS-" product) then Ok []
  else build_enclosures host stat product.

(** [Enclosures.get_by_encid] *)
Definition get_by_encid (encs : list Enclosure) (i : string) : option Enclosure :=
  List.find (fun e => String.eqb (encid e) i) encs.

(** ** [EnclosureService] *)

(** The dictionaries [query] returns.  Of an element only the keys this
    module reads back are kept ([slot], [name], [descriptor],
    [data]["Device"], [fault], [identify] and the [original] entry that
    [enclosure.map_enclosures] adds); the display columns are left out. *)
Record Original : Type := mkOriginal {
  enclosure_id : string;
  enclosure_bsg : string;
  original_slot : Z
}.

Record ElementDict : Type := mkElementDict {
  d_slot : Z;
  d_elem_name : string;
  d_descriptor : string;
  d_device : option string;
  d_fault : option bool;
  d_identify : option bool;
  d_original : option Original
}.

Record GroupDict : Type := mkGroupDict {
  g_name : option string;
  g_elements : list ElementDict;
  g_has_slot_status : bool
}.

Record EnclosureDict : Type := mkEnclosureDict {
  d_id : string;
  d_bsg : string;
  d_name : string;
  d_model : string;
  d_controller : bool;
  d_elements : list GroupDict;
  d_number : option Z;
  d_label : option string
}.

Definition with_number (n : Z) (e : EnclosureDict) : EnclosureDict :=
  {| d_id := d_id e; d_bsg := d_bsg e; d_name := d_name e; d_model := d_model e;
     d_controller := d_controller e; d_elements := d_elements e;
     d_number := Some n; d_label := d_label e |}.

Definition with_label (l : string) (e : EnclosureDict) : EnclosureDict :=
  {| d_id := d_id e; d_bsg := d_bsg e; d_name := d_name e; d_model := d_model e;
     d_controller := d_controller e; d_elements := d_elements e;
     d_number := d_number e; d_label := Some l |}.

(** The dictionary of one element inside [query]. *)
Definition element_dict (elem : Element) : result ElementDict :=
  match cls elem with
  | ArrayDevSlot =>
      do f <- fault elem;
      do i <- identify elem;
      Ok {| d_slot := slot elem; d_elem_name := name elem;
            d_descriptor := descriptor elem; d_device := Some (devname elem);
            d_fault := Some f; d_identify := Some i; d_original := None |}
  | _ =>
      Ok {| d_slot := slot elem; d_elem_name := name elem;
            d_descriptor := descriptor elem; d_device := None;
            d_fault := None; d_identify := None; d_original := None |}
  end.

Definition has_device_slot_set (elem : Element) : bool :=
  match cls elem with ArrayDevSlot => true | _ => false end.

(** The dictionary of one [Enclosure] inside [query]. *)
Definition enclosure_dict (enc : Enclosure) : result EnclosureDict :=
  do groups <- mapM (fun g : string * list Element =>
                       do es <- mapM element_dict (snd g);
                       Ok {| g_name := Some (fst g); g_elements := es;
                             g_has_slot_status := existsb has_device_slot_set (snd g) |})
                    (iter_by_name enc);
  Ok {| d_id := encid enc; d_bsg := enc_devname enc; d_name := encname enc;
        d_model := model enc; d_controller := controller enc;
        d_elements := List.filter (fun g => negb (Nat.eqb (List.length (g_elements g)) 0)) groups;
        d_number := None; d_label := None |}.

(** [for number, enclosure in enumerate(enclosures)] from [number = i] on. *)
Fixpoint enumerate_from (i : Z) (l : list EnclosureDict) : list EnclosureDict :=
  match l with
  | [] => []
  | e :: l' => with_number i e :: enumerate_from (i + 1) l'
  end.

(** The sort key [(0 if enclosure["controller"] else 1, enclosure["id"])] and
    the order of two keys. *)
Definition sort_key (e : EnclosureDict) : Z * string :=
  (if d_controller e then 0 else 1, d_id e).

Definition key_le (a b : Z * string) : bool :=
  (fst a <? fst b) || ((fst a =? fst b) && String.leb (snd a) (snd b)).

Definition enclosure_le (a b : EnclosureDict) : bool := key_le (sort_key a) (sort_key b).

(** The filters this module passes to [filter_list]. *)
Inductive query_filter : Type :=
| IdEq (i : string)
| NumberEq (n : Z).

(** The first-expander marker of the cabling-order correction. *)
Definition first_expander_marker : string := "eDrawer4048S1".

(** The first loop of [query]: [insert(0, ...)] for a first expander,
    [append] otherwise. *)
Definition place (enclosures : list EnclosureDict) (enclosure : EnclosureDict)
  : list EnclosureDict :=
  if contains first_expander_marker (d_name enclosure)
  then enclosure :: enclosures
  else enclosures ++ [enclosure].

Section Service.

(** The collaborators reached through the middleware. *)
Variable host : Host.
Variable is_ix_hardware : bool.
Variable get_ses_enclosures : list (Z * (string * (string * string))).
Variable system_product_name : string.
Variable map_nvme : list EnclosureDict.
Variable map_enclosures : list EnclosureDict -> list EnclosureDict.
(** The rows of [truenas.enclosurelabel] as [(encid, label)]. *)
Variable label_rows : list (string * string).
Variable filter_list : list EnclosureDict -> list query_filter -> list EnclosureDict.

Definition __get_enclosures : result (list Enclosure) :=
  Enclosures_init host get_ses_enclosures system_product_name.

Definition labels : gmap string string :=
  fold_left (fun m row => <[fst row := snd row]> m) label_rows ∅.

(** [labels.get(enclosure["id"]) or enclosure["name"]] *)
Definition label_of (e : EnclosureDict) : string :=
  match labels !! d_id e with
  | Some (String c l) => String c l
  | _ => d_name e
  end.

(** The list [query] hands to [sorted]: discovered and placed, extended,
    mapped, numbered and labelled. *)
Definition numbered (discovered : list EnclosureDict) : list EnclosureDict :=
  List.map (fun e => with_label (label_of e) e)
           (enumerate_from 0 (map_enclosures (discovered ++ map_nvme))).

(** [EnclosureService.query(filters, options)] without options. *)
Definition query (filters : list query_filter) : result (list EnclosureDict) :=
  if negb is_ix_hardware then Ok []
  else
    do encs <- __get_enclosures;
    do dicts <- mapM enclosure_dict encs;
    let enclosures := fold_left place dicts [] in
    Ok (filter_list (py_sorted enclosure_le (numbered enclosures)) filters).

End Service.

(** *** Slot control *)

Inductive slot_status : Type := CLEAR | FAULT | IDENTIFY.

Definition status_str (s : slot_status) : string :=
  match s with
  | CLEAR => "CLEAR"
  | FAULT => "FAULT"
  | IDENTIFY => "IDENTIFY"
  end.

(** A call that leaves this module towards the hardware. *)
Inductive call : Type :=
| R30SetSlotStatus (slot : Z) (status : slot_status)
| FSeriesSetSlotStatus (slot : Z) (status : slot_status)
| ToggleSysfs (sysfs_path mapped_slot : string) (status : slot_status) (by_dirname : bool)
| SetControl (device : string) (slot action : string).

(** [repr] of an [int], and of a [str] that has no quote, backslash or
    control character. *)
Definition repr_int (n : Z) : string := str_of_int n.
Definition repr_str (s : string) : string := "'" ++ s ++ "'".

Definition slot_not_found (s : Z) : exn :=
  CallError ("Slot: " ++ repr_int s ++ " not found") (Some ENOENT).

(** The fixed table of the H Series branch. *)
Definition sysfs_to_ui : gmap Z string :=
  {[ 1 := "8"; 2 := "9"; 3 := "10"; 4 := "11";
     5 := "12"; 6 := "13"; 7 := "14"; 8 := "15";
     9 := "0"; 10 := "1"; 11 := "2"; 12 := "3" ]}.

(** [EnclosureService._get_orig_enclosure_and_disk]: the first element of an
    "Array Device Slot" group with the requested slot decides; [Ok None] is
    falling off the end of both loops. *)
Definition _get_orig_enclosure_and_disk (encl_id : string) (s : Z) (info : EnclosureDict)
  : result (option (string * Z)) :=
  let groups := List.filter (fun x => match g_name x with
                                      | Some n => String.eqb n "Array Device Slot"
                                      | None => false
                                      end) (d_elements info) in
  match List.concat (List.map (fun i => List.filter (fun x => d_slot x =? s) (g_elements i))
                              groups) with
  | [] => Ok None
  | j :: _ =>
      if String.eqb encl_id "mapped_enclosure_0" then
        do o <- pop (d_original j);
        Ok (Some (enclosure_bsg o, original_slot o))
      else Ok (Some (d_bsg info, s))
  end.

Definition is_OSError (e : exn) : bool :=
  match e with
  | OSError | FileNotFoundError => true
  | _ => false
  end.

(** The loop [for action in actions: enc.set_control(...)]: the calls made,
    and the exception that stopped the loop, if any. *)
Fixpoint issue (backend : call -> option exn) (calls : list call)
  : list call * option exn :=
  match calls with
  | [] => ([], None)
  | c :: rest =>
      match backend c with
      | Some e => ([c], Some e)
      | None => let (tr, r) := issue backend rest in (c :: tr, r)
      end
  end.

Section SlotControl.

(** [self.middleware.call_sync('enclosure.query', filters)] *)
Variable enclosure_query : list query_filter -> result (list EnclosureDict).
(** The outcome of a hardware call: [None] when it returns, otherwise the
    exception it raises. *)
Variable backend : call -> option exn.

Definition actions_of (st : slot_status) : list string :=
  match st with
  | CLEAR => ["clear=ident"; "clear=fault"]
  | _ => ["set=" ++ lower (take 5 (status_str st))]
  end.

Definition one_call (c : call) : list call * result unit :=
  ([c], match backend c with Some e => Raise e | None => Ok tt end).

(** [EnclosureService.set_slot_status(enclosure_id, slot, status)]: the
    hardware calls made, in order, and how the method ends. *)
Definition set_slot_status (encl_id : string) (s : Z) (st : slot_status)
  : list call * result unit :=
  if String.eqb encl_id "r30_nvme_enclosure" then one_call (R30SetSlotStatus s st)
  else if str_in encl_id ["f60_nvme_enclosure"; "f100_nvme_enclosure"; "f130_nvme_enclosure"]
  then one_call (FSeriesSetSlotStatus s st)
  else
    match enclosure_query [IdEq encl_id] with
    | Raise e => ([], Raise e)
    | Ok [] =>
        ([], Raise (CallError ("Enclosure with id: " ++ repr_str encl_id ++ " not found")
                              (Some ENOENT)))
    | Ok (info :: _) =>
        if String.eqb (d_model info) "H Series" then
          match sysfs_to_ui !! s with
          | None => ([], Raise (slot_not_found s))
          | Some mapped_slot =>
              let addr := removeprefix "bsg/" (d_bsg info) in
              let sysfs_path := "/sys/class/enclosure/" ++ addr in
              let c := ToggleSysfs sysfs_path mapped_slot st true in
              ([c], match backend c with
                    | Some FileNotFoundError => Raise (slot_not_found s)
                    | Some e => Raise e
                    | None => Ok tt
                    end)
          end
        else
          match _get_orig_enclosure_and_disk encl_id s info with
          | Raise e => ([], Raise e)
          | Ok None => ([], Raise (slot_not_found s))
          | Ok (Some (original_bsg, orig_slot)) =>
              let device := "/dev/" ++ original_bsg in
              let (tr, r) :=
                issue backend
                      (List.map (SetControl device (str_of_int (orig_slot - 1)))
                                (actions_of st)) in
              (tr, match r with
                   | None => Ok tt
                   | Some e =>
                       if is_OSError e then
                         Raise (CallError ("Failed to " ++ status_str st ++ " slot "
                                             ++ repr_int s ++ " on enclosure "
                                             ++ repr_str (d_id info)) None)
                       else Raise e
                   end)
          end
    end.

End SlotControl.

(** ** Status and value of an element *)

Definition STATUS_DESC : list string :=
  [ "Unsupported"; "OK"; "Critical"; "Noncritical"; "Unrecoverable";
    "Not installed"; "Unknown"; "Not available"; "No access allowed";
    "reserved [9]"; "reserved [10]"; "reserved [11]"; "reserved [12]";
    "reserved [13]"; "reserved [14]"; "reserved [15]" ].

(** [l[n]] on a Python list: a negative index counts from the end, an index
    outside the list is an [IndexError]. *)
Definition py_index {A} (l : list A) (n : Z) : result A :=
  let len := Z.of_nat (List.length l) in
  let i := if n <? 0 then n + len else n in
  if (0 <=? i) && (i <? len) then
    match l !! Z.to_nat i with
    | Some x => Ok x
    | None => Raise IndexError
    end
  else Raise IndexError.

(** [Element.status] *)
Definition Element_status (e : Element) : result string :=
  match status_raw e with
  | RawStr s => Ok s
  | RawInt n => py_index STATUS_DESC n
  end.

(** [Cooling.value] *)
Definition Cooling_value (e : Element) : result string :=
  match value_raw e with
  | RawInt v => Ok (str_of_int (Z.shiftr (Z.land v 524032) 8 * 10) ++ " RPM")
  | RawStr _ => Raise TypeError
  end.

(** [TempSensor.value]; [Ok None] is the Python [None] of a sensor that
    reports nothing. *)
Definition TempSensor_value (e : Element) : result (option string) :=
  match value_raw e with
  | RawInt v =>
      let value := Z.shiftr (Z.land v 65280) 8 in
      if value =? 0 then Ok None
      else Ok (Some (str_of_int (value - 20) ++ "C"))
  | RawStr _ => Raise TypeError
  end.

(** [ArrayDevSlot.value] *)
Definition ArrayDevSlot_value (e : Element) : result string :=
  do i <- identify e;
  do f <- fault e;
  let output := ((if i then ["Identify on"] else [])
                   ++ (if f then ["Fault on"] else []))%list in
  Ok (join ", " (match output with [] => ["None"] | _ => output end)).

(** ["0x%x" % n] for an [int]. *)
Definition hex_of_int (n : Z) : string :=
  HexadecimalString.NilZero.string_of_int (Z.to_hex_int n).

(** [SASConnector.type] on the connector code [(value_raw >> 16) & 0x7f]. *)
Definition connector_type (conn_type : Z) : string :=
  if conn_type =? 0 then "No information"
  else if conn_type =? 1 then "SAS 4x receptacle (SFF-8470) [max 4 phys]"
  else if conn_type =? 2 then "Mini SAS 4x receptacle (SFF-8088) [max 4 phys]"
  else if conn_type =? 3 then "QSFP+ receptacle (SFF-8436) [max 4 phys]"
  else if conn_type =? 4 then "Mini SAS 4x active receptacle (SFF-8088) [max 4 phys]"
  else if conn_type =? 5 then "Mini SAS HD 4x receptacle (SFF-8644) [max 4 phys]"
  else if conn_type =? 6 then "Mini SAS HD 8x receptacle (SFF-8644) [max 8 phys]"
  else if conn_type =? 7 then "Mini SAS HD 16x receptacle (SFF-8644) [max 16 phys]"
  else if conn_type =? 15 then "Vendor specific external connector"
  else if conn_type =? 16 then "SAS 4i plug (SFF-8484) [max 4 phys]"
  else if conn_type =? 17 then "Mini SAS 4i receptacle (SFF-8087) [max 4 phys]"
  else if conn_type =? 18 then "Mini SAS HD 4i receptacle (SFF-8643) [max 4 phys]"
  else if conn_type =? 19 then "Mini SAS HD 8i receptacle (SFF-8643) [max 8 phys]"
  else if conn_type =? 32 then "SAS Drive backplane receptacle (SFF-8482) [max 2 phys]"
  else if conn_type =? 33 then "SATA host plug [max 1 phy]"
  else if conn_type =? 34 then "SAS Drive plug (SFF-8482) [max 2 phys]"
  else if conn_type =? 35 then "SATA device plug [max 1 phy]"
  else if conn_type =? 36 then "Micro SAS receptacle [max 2 phys]"
  else if conn_type =? 37 then "Micro SATA device plug [max 1 phy]"
  else if conn_type =? 38 then "Micro SAS plug (SFF-8486) [max 2 phys]"
  else if conn_type =? 39 then "Micro SAS/SATA plug (SFF-8486) [max 2 phys]"
  else if conn_type =? 47 then "SAS virtual connector [max 1 phy]"
  else if conn_type =? 63 then "Vendor specific internal connector"
  else if conn_type <? 16 then
    "unknown external connector type: 0x" ++ hex_of_int conn_type
  else if conn_type <? 32 then
    "unknown internal wide connector type: 0x" ++ hex_of_int conn_type
  else if conn_type <? 48 then
    "unknown internal connector to end device, type: 0x" ++ hex_of_int conn_type
  else if conn_type <? 63 then
    "reserved for internal connector, type:0x" ++ hex_of_int conn_type
  else if conn_type <? 112 then "reserved connector type: 0x" ++ hex_of_int conn_type
  else if conn_type <? 128 then
    "vendor specific connector type: 0x" ++ hex_of_int conn_type
  else "unexpected connector type: 0x" ++ hex_of_int conn_type.

Definition SASConnector_type (e : Element) : result string :=
  match value_raw e with
  | RawInt v => Ok (connector_type (Z.land (Z.shiftr v 16) 127))
  | RawStr _ => Raise TypeError
  end.

(** [SASConnector.value] *)
Definition SASConnector_value (e : Element) : result string :=
  do t <- SASConnector_type e;
  match value_raw e with
  | RawInt v => Ok (join ", " ([t] ++ (if bit_set v 64 then ["Fail on"] else []))%list)
  | RawStr _ => Raise TypeError
  end.

(** [Enclosure.find_device_slot]: the first element of the
    "Array Device Slot" group with the given device name. *)
Definition find_device_slot (self : Enclosure) (dev : string) : option Element :=
  List.find (fun e => String.eqb (devname e) dev)
            (List.filter (fun e => String.eqb (name e) "Array Device Slot") (elements self)).

(** ** Slot lookup and disk synchronisation *)

(** [next(filter(lambda element: element["name"] == "Array Device Slot",
    enclosure["elements"]))]; [Ok None] is [StopIteration]. *)
Fixpoint first_slot_group (groups : list GroupDict) : result (option GroupDict) :=
  match groups with
  | [] => Ok None
  | g :: rest =>
      do n <- pop (g_name g);
      if String.eqb n "Array Device Slot" then Ok (Some g) else first_slot_group rest
  end.

(** [next(filter(slot_filter, elements))]; [Ok None] is [StopIteration]. *)
Fixpoint first_matching (slot_filter : ElementDict -> result bool)
    (elems : list ElementDict) : result (option ElementDict) :=
  match elems with
  | [] => Ok None
  | x :: rest =>
      do b <- slot_filter x;
      if b then Ok (Some x) else first_matching slot_filter rest
  end.

(** The loop [for enclosure in enclosure_info] of [_get_slot]. *)
Fixpoint scan_enclosures (slot_filter : ElementDict -> result bool)
    (enclosure_info : list EnclosureDict) : result (EnclosureDict * ElementDict) :=
  match enclosure_info with
  | [] => Raise MatchNotFound
  | enclosure :: rest =>
      do g <- first_slot_group (d_elements enclosure);
      match g with
      | None => scan_enclosures slot_filter rest
      | Some grp =>
          do m <- first_matching slot_filter (g_elements grp);
          match m with
          | Some s => Ok (enclosure, s)
          | None => scan_enclosures slot_filter rest
          end
      end
  end.

(** A row of the disk inventory: [enclosure] is [None] or
    [{"number": n, "slot": s}]. *)
Record Disk : Type := mkDisk {
  disk_identifier : string;
  disk_name : string;
  disk_enclosure : option (Z * Z)
}.

(** What [sync_disk] asks of the outside: nothing, a [disk.update] of the
    [enclosure] field, or one more [enclosure.sync_disk] call after 60
    seconds. *)
Inductive sync_effect : Type :=
| NoWrite
| DiskUpdate (id_ : string) (enclosure : option (Z * Z))
| CallLater (seconds : Z) (id_ : string) (enclosure_info : option (list EnclosureDict)).

Section Lookup.

Variable enclosure_query : list query_filter -> result (list EnclosureDict).
(** [disk.query] with [["identifier", "=", id_]] and [get]. *)
Variable disk_query : string -> result Disk.

(** [EnclosureService._get_slot] *)
Definition _get_slot (slot_filter : ElementDict -> result bool)
    (enclosure_query_arg : option (list query_filter))
    (enclosure_info : option (list EnclosureDict))
  : result (EnclosureDict * ElementDict) :=
  do info <- match enclosure_info with
             | Some i => Ok i
             | None => enclosure_query (default [] enclosure_query_arg)
             end;
  scan_enclosures slot_filter info.

(** [lambda element: element["data"]["Device"] == disk] *)
Definition device_is (disk : string) (element : ElementDict) : result bool :=
  do d <- pop (d_device element); Ok (String.eqb d disk).

(** [EnclosureService._get_slot_for_disk] *)
Definition _get_slot_for_disk (disk : string) (enclosure_info : option (list EnclosureDict))
  : result (EnclosureDict * ElementDict) :=
  _get_slot (device_is disk) None enclosure_info.

(** [EnclosureService.sync_disk] *)
Definition sync_disk (id_ : string) (enclosure_info : option (list EnclosureDict))
    (retry : bool) : result sync_effect :=
  do disk <- disk_query id_;
  let finish (disk_enc : option (Z * Z)) :=
    if bool_decide (disk_enc ≠ disk_enclosure disk)
    then Ok (DiskUpdate id_ disk_enc) else Ok NoWrite in
  match _get_slot_for_disk (disk_name disk) enclosure_info with
  | Raise MatchNotFound =>
      if retry then Ok (CallLater 60 id_ enclosure_info) else finish None
  | Raise e => Raise e
  | Ok (enclosure, element) =>
      do n <- pop (d_number enclosure);
      finish (Some (n, d_slot element))
  end.

End Lookup.

(** [EnclosureService._get_ses_slot] *)
Definition _get_ses_slot (host : Host) (stat : list (Z * (string * (string * string))))
    (product : string) (enclosure : EnclosureDict) (element : ElementDict)
  : result Element :=
  let '(encl_id, s) :=
    match d_original element with
    | Some o => (enclosure_id o, original_slot o)
    | None => (d_id enclosure, d_slot element)
    end in
  do ses_enclosures <- __get_enclosures host stat product;
  match get_by_encid ses_enclosures encl_id with
  | None => Raise MatchNotFound
  | Some ses_enclosure =>
      match get_by_slot ses_enclosure s with
      | None => Raise MatchNotFound
      | Some ses_slot => Ok ses_slot
      end
  end.

(** ** Notions used to state the properties *)

Definition is_byte (b : Z) : Prop := 0 <= b <= 255.

(** The packing formula: byte [i] shifted left by [(2 * (3 - i)) * 4], all
    of them or-ed together; [packed_from i] starts counting at [i]. *)
Fixpoint packed_from (i : nat) (bs : list Z) : Z :=
  match bs with
  | [] => 0
  | b :: bs' => Z.lor (Z.shiftl b ((2 * (3 - Z.of_nat i)) * 4)) (packed_from (S i) bs')
  end.

Definition packed (bs : list Z) : Z := packed_from 0 bs.

(** "The string denotes a non-zero value": it reads as an integer, and that
    integer is not zero. *)
Definition denotes_nonzero (s : string) : Prop :=
  exists n : Z, int s = Ok n /\ n <> 0.

(** A drive slot as the H Series path builds it, with the text [locate] and
    [fault] as read from sysfs. *)
Definition sysfs_slot_kwargs (slot_status locate fault_text : string) : kwargs :=
  {| kw_name := None; kw_value_raw := RawStr slot_status; kw_slot := 1;
     kw_desc := Some ""; kw_identify := Some (PyStr locate);
     kw_fault := Some (PyStr fault_text) |}.

(** A host without slot directories and without SES drive elements. *)
Definition bare_host : Host :=
  {| sysfs_iterdir := fun _ => Ok []; ses_elements := fun _ => Ok [] |}.

Definition newline : string := String (ascii_of_nat 10) EmptyString.

(** A configuration block that no classification rule knows. *)
Definition vendor_config : string :=
  "Vendor Model" ++ newline
    ++ "  enclosure logical identifier (hex): abc123" ++ newline.

(** What [__init__], [_set_model] and [_parse] leave alone once the identity
    and the model are decided: everything but [elements]. *)
Definition same_chassis (a b : Enclosure) : Prop :=
  num a = num b /\ enc_devname a = enc_devname b /\ product_name a = product_name b
  /\ encname a = encname b /\ encid a = encid b /\ model a = model b
  /\ controller a = controller b /\ status a = status b.

(** A line of the status block that has none of the three recognised
    shapes. *)
Definition unrecognised (line : string) : bool :=
  match match_element_type line, match_element_descriptor line, match_hex_bytes line with
  | None, None, None => true
  | _, _, _ => false
  end.

(** A sysfs slot directory with all four attribute files and no drive. *)
Definition empty_bay (dir slot_text : string) : SysfsEntry :=
  {| entry_name := dir; entry_is_dir := true; slot_file := Some slot_text;
     status_file := Some "not installed"; locate_file := Some "0";
     fault_file := Some "0"; block := None |}.

(** A host whose enclosure directory shows the given entries and whose SES
    page lists no drive element. *)
Definition host_with (entries : list SysfsEntry) : Host :=
  {| sysfs_iterdir := fun _ => Ok entries; ses_elements := fun _ => Ok [] |}.

(** The first expander of an R50, as [sg_ses] names it. *)
Definition r50_config : string :=
  "iX eDrawer4048S1 0c04" ++ newline
    ++ "  enclosure logical identifier (hex): 500e0eca0651577f" ++ newline.

Definition slots_of (self : Enclosure) : list Z := List.map slot (elements self).

Definition fresh_enclosure (product : string) : Enclosure :=
  {| num := 0; enc_devname := "bsg/0:0:0:0"; product_name := product;
     encname := ""; encid := ""; model := ""; controller := false;
     status := "OK"; elements := [] |}.

Definition start_of_walk : walk := {| element_type := None; element_number := None |}.

(** The two exclusion rules of the drive-slot branch, as one test. *)
Definition excluded (self : Enclosure) (s : Z) : bool :=
  (startswith "ECStream 3U16+4R-4X6G.3" (encname self) && (16 <? s))
  || (startswith "R50, " (model self) && (25 <=? s)).

(** Two sysfs slot directories numbered from 0. *)
Definition two_bays : list SysfsEntry := [empty_bay "Slot 00" "0"; empty_bay "Slot 01" "1"].

(** [a] sorts no later than [b] under the key of [query]. *)
Definition sorts_before (a b : EnclosureDict) : Prop := enclosure_le a b = true.

Definition is_first_expander (e : EnclosureDict) : bool :=
  contains first_expander_marker (d_name e).

(** The ordering claim, word for word: every enclosure with the marker in its
    name is at position 0 of the result, and every [number] is the position
    in the result. *)
Definition marker_at_front (result : list EnclosureDict) : Prop :=
  forall (i : nat) (e : EnclosureDict),
    result !! i = Some e -> is_first_expander e = true -> i = 0%nat.

Definition numbered_by_position (result : list EnclosureDict) : Prop :=
  forall (i : nat) (e : EnclosureDict),
    result !! i = Some e -> d_number e = Some (Z.of_nat i).

(** [filter_list] restricted to the filters of this module, no options. *)
Definition satisfies (e : EnclosureDict) (f : query_filter) : bool :=
  match f with
  | IdEq i => String.eqb (d_id e) i
  | NumberEq n => match d_number e with Some m => m =? n | None => false end
  end.

Definition plain_filter_list (l : list EnclosureDict) (fs : list query_filter)
  : list EnclosureDict :=
  List.filter (fun e => forallb (satisfies e) fs) l.

(** The spec's ordering example: a controller with id "b", discovered first,
    and a non-controller with id "a" whose name carries the marker. *)
Definition controller_b_then_marked_a : list (Z * (string * (string * string))) :=
  [ (0, ("bsg/0:0:0:0",
         ("CELESTIC P3215-O 0430" ++ newline
            ++ "  enclosure logical identifier (hex): b" ++ newline, "")));
    (1, ("bsg/1:0:0:0",
         ("JBOD eDrawer4048S1 0c04" ++ newline
            ++ "  enclosure logical identifier (hex): a" ++ newline, ""))) ].

(** The identifiers that [set_slot_status] hands to the NVMe routes. *)
Definition is_nvme_id (encl_id : string) : bool :=
  String.eqb encl_id "r30_nvme_enclosure"
  || str_in encl_id ["f60_nvme_enclosure"; "f100_nvme_enclosure"; "f130_nvme_enclosure"].

(** A drive slot of a query result, with the discovery record that
    [enclosure.map_enclosures] attaches on mapped platforms. *)
Definition drive_slot (s : Z) (orig : option Original) : ElementDict :=
  {| d_slot := s; d_elem_name := "Array Device Slot"; d_descriptor := "";
     d_device := Some ""; d_fault := Some false; d_identify := Some false;
     d_original := orig |}.

Definition one_group_enclosure (i bsg_dev mdl : string) (slots : list ElementDict)
  : EnclosureDict :=
  {| d_id := i; d_bsg := bsg_dev; d_name := "Drive Bays"; d_model := mdl;
     d_controller := true;
     d_elements := [ {| g_name := Some "Array Device Slot"; g_elements := slots;
                        g_has_slot_status := true |} ];
     d_number := Some 0; d_label := Some "Drive Bays" |}.

(** A mapped enclosure whose display slot 1 is wired to slot 5 of the
    enclosure behind [bsg/2:0:0:0]. *)
Definition mapped_enclosure : EnclosureDict :=
  one_group_enclosure "mapped_enclosure_0" "bsg/0:0:0:0" "R50"
    [ drive_slot 1 (Some {| enclosure_id := "500e0eca0651577f";
                            enclosure_bsg := "bsg/2:0:0:0"; original_slot := 5 |}) ].

(** A plain enclosure with drive slots 1 to 5. *)
Definition plain_enclosure : EnclosureDict :=
  one_group_enclosure "5b0bd6d1a30714bf" "bsg/0:0:0:0" "M Series"
    (List.map (fun s => drive_slot s None) [1; 2; 3; 4; 5]).

Definition hseries_enclosure : EnclosureDict :=
  one_group_enclosure "3b0ad6d1c00007c0" "bsg/0:0:0:0" "H Series"
    (List.map (fun s => drive_slot s None) [1; 2; 3]).

(** [enclosure.query] answering with one known enclosure. *)
Definition query_of (info : EnclosureDict) (filters : list query_filter)
  : result (list EnclosureDict) :=
  Ok (plain_filter_list [info] filters).

Definition always_ok (c : call) : option exn := None.

Definition sysfs_path_missing (c : call) : option exn :=
  match c with
  | ToggleSysfs _ _ _ _ => Some FileNotFoundError
  | _ => None
  end.

(** ** Further notions used to state properties *)

(** An element of class [k] holding the integer [v], as the decoder and the
    reconciler build it from status bytes. *)
Definition element_of_word (k : kind) (s : Z) (v : Z) : result Element :=
  Element_init k (basic_kwargs s (RawInt v) "") "".

(** The connector codes [0 .. 127]. *)
Definition connector_codes : list Z := List.map Z.of_nat (List.seq 0 128).

(** The keyword arguments of a drive slot built from an integer word, as the
    reconciler passes them outside the H Series. *)
Definition word_slot_kwargs (s v : Z) : kwargs :=
  {| kw_name := None; kw_value_raw := RawInt v; kw_slot := s; kw_desc := Some "";
     kw_identify := Some PyNone; kw_fault := Some PyNone |}.

(** How [Element.__init__] leaves the flag attributes: absent on an integer
    [value_raw], present on a text one. *)
Definition flags_ready (e : Element) : Prop :=
  match value_raw e with
  | RawInt _ => _identify e = None /\ _fault e = None
  | RawStr _ => is_Some (_identify e) /\ is_Some (_fault e)
  end.

(** The carried element number, when known, is not negative. *)
Definition number_not_negative (st : walk) : Prop :=
  match element_number st with
  | Some n => 0 <= n
  | None => True
  end.

Definition is_drive_slot (e : Element) : Prop := cls e = ArrayDevSlot.

(** What every element built by [_enclosure_element] satisfies: the flag
    attributes fit the kind of [value_raw], and the element is filed under
    "Array Device Slot" exactly when it is a drive slot. *)
Definition well_built (e : Element) : Prop :=
  flags_ready e /\ (name e = "Array Device Slot" <-> cls e = ArrayDevSlot).

(** Where a drive slot appended by the reconciler takes its state from: on
    the H Series from the sysfs texts of its mapping entry, elsewhere from
    the SES status bytes stored under its slot number, or from the default
    bytes [5, 0, 0, 0] when there are none. *)
Definition slot_state_from (is_hseries : bool) (mapping : gmap Z slot_info)
    (disk_raw_values : gmap Z (list Z)) (e : Element) : Prop :=
  exists disk slot_status ident flt,
    mapping !! slot e = Some (disk, slot_status, ident, flt)
    /\ cls e = ArrayDevSlot /\ name e = "Array Device Slot"
    /\ if is_hseries then
         value_raw e = RawStr slot_status /\ status_raw e = RawStr slot_status
         /\ _identify e = Some (PyStr ident) /\ _fault e = Some (PyStr flt)
       else
         exists v,
           _parse_raw_value (FromList (default [5; 0; 0; 0] (disk_raw_values !! slot e)))
           = Ok v
           /\ value_raw e = RawInt v
           /\ status_raw e = RawInt (Z.land (Z.shiftr v 24) 15)
           /\ _identify e = None /\ _fault e = None.

(** A sysfs slot directory with a drive. *)
Definition full_bay (dir slot_text locate fault_text dev : string) : SysfsEntry :=
  {| entry_name := dir; entry_is_dir := true; slot_file := Some slot_text;
     status_file := Some "OK"; locate_file := Some locate;
     fault_file := Some fault_text; block := Some [dev] |}.

(** Two bays numbered from 0; the SES page knows the second one (slot 2 after
    the shift) with the identify bit set. *)
Definition ses_host : Host :=
  {| sysfs_iterdir := fun _ => Ok two_bays;
     ses_elements := fun _ =>
       Ok [ (2, {| ses_type := 23; ses_descriptor := "Disk #2";
                   ses_status := [1; 0; 2; 0] |});
            (7, {| ses_type := 4; ses_descriptor := "Temp";
                   ses_status := [1; 0; 45; 0] |}) ] |}.

(** An H Series adapter: ports 0, 4 and 8 show up, port 4 is one of the
    unused ones; the SES page cannot be read. *)
Definition hseries_host : Host :=
  {| sysfs_iterdir := fun _ =>
       Ok [ full_bay "0" "0" "1" "0" "sda"; full_bay "4" "4" "0" "0" "sdx";
            full_bay "8" "8" "0" "1" "sdb" ];
     ses_elements := fun _ => Raise OSError |}.

(** A status block with two fans, elements 1 and 2 of the Cooling group. *)
Definition two_fans_status : string :=
  "    Element type: Cooling, subenclosure id: 0 [ti=3]" ++ newline
  ++ "      Overall descriptor: <empty>" ++ newline
  ++ "      Element 0 descriptor: Fan 0" ++ newline
  ++ "        01 00 01 f4" ++ newline
  ++ "      Element 1 descriptor: Fan 1" ++ newline
  ++ "        01 00 02 58" ++ newline
  ++ "      Element 2 descriptor: Fan 2" ++ newline
  ++ "        01 00 02 58" ++ newline.

(** An enclosure with drive slots 1 and 2 and fans stored at slots 2 and 3. *)
Definition bays_and_fans : string * (string * string) :=
  ("bsg/0:0:0:0", (vendor_config, two_fans_status)).

(** [e] has the sort key [k]. *)
Definition has_key (k : Z * string) (e : EnclosureDict) : bool :=
  (fst (sort_key e) =? fst k) && String.eqb (snd (sort_key e)) (snd k).

(** The numbers [0 .. n-1] as [number] fields. *)
Definition first_numbers (n : nat) : list (option Z) :=
  List.map (fun i => Some (Z.of_nat i)) (List.seq 0 n).

(** Two enclosures on a host that is not an H Series: a virtual SES device
    and an ordinary vendor chassis. *)
Definition virtual_and_vendor : list (Z * (string * (string * string))) :=
  [ (0, ("bsg/0:0:0:0", ("BROADCOM VirtualSES 03 0001" ++ newline, "")));
    (1, ("bsg/1:0:0:0", (vendor_config, ""))) ].

(** Label rows for the ordering example: a label for "a", an empty one for
    "b". *)
Definition example_rows : list (string * string) := [("a", "Shelf A"); ("b", "")].

(** The one call of the dedicated NVMe routes. *)
Definition nvme_call (encl_id : string) (s : Z) (st : slot_status) : call :=
  if String.eqb encl_id "r30_nvme_enclosure" then R30SetSlotStatus s st
  else FSeriesSetSlotStatus s st.


(** The control actions of a status, in the order they are issued. *)
Definition control_actions (st : slot_status) : list string :=
  match st with
  | CLEAR => ["clear=ident"; "clear=fault"]
  | FAULT => ["set=fault"]
  | IDENTIFY => ["set=ident"]
  end.

(** A backend on which clearing the fault indicator fails with [OSError]. *)
Definition clear_fault_fails (c : call) : option exn :=
  match c with
  | SetControl _ _ "clear=fault" => Some OSError
  | _ => None
  end.

(** [enclosure.query] that knows no enclosure. *)
Definition query_nothing (filters : list query_filter) : result (list EnclosureDict) :=
  Ok [].

(** The group that the slot lookups read: the first group of the enclosure
    named "Array Device Slot". *)
Definition is_slot_group (g : GroupDict) : bool :=
  match g_name g with
  | Some n => String.eqb n "Array Device Slot"
  | None => false
  end.

Definition slot_group (e : EnclosureDict) : option GroupDict :=
  List.find is_slot_group (d_elements e).

(** No element of the slot group of [e] passes the filter. *)
Definition no_match (slot_filter : ElementDict -> result bool) (e : EnclosureDict) : Prop :=
  forall g, slot_group e = Some g ->
            Forall (fun x => slot_filter x = Ok false) (g_elements g).

(** The slot group of [e] lists the device [disk]. *)
Definition device_listed (disk : string) (e : EnclosureDict) : Prop :=
  exists g x, slot_group e = Some g /\ In x (g_elements g) /\ d_device x = Some disk.

(** Every group has a name and every element of the slot group a "Device"
    entry, as in the dictionaries that [query] builds. *)
Definition lookup_ready (e : EnclosureDict) : Prop :=
  Forall (fun g => is_Some (g_name g)) (d_elements e)
  /\ forall g, slot_group e = Some g ->
               Forall (fun x => is_Some (d_device x)) (g_elements g).

(** The enclosure id and the slot that [_get_ses_slot] looks up: those
    recorded under "original" when the element has that entry. *)
Definition requested_id (enclosure : EnclosureDict) (element : ElementDict) : string :=
  match d_original element with
  | Some o => enclosure_id o
  | None => d_id enclosure
  end.

Definition requested_slot (element : ElementDict) : Z :=
  match d_original element with
  | Some o => original_slot o
  | None => d_slot element
  end.

(** The inventory row after [disk.update] of the [enclosure] field. *)
Definition with_enclosure (p : option (Z * Z)) (d : Disk) : Disk :=
  {| disk_identifier := disk_identifier d; disk_name := disk_name d;
     disk_enclosure := p |}.

(** Two shelves for the lookup examples; "sda" is listed on both. *)
Definition disk_slot (s : Z) (dev : string) : ElementDict :=
  {| d_slot := s; d_elem_name := "Array Device Slot"; d_descriptor := "";
     d_device := Some dev; d_fault := Some false; d_identify := Some false;
     d_original := None |}.

Definition shelf (i : string) (n : Z) (slots : list ElementDict) : EnclosureDict :=
  with_number n (one_group_enclosure i "bsg/0:0:0:0" "M Series" slots).

Definition two_shelves : list EnclosureDict :=
  [ shelf "a" 0 [disk_slot 1 "sdb"; disk_slot 2 "sda"];
    shelf "b" 1 [disk_slot 1 "sdc"; disk_slot 2 "sda"] ].

(** A disk inventory with one row, for the disk "sdc", not yet placed. *)
Definition one_disk (id_ : string) : result Disk :=
  if String.eqb id_ "{serial}C" then
    Ok {| disk_identifier := "{serial}C"; disk_name := "sdc"; disk_enclosure := None |}
  else Raise MatchNotFound.

Definition one_disk_placed (id_ : string) : result Disk :=
  if String.eqb id_ "{serial}C" then
    Ok {| disk_identifier := "{serial}C"; disk_name := "sdc";
          disk_enclosure := Some (1, 1) |}
  else Raise MatchNotFound.

(** A drive slot shown as slot 1 that discovery found as slot 2 of the
    enclosure "abc123". *)
Definition remapped_slot : ElementDict :=
  drive_slot 1 (Some {| enclosure_id := "abc123"; enclosure_bsg := "bsg/0:0:0:0";
                        original_slot := 2 |}).


(** What [query] shows of one group of the enclosure [enc]: the elements of
    that name in enclosure order, never none, with the slot-status mark
    exactly on the "Array Device Slot" group, whose elements all carry a
    "Device" entry. *)
Definition group_of (enc : Enclosure) (g : GroupDict) : Prop :=
  exists nm,
    g_name g = Some nm
    /\ List.map d_slot (g_elements g)
       = List.map slot (List.filter (fun e => String.eqb (name e) nm) (elements enc))
    /\ Forall (fun x => d_elem_name x = nm) (g_elements g)
    /\ g_elements g <> []
    /\ (g_has_slot_status g = true <-> nm = "Array Device Slot")
    /\ (nm = "Array Device Slot" ->
        Forall (fun x => is_Some (d_device x) /\ is_Some (d_fault x)
                         /\ is_Some (d_identify x)) (g_elements g)).

(** * Properties *)

(** ** Sanity checks of the text primitives and patterns *)

Example splitlines_ex :
  splitlines ("a" ++ String (ascii_of_nat 13) (String (ascii_of_nat 10) "b")
              ++ String (ascii_of_nat 10) (String (ascii_of_nat 10) "c")
              ++ String (ascii_of_nat 10) "")
  = ["a"; "b"; ""; "c"].
Proof. reflexivity. Qed.

Example split_on_ex : split_on " " " 01  00" = [""; "01"; ""; "00"].
Proof. reflexivity. Qed.

Example split_ws_ex : split_ws "  power   supply " = ["power"; "supply"].
Proof. reflexivity. Qed.

Example strip_ex : strip "  12 " = "12".
Proof. reflexivity. Qed.

Example int_ex :
  (int " 12 ", int "-3", int "1_0", int "", int "0x1f", int_base 16 "0x1f",
   int_base 16 "ff", int_base 16 "")
  = (Ok 12, Ok (-3), Ok 10, Raise ValueError, Raise ValueError, Ok 31,
     Ok 255, Raise ValueError).
Proof. reflexivity. Qed.

Example str_ex : (str_of_int 4, str_of_int (-1), str_of_int 0) = ("4", "-1", "0").
Proof. reflexivity. Qed.

Example replace_ex :
  (replace_empty "TRUENAS-" "TRUENAS-R50", replace_empty "TRUENAS-" "FREENAS-MINI")
  = ("R50", "FREENAS-MINI").
Proof. reflexivity. Qed.

Example match_element_type_ex :
  (match_element_type "    Element type: Power supply, subenclosure id: 0 [ti=1]",
   match_element_type "Element type: Cooling, subenclosure id: 0",
   match_element_type "  Element type: a, subenclosure, subenclosure")
  = (Some "Power supply", None, Some "a, subenclosure").
Proof. reflexivity. Qed.

Example match_element_descriptor_ex :
  (match_element_descriptor "      Element 12 descriptor: Fan 3",
   match_element_descriptor "      Element  descriptor:",
   match_element_descriptor "      Element 1x descriptor:")
  = (Some "12", None, None).
Proof. reflexivity. Qed.

Example match_hex_bytes_ex :
  (match_hex_bytes "        01 00 00 20",
   match_hex_bytes "01 00 00 20",
   match_hex_bytes "        01 00 00",
   match_hex_bytes "  Overall descriptor:")
  = (Some "01 00 00 20", None, Some "   01 00 00", None).
Proof. reflexivity. Qed.

Example search_logical_id_ex :
  search_logical_id
    ("Vendor Model" ++ String (ascii_of_nat 10)
       "  enclosure logical identifier (hex): abc123" ++ String (ascii_of_nat 10) "")
  = Some "abc123".
Proof. reflexivity. Qed.

Example re_match_ex :
  (re_match M_SERIES_REGEX "iX 4024Sp 0c04", re_match M_SERIES_REGEX " iX 4024Sp",
   re_match R20_REGEX "iX 2012Sp", re_match R50_REGEX "iX eDrawer4048S3",
   re_match MINI_REGEX "FREENAS-MINI-3.0-XL+")
  = (true, false, true, false, true).
Proof. reflexivity. Qed.

Example parse_raw_value_ex :
  (_parse_raw_value (FromStr "01 00 02 20"), _parse_raw_value (FromList [5; 0; 0; 0]),
   _parse_raw_value (FromStr "   01 00 00"), _parse_raw_value (FromList [1; 2; 3; 4; 5]),
   _parse_raw_value (FromStr "0 0 0 0 0 0"), _parse_raw_value (FromList []))
  = (Ok 16777760, Ok 83886080, Raise ValueError, Raise ValueError,
     Raise ValueError, Ok 0).
Proof. reflexivity. Qed.

(** ** Packing and unpacking the status bytes *)

Lemma byte_bit_high (b n : Z) : is_byte b -> 8 <= n -> Z.testbit b n = false.
Proof.
  intros [Hlo Hhi] Hn.
  rewrite <- (Z.mod_small b (2 ^ 8)) by (change (2 ^ 8) with 256; lia).
  apply Z.mod_pow2_bits_high. lia.
Qed.

Lemma mask_255_bit (n : Z) : 0 <= n -> Z.testbit 255 n = (n <? 8).
Proof.
  intros Hn. change 255 with (Z.ones 8).
  rewrite Z.testbit_ones_nonneg by lia.
  reflexivity.
Qed.

Lemma lor_below_pow2 (a b n : Z) :
  0 <= n -> 0 <= a < 2 ^ n -> 0 <= b < 2 ^ n -> 0 <= Z.lor a b < 2 ^ n.
Proof.
  intros Hn Ha Hb.
  assert (Hnn : 0 <= Z.lor a b) by (apply Z.lor_nonneg; lia).
  split; [exact Hnn|].
  destruct (Z.eq_dec a 0) as [->|Ha0]; [rewrite Z.lor_0_l; lia|].
  destruct (Z.eq_dec b 0) as [->|Hb0]; [rewrite Z.lor_0_r; lia|].
  assert (Hpos : 0 < Z.lor a b).
  { destruct (Z.eq_dec (Z.lor a b) 0) as [Hz|Hz].
    - apply Z.lor_eq_0_iff in Hz. destruct Hz; contradiction.
    - clear -Hnn Hz. lia. }
  apply Z.log2_lt_pow2; [exact Hpos|].
  rewrite Z.log2_lor by lia.
  apply Z.max_lub_lt; apply Z.log2_lt_pow2; lia.
Qed.

Lemma shifted_byte_below (b k : Z) :
  is_byte b -> 0 <= k <= 24 -> 0 <= Z.shiftl b k < 2 ^ 32.
Proof.
  intros [Hlo Hhi] Hk.
  rewrite Z.shiftl_mul_pow2 by lia.
  assert (0 < 2 ^ k) by (apply Z.pow_pos_nonneg; lia).
  assert (2 ^ k <= 2 ^ 24) by (apply Z.pow_le_mono_r; lia).
  change (2 ^ 24) with 16777216 in *. change (2 ^ 32) with 4294967296. nia.
Qed.

(** Bit [n] of a byte read back from a word made of shifted bytes. *)
Ltac byte_bits n Hn :=
  rewrite ?Z.land_spec, ?Z.shiftr_spec, ?Z.lor_spec, ?Z.shiftl_spec, ?mask_255_bit by lia;
  destruct (Z.ltb_spec n 8);
  rewrite ?andb_true_r, ?andb_false_r, ?orb_false_r;
  repeat match goal with
    | |- context [Z.testbit ?b ?k] =>
        first [ rewrite (byte_bit_high b k) by (assumption || lia)
              | rewrite (Z.testbit_neg_r b k) by lia ]
    end;
  rewrite ?orb_false_r, ?orb_false_l;
  try reflexivity;
  try (f_equal; lia).

Lemma extract_is_byte (r i : Z) : is_byte (extract_byte r i).
Proof.
  unfold extract_byte, is_byte.
  change (Z.land ?x 255) with (Z.land x (Z.ones 8)). rewrite Z.land_ones by lia.
  generalize (Z.shiftr r (2 * (3 - i) * 4)); intros w.
  pose proof (Z.mod_pos_bound w (2 ^ 8) eq_refl).
  change (2 ^ 8) with 256 in *. lia.
Qed.

Lemma py_shl_ok (v n : Z) : 0 <= n -> py_shl v n = Ok (Z.shiftl v n).
Proof.
  intros Hn. unfold py_shl.
  destruct (Z.ltb_spec n 0); [lia | reflexivity].
Qed.

(** The loop computes the formula as long as no shift count is negative. *)
Lemma pack_from_packed (bs : list Z) :
  forall (i : nat) (acc : Z),
    (i + List.length bs <= 4)%nat ->
    pack_from (Z.of_nat i) bs acc = Ok (Z.lor acc (packed_from i bs)).
Proof.
  induction bs as [|b bs IH]; intros i acc Hlen; simpl in *.
  - now rewrite Z.lor_0_r.
  - rewrite py_shl_ok by lia. simpl bind.
    replace (Z.of_nat i + 1) with (Z.of_nat (S i)) by lia.
    rewrite IH by lia. now rewrite Z.lor_assoc.
Qed.

Local Opaque Z.shiftl Z.shiftr Z.land Z.lor Z.testbit.

Lemma packed_range (bs : list Z) :
  forall i : nat, (i + List.length bs <= 4)%nat -> Forall is_byte bs ->
    0 <= packed_from i bs < 2 ^ 32.
Proof.
  induction bs as [|b bs IH]; intros i Hlen Hall; simpl in *.
  - change (2 ^ 32) with 4294967296. lia.
  - inversion Hall; subst.
    apply lor_below_pow2; [lia | | now apply IH; [lia|]].
    apply shifted_byte_below; [assumption | lia].
Qed.

Lemma packed_extract (b0 b1 b2 b3 : Z) :
  is_byte b0 -> is_byte b1 -> is_byte b2 -> is_byte b3 ->
  let r := packed [b0; b1; b2; b3] in
  extract_byte r 0 = b0 /\ extract_byte r 1 = b1
  /\ extract_byte r 2 = b2 /\ extract_byte r 3 = b3.
Proof.
  intros H0 H1 H2 H3 r. subst r.
  unfold packed, packed_from, extract_byte.
  change (Z.of_nat 0) with 0. change (Z.of_nat 1) with 1.
  change (Z.of_nat 2) with 2. change (Z.of_nat 3) with 3.
  change (2 * (3 - 0) * 4) with 24. change (2 * (3 - 1) * 4) with 16.
  change (2 * (3 - 2) * 4) with 8. change (2 * (3 - 3) * 4) with 0.
  rewrite Z.lor_0_r.
  repeat split; apply Z.bits_inj'; intros n Hn; byte_bits n Hn.
Qed.

Lemma packed_pad1 (b0 : Z) : packed [b0] = packed [b0; 0; 0; 0].
Proof. unfold packed, packed_from. now rewrite !Z.shiftl_0_l, !Z.lor_0_r. Qed.

Lemma packed_pad2 (b0 b1 : Z) : packed [b0; b1] = packed [b0; b1; 0; 0].
Proof. unfold packed, packed_from. now rewrite !Z.shiftl_0_l, !Z.lor_0_r. Qed.

Lemma packed_pad3 (b0 b1 b2 : Z) : packed [b0; b1; b2] = packed [b0; b1; b2; 0].
Proof. unfold packed, packed_from. now rewrite !Z.shiftl_0_l, !Z.lor_0_r. Qed.

(** C4.  A sequence of at most four values is packed without error as
    [byte[i] << (2*(3-i))*4], or-ed together.  When every value is a byte
    (0..255) the result is a 32-bit word and byte [i] is read back by
    [(raw_value >> (2*(3-i))*4) & 0xff]; and reading back can only succeed
    on bytes.  The packing is a function, hence deterministic. *)
Theorem parse_raw_value_roundtrip (bs : list Z) :
  (List.length bs <= 4)%nat ->
  exists r,
    _parse_raw_value (FromList bs) = Ok r
    /\ r = packed bs
    /\ (Forall is_byte bs ->
        0 <= r < 2 ^ 32
        /\ forall (i : nat) (b : Z), bs !! i = Some b -> extract_byte r (Z.of_nat i) = b)
    /\ ((forall (i : nat) (b : Z), bs !! i = Some b -> extract_byte r (Z.of_nat i) = b) ->
        Forall is_byte bs).
Proof.
  intros Hlen. exists (packed bs).
  split; [|split; [reflexivity|split]].
  - unfold _parse_raw_value. simpl bind.
    change (pack_from 0 bs 0) with (pack_from (Z.of_nat 0) bs 0).
    rewrite (pack_from_packed bs 0 0) by (simpl; lia).
    now rewrite Z.lor_0_l.
  - intros Hall. split; [apply packed_range; [simpl; lia | assumption]|].
    intros i b Hi.
    assert (Hb : is_byte 0) by (unfold is_byte; lia).
    destruct bs as [|b0 [|b1 [|b2 [|b3 [|b4 bs]]]]]; simpl in Hlen; try lia;
      repeat match goal with
        | H : Forall _ (_ :: _) |- _ => inversion H; subst; clear H
        end;
      destruct i as [|[|[|[|i]]]]; simpl in Hi; try discriminate Hi;
      injection Hi as <-.
    + rewrite (packed_pad1 b0). now apply packed_extract.
    + rewrite (packed_pad2 b0 b1). now apply packed_extract.
    + rewrite (packed_pad2 b0 b1). now apply packed_extract.
    + rewrite (packed_pad3 b0 b1 b2). now apply packed_extract.
    + rewrite (packed_pad3 b0 b1 b2). now apply packed_extract.
    + rewrite (packed_pad3 b0 b1 b2). now apply packed_extract.
    + now apply packed_extract.
    + now apply packed_extract.
    + now apply packed_extract.
    + now apply packed_extract.
  - intros Hback. apply Forall_lookup. intros i b Hi.
    rewrite <- (Hback i b Hi). apply extract_is_byte.
Qed.

(** Every input of the claim: for instance the "not installed" default
    pattern of the slot reconciler. *)
Lemma parse_raw_value_roundtrip_witness :
  exists r,
    _parse_raw_value (FromList [5; 0; 0; 0]) = Ok r
    /\ r = packed [5; 0; 0; 0]
    /\ (Forall is_byte [5; 0; 0; 0] ->
        0 <= r < 2 ^ 32
        /\ forall (i : nat) (b : Z), [5; 0; 0; 0] !! i = Some b -> extract_byte r (Z.of_nat i) = b)
    /\ ((forall (i : nat) (b : Z), [5; 0; 0; 0] !! i = Some b -> extract_byte r (Z.of_nat i) = b) ->
        Forall is_byte [5; 0; 0; 0]).
Proof. apply (parse_raw_value_roundtrip [5; 0; 0; 0]). simpl. lia. Defined.

Local Transparent Z.shiftl Z.shiftr Z.land Z.lor Z.testbit.

(** ** Identify and fault flags of a drive slot *)

Lemma str_of_int_inj (n m : Z) : str_of_int n = str_of_int m -> n = m.
Proof.
  unfold str_of_int. intros H.
  apply DecimalZ.to_int_inj.
  assert (Hs : forall z,
             NilZero.int_of_string (NilZero.string_of_int (Z.to_int z))
             = Some (Z.to_int z)).
  { intros z. apply NilZero.isi.
    - destruct z; simpl; try discriminate. intros [=E].
      now apply Unsigned.to_uint_nonnil in E.
    - destruct z; simpl; try discriminate. intros [=E].
      now apply Unsigned.to_uint_nonnil in E. }
  pose proof (Hs n) as Hn. rewrite H, Hs in Hn. now injection Hn.
Qed.

Lemma pyopt_ne_str (s t : string) : pyopt_ne (PyStr s) t = bool_decide (s ≠ t).
Proof.
  simpl. destruct (String.eqb_spec s t) as [->|Hne].
  - now rewrite bool_decide_eq_false_2 by (intros H; now apply H).
  - now rewrite bool_decide_eq_true_2.
Qed.

Lemma str_of_int_ne_zero (n : Z) : bool_decide (str_of_int n ≠ "0") = bool_decide (n ≠ 0).
Proof.
  apply bool_decide_ext. split; intros H E; apply H.
  - now subst n.
  - now apply str_of_int_inj.
Qed.

(** C9, as the code has it.  An [ArrayDevSlot] built from a text [value_raw]
    (the sysfs mode) reports identify exactly when the identify text differs
    from the one-character string "0", and fault likewise; for a text that
    is the decimal rendering of an integer this is "the integer is not
    zero".  Built from an integer [value_raw] (the SES mode), identify is bit
    0x2 of [value_raw >> 8] and fault is bit 0x20 of [value_raw]. *)
Theorem array_dev_slot_flags (dev : string) (kw : kwargs) (e : Element) :
  ArrayDevSlot_init dev kw = Ok e ->
  (forall st si sf,
      kw_value_raw kw = RawStr st ->
      kw_identify kw = Some (PyStr si) -> kw_fault kw = Some (PyStr sf) ->
      identify e = Ok (bool_decide (si ≠ "0"))
      /\ fault e = Ok (bool_decide (sf ≠ "0"))
      /\ (forall n, si = str_of_int n -> identify e = Ok (bool_decide (n ≠ 0)))
      /\ (forall n, sf = str_of_int n -> fault e = Ok (bool_decide (n ≠ 0))))
  /\ (forall v,
         kw_value_raw kw = RawInt v ->
         identify e = Ok (negb (Z.land (Z.shiftr v 8) 2 =? 0))
         /\ fault e = Ok (negb (Z.land v 32 =? 0))).
Proof.
  intros Hinit. unfold ArrayDevSlot_init, Element_init in Hinit.
  destruct kw as [nm vr sl ds ki kf]; simpl in *.
  destruct nm as [nm|]; simpl in Hinit.
  all: destruct vr as [v|st]; simpl in Hinit.
  all: try (destruct ki as [ki|]; simpl in Hinit; [|discriminate Hinit];
            destruct kf as [kf|]; simpl in Hinit; [|discriminate Hinit]).
  all: injection Hinit as <-; split.
  all: try (intros st' si sf Hst Hi Hf; try discriminate Hst;
            injection Hi as ->; injection Hf as ->;
            unfold identify, fault; cbn [_identify _fault];
            rewrite !pyopt_ne_str;
            repeat split; try reflexivity;
            intros n ->; now rewrite str_of_int_ne_zero).
  all: intros v' Hv; try discriminate Hv; injection Hv as ->;
       unfold identify, fault, bit_set; cbn [_identify _fault value_raw];
       split; reflexivity.
Qed.

Lemma array_dev_slot_flags_witness :
  exists e,
    ArrayDevSlot_init "sda" (sysfs_slot_kwargs "OK" "1" "0") = Ok e
    /\ identify e = Ok true /\ fault e = Ok false.
Proof.
  eexists. split; [reflexivity|].
  destruct (array_dev_slot_flags "sda" (sysfs_slot_kwargs "OK" "1" "0") _ eq_refl)
    as [Hos _].
  destruct (Hos "OK" "1" "0" eq_refl eq_refl eq_refl) as (Hi & Hf & _).
  split; [exact Hi | exact Hf].
Defined.

(** C9 as worded fails on a text that denotes zero without being "0": the
    slot reports identify although "00" does not denote a non-zero value. *)
Lemma identify_denotes_nonzero_counterexample :
  exists e,
    ArrayDevSlot_init "sda" (sysfs_slot_kwargs "OK" "00" "0") = Ok e
    /\ ~ (identify e = Ok true <-> denotes_nonzero "00").
Proof.
  eexists. split; [reflexivity|].
  intros [Hfwd _].
  destruct (Hfwd eq_refl) as (n & Hn & Hne).
  vm_compute in Hn. injection Hn as <-. now apply Hne.
Qed.

(** ** The model classifier *)

Lemma same_chassis_refl (a : Enclosure) : same_chassis a a.
Proof. unfold same_chassis. tauto. Qed.

Lemma same_chassis_trans (a b c : Enclosure) :
  same_chassis a b -> same_chassis b c -> same_chassis a c.
Proof. unfold same_chassis. intuition congruence. Qed.

Lemma same_chassis_append (self : Enclosure) (e : Element) :
  same_chassis self (append self e).
Proof. unfold same_chassis, append. simpl. tauto. Qed.

Lemma add_slots_same_chassis is_h mapping raws (slots : list Z) :
  forall self self',
    add_slots is_h mapping raws slots self = Ok self' -> same_chassis self self'.
Proof.
  induction slots as [|s slots IH]; intros self self' H; simpl in H.
  - injection H as <-. apply same_chassis_refl.
  - destruct (mapping !! s) as [[[[disk st] ident] flt]|]; [|discriminate H].
    match type of H with
    | bind ?x _ = _ => destruct x as [[e|]|err]; simpl in H; [| |discriminate H]
    end.
    + eapply same_chassis_trans; [apply (same_chassis_append self e)|now apply IH].
    + now apply IH.
Qed.

Lemma map_disks_same_chassis host self is_h r :
  map_disks_to_enclosure_slots host self is_h = Ok r -> same_chassis self (fst r).
Proof.
  unfold map_disks_to_enclosure_slots. intros H.
  destruct (sysfs_iterdir host _) as [entries|]; [simpl in H|discriminate H].
  destruct (min_key _) as [lo|]; [|injection H as <-; apply same_chassis_refl].
  match type of H with
  | bind ?x _ = _ => destruct x as [raws|]; simpl in H; [|discriminate H]
  end.
  match type of H with
  | bind ?x _ = _ => destruct x as [self'|] eqn:E; simpl in H; [|discriminate H]
  end.
  injection H as <-. simpl. eapply add_slots_same_chassis, E.
Qed.

Lemma parse_line_same_chassis self st line r :
  parse_line self st line = Ok r -> same_chassis self (fst r).
Proof.
  unfold parse_line. intros H.
  destruct (match_element_type line); [injection H as <-; apply same_chassis_refl|].
  destruct (match_element_descriptor line).
  { destruct (int s); simpl in H; [|discriminate H].
    injection H as <-; apply same_chassis_refl. }
  destruct (match_hex_bytes line).
  - destruct (decode_bytes self st s) as [[e|]|]; simpl in H; [| |discriminate H];
      injection H as <-; simpl;
      [apply same_chassis_append | apply same_chassis_refl].
  - injection H as <-; apply same_chassis_refl.
Qed.

Lemma parse_lines_same_chassis (lines : list string) :
  forall self st r, parse_lines self st lines = Ok r -> same_chassis self (fst r).
Proof.
  induction lines as [|l lines IH]; intros self st r H; simpl in H.
  - injection H as <-. apply same_chassis_refl.
  - destruct (parse_line self st l) as [r1|] eqn:E; simpl in H; [|discriminate H].
    eapply same_chassis_trans; [eapply parse_line_same_chassis, E | eapply IH, H].
Qed.

Lemma if_false {A} (b : bool) (x y : A) : b = false -> (if b then x else y) = y.
Proof. now intros ->. Qed.

(** No guard of the chain holds: [_set_model] changes nothing. *)
Lemma set_model_unmatched (self : Enclosure) (data : string) :
  matches_some_rule (encname self) = false -> _set_model self data = self.
Proof.
  unfold matches_some_rule, rule_guards. cbn [existsb id].
  intros H. unfold _set_model.
  repeat (apply orb_false_iff in H; destruct H as [Hg H];
          apply (eq_trans (if_false _ _ _ Hg)); clear Hg).
  reflexivity.
Qed.

(** What [_parse] decides before it looks at slots and status lines. *)
Lemma parse_identity host self cf es enc :
  _parse host self cf es = Ok enc ->
  exists first,
    head (splitlines cf) = Some first
    /\ same_chassis
         (_set_model
            (with_identity (collapse_ws (strip first))
                           (match search_logical_id cf with
                            | Some g => g
                            | None => encid self
                            end) self) cf)
         enc.
Proof.
  unfold _parse. intros H.
  destruct (splitlines cf) as [|first rest]; simpl in H; [discriminate H|].
  exists first. split; [reflexivity|].
  match type of H with
  | bind ?x _ = _ => destruct x as [r|] eqn:E1; simpl in H; [|discriminate H]
  end.
  match type of H with
  | bind ?x _ = _ => destruct x as [w|] eqn:E2; simpl in H; [|discriminate H]
  end.
  injection H as <-.
  eapply same_chassis_trans;
    [eapply map_disks_same_chassis, E1 | eapply parse_lines_same_chassis, E2].
Qed.

(** C8.  An enclosure whose decoded name matches none of the classification
    rules comes out of construction with an empty model and
    [controller = False], whatever the product name and the configuration
    text are. *)
Theorem unmatched_model_is_empty (host : Host) (n : Z)
    (data : string * (string * string)) (product : string) (enc : Enclosure) :
  Enclosure_init host n data product = Ok enc ->
  matches_some_rule (encname enc) = false ->
  model enc = "" /\ controller enc = false.
Proof.
  destruct data as [dev [cf es]]. unfold Enclosure_init.
  intros Hinit Hno.
  apply parse_identity in Hinit as (first & _ & Hsame).
  set (fresh := with_identity _ _ _) in Hsame.
  assert (Hname : encname (_set_model fresh cf) = encname fresh).
  { unfold _set_model.
    repeat match goal with
      | |- context [if ?g then _ else _] => destruct g
      end; reflexivity. }
  destruct Hsame as (_ & _ & _ & Hn & _ & Hm & Hc & _).
  rewrite Hname in Hn.
  rewrite set_model_unmatched in Hm, Hc by (now rewrite Hn).
  split; [now rewrite <- Hm | now rewrite <- Hc].
Qed.

Lemma unmatched_model_is_empty_witness :
  exists enc,
    Enclosure_init bare_host 0 ("bsg/0:0:0:0", (vendor_config, "")) "TRUENAS-M40" = Ok enc
    /\ encname enc = "Vendor Model" /\ encid enc = "abc123"
    /\ model enc = "" /\ controller enc = false.
Proof.
  eexists. split; [vm_compute; reflexivity|].
  split; [reflexivity|]. split; [reflexivity|].
  apply (unmatched_model_is_empty bare_host 0 ("bsg/0:0:0:0", (vendor_config, ""))
                                  "TRUENAS-M40");
    vm_compute; reflexivity.
Defined.

(** ** The two exclusion rules of [_enclosure_element] *)

(** The legacy 16-bay rule: slots beyond 16 give no element and no error. *)
Lemma legacy_bay_dropped (self : Enclosure) (s : Z) value st desc dev ident flt :
  startswith "ECStream 3U16+4R-4X6G.3" (encname self) = true ->
  16 < s ->
  _enclosure_element self s "Array Device Slot" value st desc dev ident flt = Ok None.
Proof.
  intros Hn Hs. unfold _enclosure_element. cbn [String.eqb Ascii.eqb Bool.eqb].
  cbv beta iota. rewrite Hn.
  destruct (Z.ltb_spec 16 s); [reflexivity | lia].
Qed.

(** The guard of the second rule as it is written: a model text that begins
    with "R50, " drops slots from 25 on. *)
Lemma r50_prefix_dropped (self : Enclosure) (s : Z) value st desc dev ident flt :
  startswith "R50, " (model self) = true ->
  25 <= s ->
  _enclosure_element self s "Array Device Slot" value st desc dev ident flt = Ok None.
Proof.
  intros Hm Hs. unfold _enclosure_element. cbn [String.eqb Ascii.eqb Bool.eqb].
  cbv beta iota. rewrite Hm.
  destruct (Z.leb_spec 25 s); [|lia].
  now destruct (startswith _ (encname self) && _).
Qed.

(** Characters of [s.replace(old, "")] are characters of [s]. *)
Lemma remove_all_chars (old : string) (c : ascii) (s : string) :
  forall skip, contains (String c EmptyString) (remove_all old skip s) = true ->
               contains (String c EmptyString) s = true.
Proof.
  induction s as [|a s IH]; intros skip H; simpl in H |- *.
  - exact H.
  - destruct skip as [|k].
    + destruct (startswith old (String a s)).
      * apply IH in H. rewrite H. apply orb_true_r.
      * simpl in H. apply orb_true_iff in H as [H|H].
        -- rewrite H. reflexivity.
        -- apply IH in H. rewrite H. apply orb_true_r.
    + apply IH in H. rewrite H. apply orb_true_r.
Qed.

Lemma prefix_r50_has_comma (m : string) :
  startswith "R50, " m = true -> contains "," m = true.
Proof.
  intros H.
  destruct m as [|c0 [|c1 [|c2 [|c3 m]]]]; cbn [startswith] in H;
    rewrite ?andb_false_r in H; try discriminate H.
  repeat (apply andb_true_iff in H as [? H]).
  match goal with Hc : Ascii.eqb "," c3 = true |- _ => rename Hc into Hcomma end.
  cbn [contains startswith]. rewrite Hcomma.
  destruct (Ascii.eqb "," c0), (Ascii.eqb "," c1), (Ascii.eqb "," c2); reflexivity.
Qed.

(** No product name without a comma is ever classified to a model that the
    R50 guard recognises. *)
Lemma r50_guard_never_fires (self : Enclosure) (data : string) :
  model self = "" ->
  contains "," (product_name self) = false ->
  startswith "R50, " (model (_set_model self data)) = false.
Proof.
  intros Hm Hp.
  destruct (startswith "R50, " (model (_set_model self data))) eqn:E; [|reflexivity].
  apply prefix_r50_has_comma in E.
  unfold _set_model in E.
  repeat match type of E with
    | context [if ?g then _ else _] => destruct g
    end;
    cbn [model with_model with_controller] in E;
    rewrite ?Hm in E;
    try discriminate E;
    try (apply remove_all_chars in E); congruence.
Qed.

(** C7, at the input where the code departs from it.  On an R50
    (product name TRUENAS-R50, first expander) the classifier stores the
    model "R50"; a sysfs slot directory numbered 25 then yields an
    "Array Device Slot" element with slot 25, which the R50 rule was meant to
    drop.  The legacy 16-bay rule does drop slot 20 on the same host. *)
Theorem r50_slot_25_not_dropped :
  (exists enc,
      Enclosure_init (host_with [empty_bay "Slot 25" "25"]) 0
                     ("bsg/0:0:0:0", (r50_config, "")) "TRUENAS-R50" = Ok enc
      /\ model enc = "R50" /\ controller enc = true
      /\ slots_of enc = [25]
      /\ List.map cls (elements enc) = [ArrayDevSlot])
  /\ (exists enc,
         Enclosure_init (host_with [empty_bay "Slot 20" "20"]) 0
                        ("bsg/0:0:0:0", ("ECStream 3U16+4R-4X6G.3 d10c" ++ newline, ""))
                        "TRUENAS-Z20" = Ok enc
         /\ elements enc = []).
Proof.
  split; eexists; (split; [vm_compute; reflexivity|]); repeat split; reflexivity.
Qed.

(** ** The status-block walk *)

(** C2, as the code has it.  A line with none of the three shapes appends
    nothing and resets the carried element number to [None]; the carried
    element type is kept as it is. *)
Theorem unrecognised_line_resets_number (self : Enclosure) (st : walk) (line : string) :
  unrecognised line = true ->
  parse_line self st line
  = Ok (self, {| element_type := element_type st; element_number := None |}).
Proof.
  unfold unrecognised, parse_line. intros H.
  destruct (match_element_type line); [discriminate H|].
  destruct (match_element_descriptor line); [discriminate H|].
  destruct (match_hex_bytes line); [discriminate H|].
  reflexivity.
Qed.

Lemma unrecognised_line_resets_number_witness :
  parse_line (fresh_enclosure "TRUENAS-M40")
             {| element_type := Some "Cooling"; element_number := Some 3 |}
             "        Overall descriptor: <empty>"
  = Ok (fresh_enclosure "TRUENAS-M40",
        {| element_type := Some "Cooling"; element_number := None |}).
Proof.
  apply (unrecognised_line_resets_number
           (fresh_enclosure "TRUENAS-M40")
           {| element_type := Some "Cooling"; element_number := Some 3 |}
           "        Overall descriptor: <empty>").
  reflexivity.
Defined.

(** C2 as worded fails: after a header and a line of no known shape the
    element type is still "Cooling", and the descriptor and byte lines that
    follow produce a Cooling element. *)
Lemma unrecognised_line_keeps_type_counterexample :
  unrecognised "        Overall descriptor: <empty>" = true
  /\ (exists r,
         parse_lines (fresh_enclosure "TRUENAS-M40") start_of_walk
           [ "    Element type: Cooling, subenclosure id: 0 [ti=3]";
             "        Overall descriptor: <empty>" ] = Ok r
         /\ element_type (snd r) = Some "Cooling"
         /\ element_type (snd r) <> None)
  /\ (exists r,
         parse_lines (fresh_enclosure "TRUENAS-M40") start_of_walk
           [ "    Element type: Cooling, subenclosure id: 0 [ti=3]";
             "        Overall descriptor: <empty>";
             "      Element 1 descriptor: Fan 1";
             "        01 00 02 a0" ] = Ok r
         /\ List.map cls (elements (fst r)) = [Cooling]
         /\ slots_of (fst r) = [2]).
Proof.
  split; [reflexivity|].
  split; eexists; (split; [vm_compute; reflexivity|]); repeat split;
    try reflexivity; discriminate.
Qed.

Lemma ready_spec (st : walk) (ty : string) (n : Z) :
  ready st = Some (ty, n) ->
  element_type st = Some ty /\ element_number st = Some n /\ n <> 0
  /\ ty <> "" /\ ty <> "Array Device Slot".
Proof.
  unfold ready. destruct (element_type st) as [[|c t]|]; try discriminate.
  destruct (element_number st) as [m|]; try discriminate.
  destruct (Z.eqb_spec m 0); cbn [negb andb]; try discriminate.
  destruct (String.eqb_spec (String c t) "Array Device Slot"); cbn [negb andb];
    try discriminate.
  intros [= <- <-]. repeat split; try assumption; discriminate.
Qed.

(** Outside the drive-slot branch [_enclosure_element] stores the slot it
    is given. *)
Lemma enclosure_element_slot (self : Enclosure) (s : Z) (nm : string) value st desc dev
    ident flt (e : Element) :
  _enclosure_element self s nm value st desc dev ident flt = Ok (Some e) -> slot e = s.
Proof.
  unfold _enclosure_element, ArrayDevSlot_init, Element_init, basic_kwargs.
  cbn [kw_name kw_value_raw kw_slot kw_desc kw_identify kw_fault class_name pop bind].
  intros H.
  repeat match type of H with
    | context [if ?g then _ else _] => destruct g
    end;
    destruct value; cbn in H; try discriminate H;
    injection H as <-; reflexivity.
Qed.

(** C10.  In the generic byte path a line appends an element only if it is a
    hex-byte line met while the carried element number is a non-zero
    integer (and the type is known); the element is stored with slot equal
    to that number plus 1.  With the number 0, as after an
    "Element 0 descriptor:" line, a hex-byte line appends nothing, whatever
    the carried type is. *)
Theorem byte_line_needs_nonzero_number (self : Enclosure) (st : walk) (line : string) :
  (forall self' st',
      parse_line self st line = Ok (self', st') ->
      elements self' = elements self
      \/ exists g ty n e,
          match_hex_bytes line = Some g
          /\ element_type st = Some ty /\ element_number st = Some n /\ n <> 0
          /\ elements self' = (elements self ++ [e])%list
          /\ slot e = n + 1)
  /\ (forall g,
         match_element_type line = None -> match_element_descriptor line = None ->
         match_hex_bytes line = Some g ->
         element_number st = Some 0 ->
         parse_line self st line
         = Ok (self, {| element_type := element_type st; element_number := None |})).
Proof.
  split.
  - intros self' st' H. unfold parse_line in H.
    destruct (match_element_type line); [injection H as <- _; now left|].
    destruct (match_element_descriptor line).
    { destruct (int s); simpl in H; [|discriminate H]. injection H as <- _; now left. }
    destruct (match_hex_bytes line) as [g|]; [|injection H as <- _; now left].
    destruct (decode_bytes self st g) as [[e|]|] eqn:E; simpl in H; try discriminate H;
      injection H as <- _; [|now left].
    right. unfold decode_bytes in E.
    destruct (ready st) as [[ty n]|] eqn:R; [|discriminate E].
    apply ready_spec in R as (Hty & Hn & Hnz & _ & _).
    destruct (_parse_raw_value (FromStr g)) as [v|]; simpl in E; [|discriminate E].
    apply enclosure_element_slot in E.
    exists g, ty, n, e. repeat split; assumption.
  - intros g H1 H2 H3 Hn. unfold parse_line, decode_bytes, ready.
    rewrite H1, H2, H3, Hn.
    destruct (element_type st) as [[|c t]|]; reflexivity.
Qed.

Lemma byte_line_needs_nonzero_number_witness :
  (exists r,
      parse_lines (fresh_enclosure "TRUENAS-M40") start_of_walk
        [ "    Element type: Cooling, subenclosure id: 0 [ti=3]";
          "      Element 0 descriptor: Fan 0";
          "        01 00 02 a0" ] = Ok r
      /\ elements (fst r) = [])
  /\ parse_line (fresh_enclosure "TRUENAS-M40")
                {| element_type := Some "Cooling"; element_number := Some 0 |}
                "        01 00 02 a0"
     = Ok (fresh_enclosure "TRUENAS-M40",
           {| element_type := Some "Cooling"; element_number := None |}).
Proof.
  split.
  - eexists. split; [vm_compute; reflexivity | reflexivity].
  - apply (proj2 (byte_line_needs_nonzero_number
                    (fresh_enclosure "TRUENAS-M40")
                    {| element_type := Some "Cooling"; element_number := Some 0 |}
                    "        01 00 02 a0") "01 00 02 a0");
      reflexivity.
Defined.

(** ** Slot numbering of the reconciler *)

Section SortedFacts.
Context {A : Type} (le : A -> A -> bool).

Lemma insert_sorted_perm (x : A) (l : list A) :
  Permutation (insert_sorted le x l) (x :: l).
Proof.
  induction l as [|y l IH]; simpl.
  - reflexivity.
  - destruct (le x y); [reflexivity|].
    rewrite IH. apply perm_swap.
Qed.

Lemma py_sorted_perm (l : list A) : Permutation (py_sorted le l) l.
Proof.
  induction l as [|x l IH]; simpl.
  - reflexivity.
  - rewrite insert_sorted_perm. now constructor.
Qed.

Lemma elem_of_py_sorted (x : A) (l : list A) : x ∈ py_sorted le l <-> x ∈ l.
Proof. now rewrite py_sorted_perm. Qed.
End SortedFacts.

Lemma elem_of_keys {V} (m : gmap Z V) (k : Z) :
  k ∈ (map_to_list m).*1 <-> is_Some (m !! k).
Proof.
  rewrite list_elem_of_fmap. split.
  - intros [[k' v] [-> Hin]]. apply elem_of_map_to_list in Hin. now exists v.
  - intros [v Hv]. exists (k, v). split; [reflexivity|]. now apply elem_of_map_to_list.
Qed.

Lemma elem_of_sorted_keys {V} (m : gmap Z V) (k : Z) :
  k ∈ sorted_keys m <-> is_Some (m !! k).
Proof. unfold sorted_keys. now rewrite elem_of_py_sorted, elem_of_keys. Qed.

Lemma fold_min_spec (ks : list Z) (k : Z) :
  fold_right Z.min k ks ∈ k :: ks /\ Forall (fun x => fold_right Z.min k ks <= x) (k :: ks).
Proof.
  induction ks as [|a ks [IHin IHle]]; simpl.
  - split; [left | repeat constructor; lia].
  - split.
    + destruct (Z.min_spec a (fold_right Z.min k ks)) as [[_ ->]|[_ ->]].
      * right. left.
      * apply elem_of_cons in IHin as [->|Hin]; [left | right; now right].
    + inversion IHle as [|? ? Hk Hks]; subst.
      constructor; [lia|]. constructor; [lia|].
      eapply Forall_impl; [exact Hks|]. intros x Hx. simpl in Hx. lia.
Qed.

(** [min(mapping)] is a key of the mapping and a lower bound of its keys. *)
Lemma min_key_spec {V} (m : gmap Z V) (lo : Z) :
  min_key m = Some lo ->
  is_Some (m !! lo) /\ forall k, is_Some (m !! k) -> lo <= k.
Proof.
  unfold min_key. destruct ((map_to_list m).*1) as [|k ks] eqn:E; [discriminate|].
  intros [= <-]. destruct (fold_min_spec ks k) as [Hin Hle]. split.
  - apply elem_of_keys. now rewrite E.
  - intros k' Hk'. apply elem_of_keys in Hk'. rewrite E in Hk'.
    rewrite Forall_forall in Hle. now apply Hle.
Qed.

#[local] Instance succ_inj : Inj (=) (=) Z.succ.
Proof. intros x y H. lia. Qed.

Lemma bump_keys_lookup {V} (m : gmap Z V) (s : Z) :
  is_Some (bump_keys m !! s) <-> exists k, is_Some (m !! k) /\ s = k + 1.
Proof.
  unfold bump_keys. split.
  - intros [v Hv]. apply lookup_kmap_Some in Hv as (k & -> & Hk); [|apply _].
    exists k. split; [now exists v | lia].
  - intros (k & [v Hv] & ->). exists v.
    apply lookup_kmap_Some; [apply _|]. exists k. split; [lia | exact Hv].
Qed.

(** The drive-slot branch either drops the slot by one of the two rules or
    builds an [ArrayDevSlot] with the slot it was given. *)
Lemma enclosure_element_array (self : Enclosure) (s : Z) value st desc dev ident flt r :
  _enclosure_element self s "Array Device Slot" value st desc dev ident flt = Ok r ->
  (r = None /\ excluded self s = true)
  \/ (exists e, r = Some e /\ excluded self s = false
                /\ slot e = s /\ cls e = ArrayDevSlot).
Proof.
  unfold _enclosure_element, excluded. cbn [String.eqb Ascii.eqb Bool.eqb].
  cbv beta iota.
  destruct (startswith "ECStream 3U16+4R-4X6G.3" (encname self) && (16 <? s));
    cbv beta iota.
  { intros H. assert (Hr : r = None) by congruence. subst r. left. now split. }
  destruct (startswith "R50, " (model self) && (25 <=? s)); cbv beta iota.
  { intros H. assert (Hr : r = None) by congruence. subst r. left. now split. }
  unfold ArrayDevSlot_init, Element_init.
  cbn [kw_name kw_value_raw kw_slot kw_desc kw_identify kw_fault class_name pop bind].
  intros H. right.
  destruct value; cbn in H; injection H as Hr; subst r; eexists; repeat split.
Qed.

Lemma excluded_same_chassis (a b : Enclosure) (s : Z) :
  same_chassis a b -> excluded a s = excluded b s.
Proof.
  intros (_ & _ & _ & Hn & _ & Hm & _). unfold excluded. now rewrite Hn, Hm.
Qed.

(** The slot loop appends, in order, one drive slot for every listed slot
    that no exclusion rule drops. *)
Lemma add_slots_elements is_h mapping raws (slots : list Z) :
  forall self self',
    add_slots is_h mapping raws slots self = Ok self' ->
    exists new,
      elements self' = (elements self ++ new)%list
      /\ Forall (fun e => cls e = ArrayDevSlot) new
      /\ List.map slot new = List.filter (fun s => negb (excluded self s)) slots.
Proof.
  induction slots as [|s slots IH]; intros self self' H; simpl in H.
  - injection H as <-. exists []. rewrite app_nil_r. repeat split. constructor.
  - destruct (mapping !! s) as [[[[disk st] ident] flt]|]; [|discriminate H].
    match type of H with
    | bind ?x _ = _ => destruct x as [info|] eqn:E; simpl in H; [|discriminate H]
    end.
    assert (Hinfo : (info = None /\ excluded self s = true)
                    \/ (exists e, info = Some e /\ excluded self s = false
                                  /\ slot e = s /\ cls e = ArrayDevSlot)).
    { destruct is_h.
      - eapply enclosure_element_array, E.
      - destruct (_parse_raw_value _) as [v|]; simpl in E; [|discriminate E].
        eapply enclosure_element_array, E. }
    destruct Hinfo as [[-> Hex]|(e & -> & Hex & Hs & Hc)].
    + apply IH in H as (new & Hel & Hall & Hmap).
      exists new. repeat split; try assumption.
      simpl. now rewrite Hex.
    + apply IH in H as (new & Hel & Hall & Hmap).
      exists (e :: new). repeat split.
      * rewrite Hel. simpl. now rewrite <- app_assoc.
      * now constructor.
      * simpl. rewrite Hex. simpl. rewrite Hs. f_equal.
        rewrite Hmap. apply filter_ext. intros x.
        now rewrite (excluded_same_chassis _ _ x (same_chassis_append self e)).
Qed.

(** C5.  When the reconciler finds at least one slot directory, with [lo]
    the smallest slot index read from sysfs: the elements it appends are
    drive slots, and their slot numbers are exactly the raw indices that no
    exclusion rule drops, each raised by 1 if [lo] is 0 and unchanged
    otherwise. *)
Theorem slot_numbers_normalised (host : Host) (self self' : Enclosure) (is_h : bool)
    (entries : list SysfsEntry) (lo : Z) (mapping : option (gmap Z slot_info)) :
  sysfs_iterdir host (removeprefix "bsg/" (enc_devname self)) = Ok entries ->
  min_key (collect_mapping is_h entries) = Some lo ->
  map_disks_to_enclosure_slots host self is_h = Ok (self', mapping) ->
  let raw_mapping := collect_mapping is_h entries in
  let shift := if lo =? 0 then 1 else 0 in
  is_Some (raw_mapping !! lo)
  /\ (forall k, is_Some (raw_mapping !! k) -> lo <= k)
  /\ exists new,
      elements self' = (elements self ++ new)%list
      /\ Forall (fun e => cls e = ArrayDevSlot) new
      /\ forall s, s ∈ List.map slot new
                   <-> exists k, is_Some (raw_mapping !! k) /\ s = k + shift
                                 /\ excluded self s = false.
Proof.
  intros Hdir Hmin Hrun raw_mapping shift.
  destruct (min_key_spec _ _ Hmin) as [Hlo Hle].
  split; [exact Hlo|]. split; [exact Hle|].
  unfold map_disks_to_enclosure_slots in Hrun.
  rewrite Hdir in Hrun. simpl in Hrun. rewrite Hmin in Hrun.
  match type of Hrun with
  | bind ?x _ = _ => destruct x as [raws|]; simpl in Hrun; [|discriminate Hrun]
  end.
  match type of Hrun with
  | bind ?x _ = _ => destruct x as [s'|] eqn:E; simpl in Hrun; [|discriminate Hrun]
  end.
  injection Hrun as <- _.
  apply add_slots_elements in E as (new & Hel & Hall & Hmap).
  exists new. split; [exact Hel|]. split; [exact Hall|].
  intros s.
  rewrite Hmap, list_elem_of_In, filter_In, <- list_elem_of_In, elem_of_sorted_keys.
  rewrite negb_true_iff.
  fold raw_mapping. subst shift.
  destruct (lo =? 0).
  - rewrite bump_keys_lookup. split.
    + intros [(k & Hk & ->) Hex]. exists k. now repeat split.
    + intros (k & Hk & -> & Hex). split; [now exists k | assumption].
  - split.
    + intros [Hk Hex]. exists s. repeat split; [assumption | lia | assumption].
    + intros (k & Hk & -> & Hex). rewrite Z.add_0_r in *. now split.
Qed.

Lemma slot_numbers_normalised_witness :
  exists self' mapping,
    map_disks_to_enclosure_slots (host_with two_bays) (fresh_enclosure "TRUENAS-M40") false
    = Ok (self', mapping)
    /\ slots_of self' = [1; 2]
    /\ exists new,
        elements self' = (elements (fresh_enclosure "TRUENAS-M40") ++ new)%list
        /\ forall s, s ∈ List.map slot new
                     <-> exists k, is_Some (collect_mapping false two_bays !! k)
                                   /\ s = k + 1
                                   /\ excluded (fresh_enclosure "TRUENAS-M40") s = false.
Proof.
  destruct (map_disks_to_enclosure_slots (host_with two_bays)
              (fresh_enclosure "TRUENAS-M40") false)
    as [[self' mapping]|e] eqn:E; [|vm_compute in E; discriminate E].
  exists self', mapping. split; [reflexivity|].
  split.
  { pose proof E as E'. vm_compute in E'. injection E' as <- _. reflexivity. }
  destruct (slot_numbers_normalised
              (host_with two_bays) (fresh_enclosure "TRUENAS-M40") self' false
              two_bays 0 mapping eq_refl)
    as (_ & _ & new & Hel & _ & Hslots);
    [vm_compute; reflexivity | exact E |].
  exists new. split; [exact Hel | exact Hslots].
Defined.

(** ** Order and numbering of the collection *)

Section SortedOrder.
Context {A : Type} (le : A -> A -> bool).
Hypothesis le_total : forall x y, le x y = true \/ le y x = true.

Lemma insert_sorted_HdRel (x a : A) (l : list A) :
  le a x = true ->
  HdRel (fun u v => le u v = true) a l ->
  HdRel (fun u v => le u v = true) a (insert_sorted le x l).
Proof.
  intros Hax Hal. destruct l as [|y l]; simpl.
  - now constructor.
  - destruct (le x y); constructor; [assumption|].
    now inversion Hal.
Qed.

Lemma insert_sorted_Sorted (x : A) (l : list A) :
  Sorted (fun u v => le u v = true) l ->
  Sorted (fun u v => le u v = true) (insert_sorted le x l).
Proof.
  induction l as [|y l IH]; intros Hs; simpl.
  - repeat constructor.
  - destruct (le x y) eqn:E.
    + constructor; [assumption|]. now constructor.
    + inversion Hs as [|? ? Hs' Hhd]; subst.
      constructor; [now apply IH|].
      apply insert_sorted_HdRel; [|assumption].
      destruct (le_total x y) as [H|H]; [congruence | exact H].
Qed.

Lemma py_sorted_Sorted (l : list A) :
  Sorted (fun u v => le u v = true) (py_sorted le l).
Proof.
  induction l as [|x l IH]; simpl; [constructor|].
  now apply insert_sorted_Sorted.
Qed.
End SortedOrder.

Lemma key_le_total (a b : Z * string) : key_le a b = true \/ key_le b a = true.
Proof.
  unfold key_le. destruct a as [x s], b as [y t]; simpl.
  destruct (Z.ltb_spec x y); [now left|].
  destruct (Z.ltb_spec y x); [now right|].
  assert (x = y) as -> by lia. rewrite Z.eqb_refl. simpl.
  apply String.leb_total.
Qed.

Lemma key_le_trans (a b c : Z * string) :
  key_le a b = true -> key_le b c = true -> key_le a c = true.
Proof.
  unfold key_le. destruct a as [x s], b as [y t], c as [z u]; simpl.
  intros Hab Hbc.
  apply orb_true_iff in Hab as [Hab|Hab]; apply orb_true_iff in Hbc as [Hbc|Hbc];
    rewrite ?andb_true_iff, ?Z.ltb_lt, ?Z.eqb_eq in *;
    apply orb_true_iff.
  - left. apply Z.ltb_lt. lia.
  - left. apply Z.ltb_lt. lia.
  - left. apply Z.ltb_lt. lia.
  - right. destruct Hab as [-> Hst], Hbc as [-> Htu].
    rewrite Z.eqb_refl. simpl.
    apply Is_true_true. apply Is_true_true in Hst, Htu.
    change (String.le s u). transitivity t; assumption.
Qed.

#[local] Instance sorts_before_trans : Transitive sorts_before.
Proof. intros a b c. unfold sorts_before, enclosure_le. apply key_le_trans. Qed.

(** The first loop of [query] leaves the first expanders at the front, the
    last one found first, and everything else behind them in discovery
    order. *)
Lemma place_all (dicts acc : list EnclosureDict) :
  fold_left place dicts acc
  = (List.rev (List.filter is_first_expander dicts) ++ acc
       ++ List.filter (fun e => negb (is_first_expander e)) dicts)%list.
Proof.
  revert acc. induction dicts as [|d dicts IH]; intros acc;
    cbn [fold_left List.filter].
  - cbn [List.rev app]. now rewrite app_nil_r.
  - rewrite IH.
    change (place acc d)
      with (if is_first_expander d then d :: acc else (acc ++ [d])%list).
    destruct (is_first_expander d); cbn [List.rev negb];
      rewrite <- ?app_assoc; reflexivity.
Qed.

Lemma enumerate_from_lookup (l : list EnclosureDict) :
  forall (i : Z) (n : nat) (e : EnclosureDict),
    enumerate_from i l !! n = Some e -> d_number e = Some (i + Z.of_nat n).
Proof.
  induction l as [|x l IH]; intros i n e H; simpl in H.
  - destruct n; discriminate H.
  - destruct n as [|n]; simpl in H.
    + injection H as <-. simpl. f_equal. lia.
    + apply IH in H. rewrite H. f_equal. lia.
Qed.

Lemma numbered_lookup nvme map_enc rows discovered (n : nat) (e : EnclosureDict) :
  numbered nvme map_enc rows discovered !! n = Some e -> d_number e = Some (Z.of_nat n).
Proof.
  unfold numbered. intros H.
  change (List.map ?f ?l) with (f <$> l) in H.
  rewrite list_lookup_fmap in H.
  destruct (enumerate_from 0 _ !! n) as [e0|] eqn:E; [|discriminate H].
  simpl in H. injection H as <-. simpl.
  now apply enumerate_from_lookup in E.
Qed.

Lemma enumerate_from_ids (l : list EnclosureDict) (i : Z) :
  List.map d_id (enumerate_from i l) = List.map d_id l.
Proof.
  revert i. induction l as [|x l IH]; intros i; simpl; [reflexivity|].
  now rewrite IH.
Qed.

(** Numbering and labelling keep the enclosures and their order. *)
Lemma numbered_ids nvme map_enc rows discovered :
  List.map d_id (numbered nvme map_enc rows discovered)
  = List.map d_id (map_enc (discovered ++ nvme)%list).
Proof.
  unfold numbered. rewrite List.map_map. simpl.
  rewrite <- (enumerate_from_ids (map_enc (discovered ++ nvme)%list) 0).
  reflexivity.
Qed.

(** C1, as the code has it.  Without filters [query] returns the enclosures
    sorted by controllers first and then by id.  The enclosures whose name
    carries the first-expander marker are moved to the front of the
    discovery list, that is of the list handed to [enclosure.map_enclosures],
    and [number] is the 0-based position in the list that
    [enclosure.map_enclosures] returns, before sorting. *)
Theorem query_sorted_after_numbering (host : Host)
    (stat : list (Z * (string * (string * string)))) (product : string)
    (nvme : list EnclosureDict) (map_enc : list EnclosureDict -> list EnclosureDict)
    (rows : list (string * string))
    (filter_list : list EnclosureDict -> list query_filter -> list EnclosureDict)
    (result : list EnclosureDict) :
  (forall l, filter_list l [] = l) ->
  query host true stat product nvme map_enc rows filter_list [] = Ok result ->
  exists (encs : list Enclosure) (dicts : list EnclosureDict),
    Enclosures_init host stat product = Ok encs
    /\ mapM enclosure_dict encs = Ok dicts
    /\ let discovered :=
         (List.rev (List.filter is_first_expander dicts)
            ++ List.filter (fun e => negb (is_first_expander e)) dicts)%list in
       let before_sort := numbered nvme map_enc rows discovered in
       StronglySorted sorts_before result
       /\ Permutation result before_sort
       /\ (forall (i : nat) (e : EnclosureDict),
              before_sort !! i = Some e -> d_number e = Some (Z.of_nat i))
       /\ List.map d_id before_sort = List.map d_id (map_enc (discovered ++ nvme)%list).
Proof.
  intros Hfl Hq. unfold query, __get_enclosures in Hq. simpl in Hq.
  destruct (Enclosures_init host stat product) as [encs|] eqn:E1; simpl in Hq;
    [|discriminate Hq].
  destruct (mapM enclosure_dict encs) as [dicts|] eqn:E2; simpl in Hq;
    [|discriminate Hq].
  rewrite Hfl in Hq. injection Hq as <-.
  exists encs, dicts. split; [reflexivity|]. split; [exact E2|].
  rewrite place_all. simpl app. cbv zeta.
  split; [|split; [|split]].
  - apply Sorted_StronglySorted; [apply sorts_before_trans|].
    apply (py_sorted_Sorted enclosure_le).
    intros x y. apply key_le_total.
  - apply py_sorted_perm.
  - intros i e. apply numbered_lookup.
  - apply numbered_ids.
Qed.

Lemma plain_filter_list_nil (l : list EnclosureDict) : plain_filter_list l [] = l.
Proof.
  unfold plain_filter_list. induction l as [|x l IH]; [reflexivity|].
  cbn [List.filter forallb]. now f_equal.
Qed.

Lemma query_sorted_after_numbering_witness :
  exists result,
    query bare_host true controller_b_then_marked_a "TRUENAS-X10" [] (fun l => l) []
          plain_filter_list [] = Ok result
    /\ StronglySorted sorts_before result
    /\ List.map d_id result = ["b"; "a"]
    /\ List.map d_number result = [Some 1; Some 0].
Proof.
  destruct (query bare_host true controller_b_then_marked_a "TRUENAS-X10" []
                  (fun l => l) [] plain_filter_list [])
    as [result|e] eqn:E; [|vm_compute in E; discriminate E].
  exists result. split; [reflexivity|].
  destruct (query_sorted_after_numbering
              bare_host controller_b_then_marked_a "TRUENAS-X10" [] (fun l => l) []
              plain_filter_list result plain_filter_list_nil E)
    as (encs & dicts & _ & _ & Hsorted & _).
  split; [exact Hsorted|].
  vm_compute in E. injection E as <-. split; reflexivity.
Defined.

(** C1 as worded fails on the spec's own ordering example: the controller
    "b" stays ahead of the non-controller "a" although the name of "a"
    carries the marker, and the numbers (1 for "b", 0 for "a") are those of
    the list before sorting. *)
Lemma query_marker_counterexample :
  exists result,
    query bare_host true controller_b_then_marked_a "TRUENAS-X10" [] (fun l => l) []
          plain_filter_list [] = Ok result
    /\ List.map d_id result = ["b"; "a"]
    /\ List.map is_first_expander result = [false; true]
    /\ List.map d_number result = [Some 1; Some 0]
    /\ ~ marker_at_front result
    /\ ~ numbered_by_position result.
Proof.
  eexists. split; [vm_compute; reflexivity|].
  split; [reflexivity|]. split; [reflexivity|]. split; [reflexivity|].
  split; intros H.
  - pose proof (H 1%nat _ eq_refl eq_refl) as Hpos. discriminate Hpos.
  - pose proof (H 0%nat _ eq_refl) as Hnum. discriminate Hnum.
Qed.

(** ** Slot control *)

Lemma issue_all_ok (backend : call -> option exn) (calls : list call) :
  Forall (fun c => backend c = None) calls -> issue backend calls = (calls, None).
Proof.
  induction 1 as [|c calls Hc _ IH]; simpl; [reflexivity|].
  now rewrite Hc, IH.
Qed.

Lemma not_nvme (encl_id : string) :
  is_nvme_id encl_id = false ->
  String.eqb encl_id "r30_nvme_enclosure" = false
  /\ str_in encl_id ["f60_nvme_enclosure"; "f100_nvme_enclosure"; "f130_nvme_enclosure"]
     = false.
Proof. unfold is_nvme_id. apply orb_false_iff. Qed.

(** Outside "mapped_enclosure_0" a resolved slot is the requested one on the
    enclosure's own device. *)
Lemma orig_unmapped (encl_id : string) (s : Z) (info : EnclosureDict) bsg_dev o :
  encl_id <> "mapped_enclosure_0" ->
  _get_orig_enclosure_and_disk encl_id s info = Ok (Some (bsg_dev, o)) ->
  bsg_dev = d_bsg info /\ o = s.
Proof.
  intros Hne. unfold _get_orig_enclosure_and_disk.
  destruct (List.concat _) as [|j js]; [discriminate|].
  destruct (String.eqb_spec encl_id "mapped_enclosure_0") as [->|_]; [contradiction|].
  intros [= <- <-]. now split.
Qed.

(** C3, as the code has it.  On an enclosure that takes neither an NVMe
    route nor the H Series route, with the slot resolved by
    [_get_orig_enclosure_and_disk] to device [bsg_dev] and slot [o], and
    with no control call failing: CLEAR issues "clear=ident" and then
    "clear=fault", FAULT issues "set=fault", IDENTIFY issues "set=ident",
    each through [set_control] on [/dev/bsg_dev], addressed to [o - 1], and
    nothing else.  [o] is the requested slot unless the enclosure is
    "mapped_enclosure_0", where it is the slot recorded at discovery. *)
Theorem generic_route_actions
    (enclosure_query : list query_filter -> result (list EnclosureDict))
    (backend : call -> option exn)
    (encl_id : string) (s : Z) (st : slot_status)
    (info : EnclosureDict) (others : list EnclosureDict) (bsg_dev : string) (o : Z) :
  is_nvme_id encl_id = false ->
  enclosure_query [IdEq encl_id] = Ok (info :: others) ->
  d_model info <> "H Series" ->
  _get_orig_enclosure_and_disk encl_id s info = Ok (Some (bsg_dev, o)) ->
  (forall a, backend (SetControl ("/dev/" ++ bsg_dev) (str_of_int (o - 1)) a) = None) ->
  set_slot_status enclosure_query backend encl_id s st
  = (List.map (SetControl ("/dev/" ++ bsg_dev) (str_of_int (o - 1)))
              match st with
              | CLEAR => ["clear=ident"; "clear=fault"]
              | FAULT => ["set=fault"]
              | IDENTIFY => ["set=ident"]
              end,
     Ok tt)
  /\ (encl_id <> "mapped_enclosure_0" -> bsg_dev = d_bsg info /\ o = s).
Proof.
  intros Hnv Hq Hm Ho Hok. split; [|intros Hne; eapply orig_unmapped; eassumption].
  apply not_nvme in Hnv as [Hr30 Hf].
  unfold set_slot_status. rewrite Hr30, Hf, Hq.
  destruct (String.eqb_spec (d_model info) "H Series") as [E|_]; [contradiction|].
  rewrite Ho.
  rewrite issue_all_ok.
  - destruct st; reflexivity.
  - apply List.Forall_forall. intros c Hc. apply in_map_iff in Hc as (a & <- & _).
    apply Hok.
Qed.

Lemma generic_route_actions_witness :
  set_slot_status (query_of plain_enclosure) always_ok "5b0bd6d1a30714bf" 5 CLEAR
  = ([ SetControl "/dev/bsg/0:0:0:0" "4" "clear=ident";
       SetControl "/dev/bsg/0:0:0:0" "4" "clear=fault" ], Ok tt).
Proof.
  apply (generic_route_actions (query_of plain_enclosure) always_ok
           "5b0bd6d1a30714bf" 5 CLEAR plain_enclosure [] "bsg/0:0:0:0" 5);
    try reflexivity.
  discriminate.
Defined.

(** C3 as worded fails on the mapped enclosure: CLEAR for display slot 1
    is addressed to physical slot 4, the discovery slot 5 minus one, not to
    slot 0. *)
Lemma mapped_slot_counterexample :
  is_nvme_id "mapped_enclosure_0" = false
  /\ d_model mapped_enclosure <> "H Series"
  /\ set_slot_status (query_of mapped_enclosure) always_ok "mapped_enclosure_0" 1 CLEAR
     = ([ SetControl "/dev/bsg/2:0:0:0" "4" "clear=ident";
          SetControl "/dev/bsg/2:0:0:0" "4" "clear=fault" ], Ok tt)
  /\ str_of_int (1 - 1) <> "4".
Proof.
  split; [reflexivity|]. split; [discriminate|]. split; [reflexivity|]. discriminate.
Qed.

(** The literal table of the H Series branch: twelve bays. *)
Lemma sysfs_to_ui_list :
  map_to_list sysfs_to_ui
  ≡ₚ [ (1, "8"); (2, "9"); (3, "10"); (4, "11"); (5, "12"); (6, "13");
       (7, "14"); (8, "15"); (9, "0"); (10, "1"); (11, "2"); (12, "3") ].
Proof.
  unfold sysfs_to_ui.
  repeat (rewrite map_to_list_insert; [apply Permutation_cons; [reflexivity|] | reflexivity]).
  now rewrite map_to_list_singleton.
Qed.

Lemma sysfs_to_ui_domain (s : Z) : is_Some (sysfs_to_ui !! s) <-> 1 <= s <= 12.
Proof.
  split.
  - intros [m Hm]. apply elem_of_map_to_list in Hm.
    rewrite sysfs_to_ui_list in Hm.
    repeat (apply elem_of_cons in Hm as [Hm|Hm]; [injection Hm as -> _; lia|]).
    now apply elem_of_nil in Hm.
  - intros Hs.
    assert (s = 1 \/ s = 2 \/ s = 3 \/ s = 4 \/ s = 5 \/ s = 6 \/ s = 7 \/ s = 8
            \/ s = 9 \/ s = 10 \/ s = 11 \/ s = 12) as Hcases by lia.
    repeat (destruct Hcases as [->|Hcases]; [eexists; reflexivity|]).
    subst s. eexists; reflexivity.
Qed.

(** C6, as the code has it.  On an enclosure classified "H Series" the slot
    is looked up in a fixed table of twelve entries, the bays 1 to 12.  A
    slot outside the table ends in the not-found error without any hardware
    call.  A slot of the table is toggled once through sysfs, under
    [/sys/class/enclosure/<addr>] with the table's ordinal; a missing sysfs
    path ([FileNotFoundError]) ends in the same not-found error. *)
Theorem hseries_route
    (enclosure_query : list query_filter -> result (list EnclosureDict))
    (backend : call -> option exn)
    (encl_id : string) (s : Z) (st : slot_status)
    (info : EnclosureDict) (others : list EnclosureDict) :
  is_nvme_id encl_id = false ->
  enclosure_query [IdEq encl_id] = Ok (info :: others) ->
  d_model info = "H Series" ->
  size sysfs_to_ui = 12%nat
  /\ (is_Some (sysfs_to_ui !! s) <-> 1 <= s <= 12)
  /\ NotFound (slot_not_found s)
  /\ (sysfs_to_ui !! s = None ->
      set_slot_status enclosure_query backend encl_id s st = ([], Raise (slot_not_found s)))
  /\ (forall mapped_slot,
         sysfs_to_ui !! s = Some mapped_slot ->
         let c := ToggleSysfs ("/sys/class/enclosure/" ++ removeprefix "bsg/" (d_bsg info))
                              mapped_slot st true in
         fst (set_slot_status enclosure_query backend encl_id s st) = [c]
         /\ (backend c = None ->
             snd (set_slot_status enclosure_query backend encl_id s st) = Ok tt)
         /\ (backend c = Some FileNotFoundError ->
             snd (set_slot_status enclosure_query backend encl_id s st)
             = Raise (slot_not_found s))).
Proof.
  intros Hnv Hq Hm.
  apply not_nvme in Hnv as [Hr30 Hf].
  split; [reflexivity|]. split; [apply sysfs_to_ui_domain|].
  split; [reflexivity|].
  unfold set_slot_status. rewrite Hr30, Hf, Hq, Hm.
  change (String.eqb "H Series" "H Series") with true. cbv iota.
  split.
  - intros ->. reflexivity.
  - intros mapped_slot ->. cbv zeta. cbn [fst snd].
    split; [reflexivity|]. split; intros ->; reflexivity.
Qed.

Lemma hseries_route_witness :
  set_slot_status (query_of hseries_enclosure) always_ok "3b0ad6d1c00007c0" 13 IDENTIFY
  = ([], Raise (slot_not_found 13))
  /\ set_slot_status (query_of hseries_enclosure) sysfs_path_missing
                     "3b0ad6d1c00007c0" 3 IDENTIFY
     = ([ToggleSysfs "/sys/class/enclosure/0:0:0:0" "10" IDENTIFY true],
        Raise (slot_not_found 3)).
Proof.
  destruct (hseries_route (query_of hseries_enclosure) always_ok "3b0ad6d1c00007c0"
              13 IDENTIFY hseries_enclosure [] eq_refl eq_refl eq_refl)
    as (_ & _ & _ & Hmiss & _).
  split; [exact (Hmiss eq_refl)|].
  destruct (hseries_route (query_of hseries_enclosure) sysfs_path_missing
              "3b0ad6d1c00007c0" 3 IDENTIFY hseries_enclosure [] eq_refl eq_refl eq_refl)
    as (_ & _ & _ & _ & Hhit).
  destruct (Hhit "10" eq_refl) as (Htr & _ & Hnf).
  specialize (Hnf eq_refl).
  destruct (set_slot_status _ _ _ _ _) as [tr r]. simpl in Htr, Hnf. now subst.
Defined.

(** C6 as worded fails on the size of the table: it has twelve entries, not
    fifteen, and the bays 13, 14 and 15 are not in it. *)
Lemma hseries_table_counterexample :
  size sysfs_to_ui <> 15%nat
  /\ sysfs_to_ui !! 13 = None /\ sysfs_to_ui !! 14 = None /\ sysfs_to_ui !! 15 = None
  /\ set_slot_status (query_of hseries_enclosure) always_ok "3b0ad6d1c00007c0" 15 IDENTIFY
     = ([], Raise (slot_not_found 15)).
Proof.
  split; [vm_compute; discriminate|]. repeat split; reflexivity.
Qed.

(** * Further properties of the module *)

(** ** Status and values of elements *)

Local Opaque Z.shiftl Z.shiftr Z.land Z.lor Z.testbit.

Lemma land_15_range (n : Z) : 0 <= Z.land n 15 < 16.
Proof.
  change 15 with (Z.ones 4). rewrite Z.land_ones by lia.
  generalize (Z.mod_pos_bound n (2 ^ 4) eq_refl). change (2 ^ 4) with 16. lia.
Qed.

Lemma small_cases_16 (P : Z -> Prop) :
  P 0 -> P 1 -> P 2 -> P 3 -> P 4 -> P 5 -> P 6 -> P 7 -> P 8 -> P 9 -> P 10 ->
  P 11 -> P 12 -> P 13 -> P 14 -> P 15 ->
  forall n, 0 <= n < 16 -> P n.
Proof.
  intros H0 H1 H2 H3 H4 H5 H6 H7 H8 H9 H10 H11 H12 H13 H14 H15 n Hn.
  assert (Hc : In n (List.map Z.of_nat (List.seq 0 16))) by (cbn; lia).
  cbn in Hc. repeat (destruct Hc as [<-|Hc]; [assumption|]). destruct Hc.
Qed.

(** The status code of a word made of four bytes is the low nibble of the
    first byte. *)
Lemma status_nibble (b0 b1 b2 b3 : Z) :
  is_byte b0 -> is_byte b1 -> is_byte b2 -> is_byte b3 ->
  Z.land (Z.shiftr (packed [b0; b1; b2; b3]) 24) 15 = Z.land b0 15.
Proof.
  intros H0 H1 H2 H3.
  destruct (packed_extract b0 b1 b2 b3 H0 H1 H2 H3) as (E0 & _).
  unfold extract_byte in E0. change (2 * (3 - 0) * 4) with 24 in E0.
  rewrite <- E0 at 2. rewrite <- Z.land_assoc. reflexivity.
Qed.

(** X1.  [Element.status] never fails on an element built by [Element.__init__]:
    for every integer [value_raw], also a negative one or one wider than
    32 bits, the index [(value_raw >> 24) & 0xf] is inside [STATUS_DESC]; a
    text [value_raw] is its own status.  For a word packed from four bytes
    the status is [STATUS_DESC[byte0 & 0xf]]. *)
Theorem element_status_defined (k : kind) (kw : kwargs) (dev : string) (e : Element) :
  Element_init k kw dev = Ok e ->
  exists s,
    Element_status e = Ok s
    /\ match kw_value_raw kw with
       | RawStr t => s = t
       | RawInt v =>
           s ∈ STATUS_DESC
           /\ forall b0 b1 b2 b3,
               is_byte b0 -> is_byte b1 -> is_byte b2 -> is_byte b3 ->
               v = packed [b0; b1; b2; b3] ->
               py_index STATUS_DESC (Z.land b0 15) = Ok s
       end.
Proof.
  unfold Element_init. intros H.
  destruct (match kw_name kw with Some n => Ok n | None => _ end) as [nm|];
    cbn [bind] in H; [|discriminate H].
  destruct (kw_value_raw kw) as [v|t] eqn:Ev; cbn [bind] in H.
  - injection H as <-. unfold Element_status. cbn [status_raw].
    assert (Hs : exists s, py_index STATUS_DESC (Z.land (Z.shiftr v 24) 15) = Ok s
                           /\ s ∈ STATUS_DESC).
    { generalize (land_15_range (Z.shiftr v 24)).
      generalize (Z.land (Z.shiftr v 24) 15). intros n Hn. revert n Hn.
      apply small_cases_16; (eexists; split; [vm_compute; reflexivity|]);
        unfold STATUS_DESC; set_solver. }
    destruct Hs as (s & Hs & Hin). exists s. split; [exact Hs|]. split; [exact Hin|].
    intros b0 b1 b2 b3 H0 H1 H2 H3 ->.
    rewrite <- (status_nibble b0 b1 b2 b3) by assumption. exact Hs.
  - destruct (pop (kw_identify kw)); cbn [bind] in H; [|discriminate H].
    destruct (pop (kw_fault kw)); cbn [bind] in H; [|discriminate H].
    injection H as <-. exists t. split; reflexivity.
Qed.

Lemma element_status_defined_witness :
  exists e,
    element_of_word PowerSupply 1 (packed [5; 0; 0; 0]) = Ok e
    /\ Element_status e = Ok "Not installed".
Proof.
  destruct (element_of_word PowerSupply 1 (packed [5; 0; 0; 0])) as [e|] eqn:E;
    [|vm_compute in E; discriminate E].
  exists e. split; [reflexivity|].
  destruct (element_status_defined
              PowerSupply (basic_kwargs 1 (RawInt (packed [5; 0; 0; 0])) "") "" e E)
    as (s & Hs & _ & Hb).
  rewrite Hs. f_equal.
  assert (Hbyte : forall b, 0 <= b <= 255 -> is_byte b) by (intros; assumption).
  specialize (Hb 5 0 0 0 (Hbyte 5 ltac:(lia)) (Hbyte 0 ltac:(lia))
                (Hbyte 0 ltac:(lia)) (Hbyte 0 ltac:(lia)) eq_refl).
  vm_compute in Hb. now injection Hb.
Defined.

Lemma lor_add_disjoint (a b k : Z) :
  0 <= k -> 0 <= b < 2 ^ k -> Z.lor (a * 2 ^ k) b = a * 2 ^ k + b.
Proof.
  intros Hk Hb.
  rewrite <- Z.lxor_lor, <- Z.add_nocarry_lxor; try reflexivity.
  all: apply Z.bits_inj'; intros n Hn; rewrite Z.land_spec, Z.bits_0.
  all: destruct (Z.lt_ge_cases n k).
  all: try (rewrite Z.mul_pow2_bits_low by lia; reflexivity).
  all: rewrite <- (Z.mod_small b (2 ^ k)) by lia.
  all: rewrite Z.mod_pow2_bits_high by lia; apply andb_false_r.
Qed.

(** A word packed from four bytes, as a sum. *)
Lemma packed_sum (b0 b1 b2 b3 : Z) :
  is_byte b0 -> is_byte b1 -> is_byte b2 -> is_byte b3 ->
  packed [b0; b1; b2; b3] = b0 * 16777216 + b1 * 65536 + b2 * 256 + b3.
Proof.
  unfold is_byte. intros H0 H1 H2 H3. unfold packed, packed_from.
  change (2 * (3 - Z.of_nat 0) * 4) with 24. change (2 * (3 - Z.of_nat 1) * 4) with 16.
  change (2 * (3 - Z.of_nat 2) * 4) with 8. change (2 * (3 - Z.of_nat 3) * 4) with 0.
  rewrite Z.lor_0_r, Z.shiftl_0_r, !Z.shiftl_mul_pow2 by lia.
  rewrite (lor_add_disjoint b2 b3 8) by (change (2 ^ 8) with 256; lia).
  rewrite (lor_add_disjoint b1 _ 16)
    by (change (2 ^ 8) with 256; change (2 ^ 16) with 65536; lia).
  rewrite (lor_add_disjoint b0 _ 24)
    by (change (2 ^ 8) with 256; change (2 ^ 16) with 65536;
        change (2 ^ 24) with 16777216; lia).
  change (2 ^ 8) with 256. change (2 ^ 16) with 65536. change (2 ^ 24) with 16777216.
  lia.
Qed.

Lemma mask_then_shift (v m k : Z) :
  0 <= k -> Z.shiftr (Z.land v (Z.shiftl m k)) k = Z.land (Z.shiftr v k) m.
Proof.
  intros Hk. apply Z.bits_inj'. intros n Hn.
  rewrite Z.shiftr_spec, !Z.land_spec, Z.shiftr_spec, Z.shiftl_spec by lia.
  do 2 f_equal. lia.
Qed.

Lemma land_ones_range (x k : Z) : 0 <= k -> 0 <= Z.land x (Z.ones k) < 2 ^ k.
Proof.
  intros Hk. rewrite Z.land_ones by lia. apply Z.mod_pos_bound.
  now apply Z.pow_pos_nonneg.
Qed.

(** X2.  [TempSensor.value]: byte 2 of the word, minus 20, with the unit; a zero
    byte means nothing is reported.  The reading is between -19 and 235
    degrees, for every integer [value_raw]. *)
Theorem temperature_of_word (s v : Z) (e : Element) :
  element_of_word TempSensor s v = Ok e ->
  TempSensor_value e
  = Ok (if extract_byte v 2 =? 0 then None
        else Some (str_of_int (extract_byte v 2 - 20) ++ "C"))
  /\ (extract_byte v 2 <> 0 -> -19 <= extract_byte v 2 - 20 <= 235)
  /\ (forall b0 b1 b2 b3,
         is_byte b0 -> is_byte b1 -> is_byte b2 -> is_byte b3 ->
         v = packed [b0; b1; b2; b3] -> extract_byte v 2 = b2).
Proof.
  unfold element_of_word, Element_init, basic_kwargs.
  cbn [kw_name kw_value_raw kw_slot kw_desc class_name bind].
  intros H. injection H as <-.
  split; [|split].
  - unfold TempSensor_value. cbn [value_raw].
    replace 65280 with (Z.shiftl 255 8) by (vm_compute; reflexivity).
    rewrite mask_then_shift by lia.
    unfold extract_byte. change (2 * (3 - 2) * 4) with 8.
    now destruct (Z.land (Z.shiftr v 8) 255 =? 0).
  - intros Hne. generalize (extract_is_byte v 2). unfold is_byte. lia.
  - intros b0 b1 b2 b3 H0 H1 H2 H3 ->.
    now destruct (packed_extract b0 b1 b2 b3 H0 H1 H2 H3) as (_ & _ & E2 & _).
Qed.

Lemma temperature_of_word_witness :
  exists e,
    element_of_word TempSensor 2 (packed [1; 0; 45; 0]) = Ok e
    /\ TempSensor_value e = Ok (Some "25C").
Proof.
  destruct (element_of_word TempSensor 2 (packed [1; 0; 45; 0])) as [e|] eqn:E;
    [|vm_compute in E; discriminate E].
  exists e. split; [reflexivity|].
  destruct (temperature_of_word 2 (packed [1; 0; 45; 0]) e E) as (Hv & _).
  rewrite Hv. vm_compute. reflexivity.
Defined.

(** X3.  [Cooling.value]: ten times the 11-bit number in bits 8 to 18 of the
    word, so between 0 and 20470 RPM for every integer [value_raw]; for a
    word packed from four bytes that number is the low three bits of byte 1
    followed by byte 2. *)
Theorem fan_speed_of_word (s v : Z) (e : Element) :
  element_of_word Cooling s v = Ok e ->
  exists rpm,
    Cooling_value e = Ok (str_of_int rpm ++ " RPM")
    /\ 0 <= rpm <= 20470
    /\ rpm mod 10 = 0
    /\ (forall b0 b1 b2 b3,
           is_byte b0 -> is_byte b1 -> is_byte b2 -> is_byte b3 ->
           v = packed [b0; b1; b2; b3] -> rpm = ((b1 mod 8) * 256 + b2) * 10).
Proof.
  unfold element_of_word, Element_init, basic_kwargs.
  cbn [kw_name kw_value_raw kw_slot kw_desc class_name bind].
  intros H. injection H as <-.
  exists (Z.land (Z.shiftr v 8) (Z.ones 11) * 10).
  split; [|split; [|split]].
  - unfold Cooling_value. cbn [value_raw].
    replace 524032 with (Z.shiftl (Z.ones 11) 8) by (vm_compute; reflexivity).
    rewrite mask_then_shift by lia. reflexivity.
  - generalize (land_ones_range (Z.shiftr v 8) 11 ltac:(lia)).
    change (2 ^ 11) with 2048.
    generalize (Z.land (Z.shiftr v 8) (Z.ones 11)). intros x Hx. lia.
  - apply Z.mod_mul. lia.
  - intros b0 b1 b2 b3 H0 H1 H2 H3 ->. f_equal.
    rewrite packed_sum by assumption.
    rewrite Z.land_ones, Z.shiftr_div_pow2 by lia.
    change (2 ^ 8) with 256. change (2 ^ 11) with 2048.
    unfold is_byte in *.
    Z.div_mod_to_equations. lia.
Qed.

Lemma fan_speed_of_word_witness :
  exists e,
    element_of_word Cooling 2 (packed [1; 2; 88; 0]) = Ok e
    /\ Cooling_value e = Ok "6000 RPM".
Proof.
  destruct (element_of_word Cooling 2 (packed [1; 2; 88; 0])) as [e|] eqn:E;
    [|vm_compute in E; discriminate E].
  exists e. split; [reflexivity|].
  destruct (fan_speed_of_word 2 (packed [1; 2; 88; 0]) e E) as (rpm & Hv & _ & _ & Hb).
  rewrite Hv.
  assert (Hbyte : forall b, 0 <= b <= 255 -> is_byte b) by (intros; assumption).
  rewrite (Hb 1 2 88 0 (Hbyte 1 ltac:(lia)) (Hbyte 2 ltac:(lia))
              (Hbyte 88 ltac:(lia)) (Hbyte 0 ltac:(lia)) eq_refl).
  vm_compute. reflexivity.
Defined.

Lemma land_of_byte (v b m : Z) (k : Z) :
  Z.land (Z.shiftr v k) 255 = b -> Z.land 255 m = m ->
  Z.land (Z.shiftr v k) m = Z.land b m.
Proof. intros <- Hm. now rewrite <- Z.land_assoc, Hm. Qed.

(** X4.  A drive slot built from four SES status bytes: identify is bit 0x02 of
    byte 2, fault is bit 0x20 of byte 3, and [value] names the flags that are
    set, or is "None". *)
Theorem drive_slot_flags_of_bytes (dev : string) (s b0 b1 b2 b3 : Z) (e : Element) :
  is_byte b0 -> is_byte b1 -> is_byte b2 -> is_byte b3 ->
  ArrayDevSlot_init dev (word_slot_kwargs s (packed [b0; b1; b2; b3])) = Ok e ->
  identify e = Ok (bit_set b2 2)
  /\ fault e = Ok (bit_set b3 32)
  /\ ArrayDevSlot_value e
     = Ok (match bit_set b2 2, bit_set b3 32 with
           | true, true => "Identify on, Fault on"
           | true, false => "Identify on"
           | false, true => "Fault on"
           | false, false => "None"
           end).
Proof.
  intros H0 H1 H2 H3.
  unfold ArrayDevSlot_init, Element_init, word_slot_kwargs.
  cbn [kw_name kw_value_raw kw_slot kw_desc kw_identify kw_fault class_name bind].
  intros H. injection H as <-.
  destruct (packed_extract b0 b1 b2 b3 H0 H1 H2 H3) as (_ & _ & E2 & E3).
  unfold extract_byte in E2, E3.
  change (2 * (3 - 2) * 4) with 8 in E2. change (2 * (3 - 3) * 4) with 0 in E3.
  assert (Hi : identify
                 {| cls := ArrayDevSlot; name := "Array Device Slot"; slot := s;
                    value_raw := RawInt (packed [b0; b1; b2; b3]);
                    status_raw := RawInt (Z.land (Z.shiftr (packed [b0; b1; b2; b3]) 24) 15);
                    descriptor := "";
                    devname := match List.filter negb_startswith_pass
                                       (split_on "," (strip dev)) with
                               | d :: _ => d
                               | [] => ""
                               end;
                    _identify := None; _fault := None |}
               = Ok (bit_set b2 2)).
  { unfold identify, bit_set. cbn [_identify value_raw].
    rewrite (land_of_byte _ b2 2 8 E2) by (vm_compute; reflexivity). reflexivity. }
  assert (Hf : fault
                 {| cls := ArrayDevSlot; name := "Array Device Slot"; slot := s;
                    value_raw := RawInt (packed [b0; b1; b2; b3]);
                    status_raw := RawInt (Z.land (Z.shiftr (packed [b0; b1; b2; b3]) 24) 15);
                    descriptor := "";
                    devname := match List.filter negb_startswith_pass
                                       (split_on "," (strip dev)) with
                               | d :: _ => d
                               | [] => ""
                               end;
                    _identify := None; _fault := None |}
               = Ok (bit_set b3 32)).
  { unfold fault, bit_set. cbn [_fault value_raw].
    rewrite <- (Z.shiftr_0_r (packed [b0; b1; b2; b3])).
    rewrite (land_of_byte _ b3 32 0 E3) by (vm_compute; reflexivity). reflexivity. }
  split; [exact Hi|]. split; [exact Hf|].
  unfold ArrayDevSlot_value. rewrite Hi, Hf. cbn [bind].
  now destruct (bit_set b2 2), (bit_set b3 32).
Qed.

Lemma drive_slot_flags_of_bytes_witness :
  exists e,
    ArrayDevSlot_init "sda" (word_slot_kwargs 3 (packed [1; 0; 2; 0])) = Ok e
    /\ identify e = Ok true /\ fault e = Ok false
    /\ ArrayDevSlot_value e = Ok "Identify on".
Proof.
  destruct (ArrayDevSlot_init "sda" (word_slot_kwargs 3 (packed [1; 0; 2; 0])))
    as [e|] eqn:E; [|vm_compute in E; discriminate E].
  exists e. split; [reflexivity|].
  assert (Hbyte : forall b, 0 <= b <= 255 -> is_byte b) by (intros; assumption).
  exact (drive_slot_flags_of_bytes "sda" 3 1 0 2 0 e
           (Hbyte 1 ltac:(lia)) (Hbyte 0 ltac:(lia)) (Hbyte 2 ltac:(lia))
           (Hbyte 0 ltac:(lia)) E).
Defined.

Local Transparent Z.shiftl Z.shiftr Z.land Z.lor Z.testbit.




Lemma connector_codes_checked :
  forallb (fun c => negb (startswith "unexpected connector type" (connector_type c)))
          connector_codes = true.
Proof. vm_compute. reflexivity. Qed.

(** X6.  [SASConnector.type] never reaches its last branch: the connector code is
    masked with 0x7f, so for every integer [value_raw] the text is one of the
    named or ranged connector kinds and never "unexpected connector type". *)
Theorem connector_type_expected (s v : Z) (e : Element) :
  element_of_word SASConnector s v = Ok e ->
  exists t,
    SASConnector_type e = Ok t
    /\ t = connector_type (Z.land (Z.shiftr v 16) 127)
    /\ 0 <= Z.land (Z.shiftr v 16) 127 < 128
    /\ startswith "unexpected connector type" t = false.
Proof.
  unfold element_of_word, Element_init, basic_kwargs.
  cbn [kw_name kw_value_raw kw_slot kw_desc class_name bind].
  intros H. injection H as <-.
  eexists. split; [reflexivity|]. split; [reflexivity|].
  assert (Hr : 0 <= Z.land (Z.shiftr v 16) 127 < 128).
  { change 127 with (Z.ones 7). apply (land_ones_range _ 7). lia. }
  split; [exact Hr|].
  generalize dependent (Z.land (Z.shiftr v 16) 127). intros c Hc.
  pose proof connector_codes_checked as Hall.
  rewrite forallb_forall in Hall.
  apply negb_true_iff, Hall. unfold connector_codes.
  apply in_map_iff. exists (Z.to_nat c). split; [lia|].
  apply in_seq. lia.
Qed.

Lemma connector_type_expected_witness :
  exists e,
    element_of_word SASConnector 1 (packed [1; 5; 0; 0]) = Ok e
    /\ SASConnector_value e = Ok "Mini SAS HD 4x receptacle (SFF-8644) [max 4 phys]".
Proof.
  destruct (element_of_word SASConnector 1 (packed [1; 5; 0; 0])) as [e|] eqn:E;
    [|vm_compute in E; discriminate E].
  exists e. split; [reflexivity|].
  destruct (connector_type_expected 1 (packed [1; 5; 0; 0]) e E) as (t & Ht & -> & _ & _).
  unfold SASConnector_value. rewrite Ht. cbn [bind].
  vm_compute in E. injection E as <-. vm_compute. reflexivity.
Defined.

(** ** What construction guarantees about the elements of an enclosure *)

Lemma element_init_ready (k : kind) (kw : kwargs) (dev : string) (e : Element) :
  Element_init k kw dev = Ok e ->
  flags_ready e /\ cls e = k /\ slot e = kw_slot kw /\ value_raw e = kw_value_raw kw
  /\ name e = match kw_name kw with
              | Some n => n
              | None => default "" (class_name k)
              end.
Proof.
  unfold Element_init, flags_ready. intros H.
  assert (Hnm : (match kw_name kw with
                 | Some n => Ok n
                 | None => match class_name k with
                           | Some n => Ok n
                           | None => Ok ""
                           end
                 end : result string)
                = Ok (match kw_name kw with
                      | Some n => n
                      | None => default "" (class_name k)
                      end)).
  { destruct (kw_name kw); [reflexivity|]. now destruct (class_name k). }
  rewrite Hnm in H. cbn [bind] in H.
  destruct (kw_value_raw kw) as [v|t] eqn:Ev; cbn [bind] in H.
  - injection H as <-. cbn. tauto.
  - destruct (kw_identify kw); cbn [pop bind] in H; [|discriminate H].
    destruct (kw_fault kw); cbn [pop bind] in H; [|discriminate H].
    injection H as <-. cbn. unfold is_Some. eauto 10.
Qed.

(** Whatever [_enclosure_element] builds has the slot and the value it was
    given, well-formed flag attributes, and is a drive slot exactly when the
    name asked for one. *)
Lemma enclosure_element_built (self : Enclosure) (s : Z) (nm : string) value st desc dev
    ident flt (e : Element) :
  _enclosure_element self s nm value st desc dev ident flt = Ok (Some e) ->
  well_built e /\ slot e = s /\ value_raw e = value
  /\ (cls e = ArrayDevSlot <-> nm = "Array Device Slot").
Proof.
  unfold _enclosure_element, ArrayDevSlot_init. intros H.
  repeat match type of H with
    | context [if String.eqb nm ?k then _ else _] =>
        destruct (String.eqb_spec nm k) as [->|?]
    end;
    repeat match type of H with
      | context [if ?g then _ else _] => destruct g; try discriminate H
      end;
    match type of H with
    | bind ?x _ = _ => destruct x as [e0|] eqn:E; cbn [bind] in H; [|discriminate H]
    end;
    injection H as <-;
    apply element_init_ready in E as (Hr & Hc & Hs & Hv & Hn);
    cbn [kw_name basic_kwargs class_name default] in Hn;
    (split; [split; [exact Hr|]; rewrite Hc, Hn;
             split; intros Hx; try discriminate Hx; try reflexivity; congruence|]);
    (split; [exact Hs|]); (split; [exact Hv|]);
    rewrite Hc; split; intros Hx; try discriminate Hx; try reflexivity; congruence.
Qed.

Lemma array_element_built (self : Enclosure) (s : Z) value st desc dev ident flt
    (e : Element) :
  _enclosure_element self s "Array Device Slot" value st desc dev ident flt = Ok (Some e) ->
  cls e = ArrayDevSlot /\ name e = "Array Device Slot" /\ slot e = s
  /\ value_raw e = value
  /\ match value with
     | RawInt v =>
         status_raw e = RawInt (Z.land (Z.shiftr v 24) 15)
         /\ _identify e = None /\ _fault e = None
     | RawStr t =>
         status_raw e = RawStr t /\ _identify e = Some ident /\ _fault e = Some flt
     end.
Proof.
  unfold _enclosure_element. cbn [String.eqb Ascii.eqb Bool.eqb]. cbv beta iota.
  destruct (startswith "ECStream 3U16+4R-4X6G.3" (encname self) && (16 <? s));
    cbv beta iota; [discriminate|].
  destruct (startswith "R50, " (model self) && (25 <=? s)); cbv beta iota;
    [discriminate|].
  unfold ArrayDevSlot_init, Element_init.
  cbn [kw_name kw_value_raw kw_slot kw_desc kw_identify kw_fault class_name pop bind].
  intros H. destruct value; cbn in H; injection H as <-; cbn; tauto.
Qed.

(** Every element the slot loop appends is a drive slot whose state comes
    from the source that the platform makes authoritative. *)
Lemma add_slots_provenance is_h mapping raws (slots : list Z) :
  forall self self',
    add_slots is_h mapping raws slots self = Ok self' ->
    exists new,
      elements self' = (elements self ++ new)%list
      /\ Forall (slot_state_from is_h mapping raws) new.
Proof.
  induction slots as [|s slots IH]; intros self self' H; simpl in H.
  - injection H as <-. exists []. rewrite app_nil_r. split; [reflexivity|constructor].
  - destruct (mapping !! s) as [[[[disk st] ident] flt]|] eqn:Em; [|discriminate H].
    match type of H with
    | bind ?x _ = _ => destruct x as [[e|]|] eqn:E; cbn [bind] in H; [| |discriminate H]
    end.
    + apply IH in H as (new & Hel & Hall).
      exists (e :: new). split.
      { rewrite Hel. cbn [append elements]. now rewrite <- app_assoc. }
      constructor; [|exact Hall].
      exists disk, st, ident, flt.
      destruct is_h.
      * apply array_element_built in E as (Hc & Hnm & Hs & Hv & Hst & Hi & Hf).
        rewrite Hs. repeat split; assumption.
      * destruct (_parse_raw_value _) as [v|] eqn:Ev; cbn [bind] in E; [|discriminate E].
        apply array_element_built in E as (Hc & Hnm & Hs & Hv & Hst & Hi & Hf).
        rewrite Hs. split; [exact Em|]. split; [exact Hc|]. split; [exact Hnm|].
        exists v. repeat split; assumption.
    + apply IH in H as (new & Hel & Hall). exists new. split; assumption.
Qed.

Lemma collect_raw_values_from (items : list (Z * SesElement)) :
  forall (acc : gmap Z (list Z)) (k : Z) (bytes : list Z),
    fold_left (fun m kv =>
                 let '(k, v) := kv in
                 if (ses_type v =? 23) && negb (String.eqb (ses_descriptor v) "<empty>")
                 then <[k := ses_status v]> m else m) items acc !! k = Some bytes ->
    acc !! k = Some bytes
    \/ exists v, In (k, v) items /\ ses_type v = 23 /\ ses_descriptor v <> "<empty>"
                 /\ ses_status v = bytes.
Proof.
  induction items as [|[k0 v0] items IH]; intros acc k bytes H; cbn [fold_left] in H.
  - now left.
  - apply IH in H as [H|(v & Hin & Hv)].
    + destruct ((ses_type v0 =? 23) && negb (String.eqb (ses_descriptor v0) "<empty>"))
        eqn:Eg; [|now left].
      destruct (decide (k0 = k)) as [->|Hne].
      * rewrite lookup_insert_eq in H. injection H as <-.
        apply andb_true_iff in Eg as [Et Ed].
        right. exists v0. repeat split.
        -- now left.
        -- now apply Z.eqb_eq.
        -- apply negb_true_iff in Ed. now apply String.eqb_neq.
      * rewrite lookup_insert_ne in H by assumption. now left.
    + right. exists v. split; [now right | exact Hv].
Qed.

(** X7.  Outside the H Series the state of every drive slot comes from the SES
    status page: the bytes stored under its slot number by an element of
    type 23 with a descriptor other than "<empty>", or the default bytes
    [5, 0, 0, 0]; a slot on the default reads "Not installed" with neither
    identify nor fault.  The sysfs locate and fault texts are not used. *)
Theorem ses_slots_from_status_page (host : Host) (self self' : Enclosure)
    (mapping : gmap Z slot_info) :
  map_disks_to_enclosure_slots host self false = Ok (self', Some mapping) ->
  exists items new,
    ses_elements host (enc_devname self) = Ok items
    /\ elements self' = (elements self ++ new)%list
    /\ Forall (fun e =>
                 cls e = ArrayDevSlot
                 /\ is_Some (mapping !! slot e)
                 /\ _identify e = None /\ _fault e = None
                 /\ match collect_raw_values items !! slot e with
                    | Some bytes =>
                        (exists v, In (slot e, v) items /\ ses_type v = 23
                                   /\ ses_descriptor v <> "<empty>"
                                   /\ ses_status v = bytes)
                        /\ exists w, _parse_raw_value (FromList bytes) = Ok w
                                     /\ value_raw e = RawInt w
                    | None =>
                        value_raw e = RawInt (packed [5; 0; 0; 0])
                        /\ Element_status e = Ok "Not installed"
                        /\ identify e = Ok false /\ fault e = Ok false
                    end) new.
Proof.
  unfold map_disks_to_enclosure_slots. intros H.
  destruct (sysfs_iterdir host _) as [entries|]; cbn [bind] in H; [|discriminate H].
  destruct (min_key _) as [lo|]; [|discriminate H].
  destruct (ses_elements host (enc_devname self)) as [items|]; cbn [bind] in H;
    [|discriminate H].
  match type of H with
  | bind ?x _ = _ => destruct x as [s'|] eqn:E; cbn [bind] in H; [|discriminate H]
  end.
  injection H as <- <-.
  apply add_slots_provenance in E as (new & Hel & Hall).
  exists items, new. split; [reflexivity|]. split; [exact Hel|].
  eapply Forall_impl; [exact Hall|].
  intros e (disk & st & ident & flt & Hm & Hc & _ & v & Hv & Hraw & Hst & Hi & Hf).
  split; [exact Hc|]. split; [exact (ex_intro _ _ Hm)|].
  split; [exact Hi|]. split; [exact Hf|].
  destruct (collect_raw_values items !! slot e) as [bytes|] eqn:Er; cbn [default] in Hv.
  - split.
    + unfold collect_raw_values in Er.
      apply collect_raw_values_from in Er as [Er|Er]; [|exact Er].
      rewrite lookup_empty in Er. discriminate Er.
    + now exists v.
  - vm_compute in Hv. injection Hv as <-.
    split; [exact Hraw|].
    unfold Element_status, identify, fault. rewrite Hst, Hi, Hf, Hraw.
    repeat split; vm_compute; reflexivity.
Qed.

Lemma ses_slots_from_status_page_witness :
  exists self' mapping,
    map_disks_to_enclosure_slots ses_host (fresh_enclosure "TRUENAS-M40") false
    = Ok (self', Some mapping)
    /\ slots_of self' = [1; 2]
    /\ List.map Element_status (elements self') = [Ok "Not installed"; Ok "OK"]
    /\ List.map identify (elements self') = [Ok false; Ok true]
    /\ Forall (fun e => _identify e = None /\ _fault e = None) (elements self').
Proof.
  destruct (map_disks_to_enclosure_slots ses_host (fresh_enclosure "TRUENAS-M40") false)
    as [[self' [mapping|]]|] eqn:E; try (vm_compute in E; discriminate E).
  exists self', mapping. split; [reflexivity|].
  destruct (ses_slots_from_status_page _ _ _ _ E) as (items & new & _ & Hel & Hall).
  cbn [fresh_enclosure elements app] in Hel.
  split; [|split; [|split]].
  4: { rewrite Hel. eapply Forall_impl; [exact Hall|]. cbv beta. tauto. }
  all: pose proof E as E'; vm_compute in E'; injection E' as <- _; reflexivity.
Defined.

(** X8.  On the H Series the state of every drive slot comes from sysfs: its
    [value_raw] and status are the status text, identify and fault are
    decided by the locate and fault texts, and the SES status page is never
    read (the result is the same whatever reading it would give). *)
Theorem hseries_slots_from_sysfs (host : Host) (self self' : Enclosure)
    (mapping : gmap Z slot_info) :
  map_disks_to_enclosure_slots host self true = Ok (self', Some mapping) ->
  (exists new,
      elements self' = (elements self ++ new)%list
      /\ Forall (fun e =>
                   cls e = ArrayDevSlot
                   /\ exists disk slot_status ident flt,
                       mapping !! slot e = Some (disk, slot_status, ident, flt)
                       /\ value_raw e = RawStr slot_status
                       /\ Element_status e = Ok slot_status
                       /\ identify e = Ok (bool_decide (ident ≠ "0"))
                       /\ fault e = Ok (bool_decide (flt ≠ "0"))) new)
  /\ forall ses_page,
      map_disks_to_enclosure_slots
        {| sysfs_iterdir := sysfs_iterdir host; ses_elements := ses_page |} self true
      = Ok (self', Some mapping).
Proof.
  intros H. split; [|intros ses_page; exact H].
  unfold map_disks_to_enclosure_slots in H.
  destruct (sysfs_iterdir host _) as [entries|]; cbn [bind] in H; [|discriminate H].
  destruct (min_key _) as [lo|]; [|discriminate H].
  cbn [bind] in H.
  match type of H with
  | bind ?x _ = _ => destruct x as [s'|] eqn:E; cbn [bind] in H; [|discriminate H]
  end.
  injection H as <- <-.
  apply add_slots_provenance in E as (new & Hel & Hall).
  exists new. split; [exact Hel|].
  eapply Forall_impl; [exact Hall|].
  intros e (disk & st & ident & flt & Hm & Hc & _ & Hraw & Hst & Hi & Hf).
  split; [exact Hc|]. exists disk, st, ident, flt.
  split; [exact Hm|]. split; [exact Hraw|].
  unfold Element_status, identify, fault. rewrite Hst, Hi, Hf, <- !pyopt_ne_str.
  repeat split.
Qed.

Lemma hseries_slots_from_sysfs_witness :
  exists self' mapping,
    map_disks_to_enclosure_slots hseries_host (fresh_enclosure "TRUENAS-H10") true
    = Ok (self', Some mapping)
    /\ slots_of self' = [1; 9]
    /\ List.map devname (elements self') = ["sda"; "sdb"]
    /\ List.map identify (elements self') = [Ok true; Ok false]
    /\ List.map fault (elements self') = [Ok false; Ok true]
    /\ Forall (fun e => Element_status e = Ok "OK") (elements self').
Proof.
  destruct (map_disks_to_enclosure_slots hseries_host (fresh_enclosure "TRUENAS-H10") true)
    as [[self' [mapping|]]|] eqn:E; try (vm_compute in E; discriminate E).
  exists self', mapping. split; [reflexivity|].
  destruct (hseries_slots_from_sysfs _ _ _ _ E) as ((new & Hel & Hall) & _).
  cbn [fresh_enclosure elements app] in Hel.
  pose proof E as E'. vm_compute in E'. injection E' as <- _.
  repeat split; try reflexivity.
  repeat constructor.
Defined.

(** ** Layout of the element list *)

Lemma span_spec (p : ascii -> bool) (s : string) :
  all_chars p (fst (span p s)) = true.
Proof.
  induction s as [|c s IH]; cbn [span]; [reflexivity|].
  destruct (p c) eqn:E; [|reflexivity].
  destruct (span p s) as [a b]. cbn [fst snd] in *. cbn [all_chars].
  now rewrite E, IH.
Qed.

Lemma digit_not_space (c : ascii) : isdigit c = true -> isspace c = false.
Proof.
  unfold isdigit, isspace. generalize (code c). intros n H.
  apply andb_true_iff in H as [H1 H2].
  apply Nat.leb_le in H1. 
  apply orb_false_iff. split; apply andb_false_iff.
  - right. apply Nat.leb_gt. lia.
  - right. apply Nat.leb_gt. apply Nat.leb_le in H2. lia.
Qed.

Lemma rstrip_digits (s : string) : all_chars isdigit s = true -> rstrip s = s.
Proof.
  induction s as [|c s IH]; cbn [all_chars rstrip]; [reflexivity|].
  intros H. apply andb_true_iff in H as [Hc Hs].
  rewrite (IH Hs), (digit_not_space c Hc). now destruct s.
Qed.

Lemma digit_val_nonneg (base : Z) (c : ascii) (d : Z) :
  digit_val base c = Some d -> 0 <= d.
Proof.
  unfold digit_val. generalize (Z.of_nat (code c)). intros n.
  destruct ((48 <=? n) && (n <=? 57)) eqn:E1.
  { apply andb_true_iff in E1 as [H1 _]. apply Z.leb_le in H1.
    destruct (n - 48 <? base); intros [= <-]. lia. }
  destruct ((97 <=? n) && (n <=? 122)) eqn:E2.
  { apply andb_true_iff in E2 as [H1 _]. apply Z.leb_le in H1.
    destruct (n - 87 <? base); intros [= <-]. lia. }
  destruct ((65 <=? n) && (n <=? 90)) eqn:E3.
  { apply andb_true_iff in E3 as [H1 _]. apply Z.leb_le in H1.
    destruct (n - 55 <? base); intros [= <-]. lia. }
  rewrite Z.ltb_irrefl. discriminate.
Qed.

Lemma parse_digits_nonneg (base : Z) (s : string) :
  0 <= base ->
  forall acc nd n, 0 <= acc -> parse_digits base acc nd s = Some n -> 0 <= n.
Proof.
  intros Hb. induction s as [|c s IH]; intros acc nd n Hacc H; cbn [parse_digits] in H.
  - destruct nd; [discriminate H|]. injection H as <-. exact Hacc.
  - destruct (code c =? 95)%nat.
    + destruct nd; [discriminate H|]. eapply IH; eassumption.
    + destruct (digit_val base c) as [d|] eqn:Ed; [|discriminate H].
      apply digit_val_nonneg in Ed. eapply IH; [|exact H]. nia.
Qed.

(** A text that starts with a digit and is all digits reads as a number that
    is not negative. *)
Lemma int_of_digits_nonneg (g : string) (n : Z) :
  g <> "" -> all_chars isdigit g = true -> int g = Ok n -> 0 <= n.
Proof.
  intros Hne Hall. unfold int, int_base, strip.
  destruct g as [|c r]; [contradiction|].
  pose proof Hall as Hall'. cbn [all_chars] in Hall'.
  apply andb_true_iff in Hall' as [Hc _].
  cbn [lstrip]. rewrite (digit_not_space c Hc), (rstrip_digits _ Hall).
  assert (Hsign : c <> "-"%char /\ c <> "+"%char).
  { split; intros ->; vm_compute in Hc; discriminate Hc. }
  destruct Hsign as [Hm Hp].
  assert (Hd : match String c r with
               | String "-" t' => option_map Z.opp (parse_unsigned 10 t')
               | String "+" t' => parse_unsigned 10 t'
               | _ => parse_unsigned 10 (String c r)
               end = parse_unsigned 10 (String c r)).
  { destruct c as [[] [] [] [] [] [] [] []]; try reflexivity; congruence. }
  rewrite Hd. unfold parse_unsigned. cbn [Z.eqb andb].
  destruct (parse_digits 10 0 true (String c r)) as [m|] eqn:E; [|discriminate].
  intros [= <-]. eapply (parse_digits_nonneg 10); [lia | | exact E]. lia.
Qed.

Lemma descriptor_number_nonneg (line g : string) (n : Z) :
  match_element_descriptor line = Some g -> int g = Ok n -> 0 <= n.
Proof.
  unfold match_element_descriptor.
  destruct (span isspace line) as [ws rest].
  destruct ws; [discriminate|].
  destruct (startswith "Element " rest); [|discriminate].
  pose proof (span_spec isdigit (drop 8 rest)) as Hall.
  destruct (span isdigit (drop 8 rest)) as [ds rest']. cbn [fst] in Hall.
  destruct ds as [|d ds]; [discriminate|].
  destruct (startswith " descriptor:" rest'); [|discriminate].
  intros [= <-]. now apply int_of_digits_nonneg.
Qed.

Lemma append_same_encname (self : Enclosure) (e : Element) :
  elements (append self e) = (elements self ++ [e])%list.
Proof. reflexivity. Qed.

(** One line of the walk: the carried number stays non-negative, and an
    appended element is never a drive slot, has a slot of at least 2 and
    holds an integer word. *)
Lemma parse_line_step (self self' : Enclosure) (st st' : walk) (line : string) :
  number_not_negative st ->
  parse_line self st line = Ok (self', st') ->
  number_not_negative st'
  /\ exists new,
      elements self' = (elements self ++ new)%list
      /\ Forall (fun e => cls e <> ArrayDevSlot /\ 2 <= slot e /\ well_built e
                          /\ exists v, value_raw e = RawInt v) new.
Proof.
  intros Hst H. unfold parse_line in H.
  assert (Hnone : forall s : Enclosure,
             exists new, elements s = (elements s ++ new)%list
                         /\ Forall (fun e => cls e <> ArrayDevSlot /\ 2 <= slot e
                                             /\ well_built e
                                             /\ exists v, value_raw e = RawInt v) new).
  { intros s. exists []. rewrite app_nil_r. split; [reflexivity | constructor]. }
  destruct (match_element_type line).
  { injection H as <- <-. split; [exact I | apply Hnone]. }
  destruct (match_element_descriptor line) as [g|] eqn:Ed.
  { destruct (int g) as [n|] eqn:En; cbn [bind] in H; [|discriminate H].
    injection H as <- <-. split; [|apply Hnone].
    unfold number_not_negative. cbn [element_number].
    eapply descriptor_number_nonneg; eassumption. }
  destruct (match_hex_bytes line) as [g|]; [|injection H as <- <-; split; [exact I|apply Hnone]].
  destruct (decode_bytes self st g) as [[e|]|] eqn:E; cbn [bind] in H; try discriminate H;
    injection H as <- <-; (split; [exact I|]); [|apply Hnone].
  exists [e]. split; [reflexivity|]. constructor; [|constructor].
  unfold decode_bytes in E.
  destruct (ready st) as [[ty n]|] eqn:R; [|discriminate E].
  apply ready_spec in R as (Hty & Hn & Hnz & _ & Hnot).
  destruct (_parse_raw_value (FromStr g)) as [v|]; cbn [bind] in E; [|discriminate E].
  apply enclosure_element_built in E as (Hr & Hs & Hv & Hcls).
  unfold number_not_negative in Hst. rewrite Hn in Hst.
  split; [intros Hc; apply Hcls in Hc; contradiction|].
  split; [lia|]. split; [exact Hr|]. now exists v.
Qed.

Lemma parse_lines_steps (lines : list string) :
  forall (self self' : Enclosure) (st st' : walk),
    number_not_negative st ->
    parse_lines self st lines = Ok (self', st') ->
    exists new,
      elements self' = (elements self ++ new)%list
      /\ Forall (fun e => cls e <> ArrayDevSlot /\ 2 <= slot e /\ well_built e
                          /\ exists v, value_raw e = RawInt v) new.
Proof.
  induction lines as [|l lines IH]; intros self self' st st' Hst H; cbn [parse_lines] in H.
  - injection H as <- <-. exists []. rewrite app_nil_r. split; [reflexivity|constructor].
  - destruct (parse_line self st l) as [[s1 st1]|] eqn:E; cbn [bind fst snd] in H;
      [|discriminate H].
    apply parse_line_step in E as (Hst1 & new1 & Hel1 & Hall1); [|exact Hst].
    apply IH in H as (new2 & Hel2 & Hall2); [|exact Hst1].
    exists (new1 ++ new2)%list. split.
    + rewrite Hel2, Hel1. now rewrite <- app_assoc.
    + apply Forall_app. now split.
Qed.

Lemma strongly_sorted_filter {A} (R : A -> A -> Prop) (f : A -> bool) (l : list A) :
  StronglySorted R l -> StronglySorted R (List.filter f l).
Proof.
  induction 1 as [|a l Hs IH Hall]; cbn [List.filter]; [constructor|].
  destruct (f a); [|exact IH].
  constructor; [exact IH|].
  apply List.Forall_forall. intros x Hx. apply filter_In in Hx as [Hx _].
  rewrite List.Forall_forall in Hall. now apply Hall.
Qed.

Lemma strictly_sorted (l : list Z) :
  StronglySorted (fun u v => Z.leb u v = true) l -> NoDup l -> StronglySorted Z.lt l.
Proof.
  induction 1 as [|a l Hs IH Hall]; intros Hnd; [constructor|].
  apply NoDup_cons in Hnd as [Hnotin Hnd].
  constructor; [now apply IH|].
  apply List.Forall_forall. intros x Hx.
  rewrite List.Forall_forall in Hall. specialize (Hall x Hx). apply Z.leb_le in Hall.
  assert (a <> x) by (intros ->; apply Hnotin; now apply list_elem_of_In).
  lia.
Qed.

(** [sorted(mapping)] lists the keys in strictly ascending order. *)
Lemma sorted_keys_ascending {V} (m : gmap Z V) : StronglySorted Z.lt (sorted_keys m).
Proof.
  unfold sorted_keys. apply strictly_sorted.
  - apply Sorted_StronglySorted.
    + intros x y z Hxy Hyz. apply Z.leb_le in Hxy, Hyz. apply Z.leb_le. lia.
    + apply (py_sorted_Sorted Z.leb). intros x y.
      destruct (Z.leb_spec x y); [now left|right]. apply Z.leb_le. lia.
  - rewrite py_sorted_perm. apply NoDup_fst_map_to_list.
Qed.

Lemma slot_state_well_built is_h mapping raws (e : Element) :
  slot_state_from is_h mapping raws e -> is_drive_slot e /\ well_built e.
Proof.
  intros (disk & st & ident & flt & _ & Hc & Hn & Hrest).
  split; [exact Hc|]. split; [|now rewrite Hc, Hn].
  unfold flags_ready. destruct is_h.
  - destruct Hrest as (-> & _ & -> & ->). split; eexists; reflexivity.
  - destruct Hrest as (v & _ & -> & _ & -> & ->). now split.
Qed.

(** What the reconciler appends: drive slots only, in strictly ascending
    slot order. *)
Lemma map_disks_layout (host : Host) (self : Enclosure) (is_h : bool) r :
  map_disks_to_enclosure_slots host self is_h = Ok r ->
  exists new,
    elements (fst r) = (elements self ++ new)%list
    /\ Forall (fun e => is_drive_slot e /\ well_built e) new
    /\ StronglySorted Z.lt (List.map slot new).
Proof.
  unfold map_disks_to_enclosure_slots. intros H.
  destruct (sysfs_iterdir host _) as [entries|]; cbn [bind] in H; [|discriminate H].
  destruct (min_key _) as [lo|].
  2: { injection H as <-. exists []. rewrite app_nil_r.
       repeat split; constructor. }
  match type of H with
  | bind ?x _ = _ => destruct x as [raws|]; cbn [bind] in H; [|discriminate H]
  end.
  match type of H with
  | bind ?x _ = _ => destruct x as [s'|] eqn:E; cbn [bind] in H; [|discriminate H]
  end.
  injection H as <-. cbn [fst].
  pose proof (add_slots_elements _ _ _ _ _ _ E) as (new & Hel & _ & Hmap).
  pose proof (add_slots_provenance _ _ _ _ _ _ E) as (new' & Hel' & Hall').
  rewrite Hel in Hel'. apply app_inv_head in Hel'. subst new'.
  exists new. split; [exact Hel|]. split.
  - eapply Forall_impl; [exact Hall'|]. intros e. apply slot_state_well_built.
  - rewrite Hmap. apply strongly_sorted_filter, sorted_keys_ascending.
Qed.

Lemma set_model_elements (self : Enclosure) (data : string) :
  elements (_set_model self data) = elements self.
Proof.
  unfold _set_model.
  repeat match goal with
    | |- context [if ?g then _ else _] => destruct g
    end; reflexivity.
Qed.

(** Drive slots first, in ascending slot order, then the elements of the
    walk. *)
Lemma elements_layout (host : Host) (n : Z)
    (data : string * (string * string)) (product : string) (enc : Enclosure) :
  Enclosure_init host n data product = Ok enc ->
  exists drives others,
    elements enc = (drives ++ others)%list
    /\ Forall is_drive_slot drives
    /\ StronglySorted Z.lt (List.map slot drives)
    /\ Forall (fun e => ~ is_drive_slot e /\ 2 <= slot e
                        /\ exists v, value_raw e = RawInt v) others
    /\ Forall well_built (elements enc).
Proof.
  destruct data as [dev [cf es]]. unfold Enclosure_init, _parse. intros H.
  destruct (splitlines cf) as [|first rest]; cbn [bind] in H; [discriminate H|].
  match type of H with
  | bind ?x _ = _ => destruct x as [r|] eqn:E1; cbn [bind] in H; [|discriminate H]
  end.
  match type of H with
  | bind ?x _ = _ => destruct x as [[s2 st2]|] eqn:E2; cbn [bind fst] in H;
                     [|discriminate H]
  end.
  injection H as <-.
  apply map_disks_layout in E1 as (drives & Hel1 & Hall1 & Hsorted).
  rewrite set_model_elements in Hel1. cbn [with_identity elements app] in Hel1.
  apply parse_lines_steps in E2 as (others & Hel2 & Hall2); [|exact I].
  rewrite Hel1 in Hel2.
  exists drives, others. split; [exact Hel2|].
  split; [eapply Forall_impl; [exact Hall1|]; cbv beta; tauto|].
  split; [exact Hsorted|].
  split.
  - eapply Forall_impl; [exact Hall2|]. cbv beta. unfold is_drive_slot. tauto.
  - rewrite Hel2. apply Forall_app. split.
    + eapply Forall_impl; [exact Hall1|]; cbv beta; tauto.
    + eapply Forall_impl; [exact Hall2|]; cbv beta; tauto.
Qed.

Lemma ascending_no_dup (l : list Z) : StronglySorted Z.lt l -> List.NoDup l.
Proof.
  induction 1 as [|a l Hs IH Hall]; constructor; [|exact IH].
  intros Hin. rewrite List.Forall_forall in Hall. specialize (Hall a Hin). lia.
Qed.

(** X9.  The element list of a constructed enclosure: first the drive slots of
    the reconciler, with strictly ascending, hence pairwise different, slot
    numbers; then the elements of the status-block walk, none of which is a
    drive slot and each of which holds an integer word and a slot of at
    least 2. *)
Theorem enclosure_elements_layout (host : Host) (n : Z)
    (data : string * (string * string)) (product : string) (enc : Enclosure) :
  Enclosure_init host n data product = Ok enc ->
  exists drives others,
    elements enc = (drives ++ others)%list
    /\ Forall is_drive_slot drives
    /\ StronglySorted Z.lt (List.map slot drives)
    /\ List.NoDup (List.map slot drives)
    /\ Forall (fun e => ~ is_drive_slot e /\ 2 <= slot e
                        /\ exists v, value_raw e = RawInt v) others.
Proof.
  intros Hinit.
  destruct (elements_layout host n data product enc Hinit)
    as (drives & others & Hel & Hdr & Hsorted & Hot & _).
  exists drives, others.
  split; [exact Hel|]. split; [exact Hdr|]. split; [exact Hsorted|].
  split; [now apply ascending_no_dup | exact Hot].
Qed.

Lemma enclosure_elements_layout_witness :
  exists enc,
    Enclosure_init (host_with two_bays) 0 bays_and_fans "TRUENAS-M40" = Ok enc
    /\ List.map cls (elements enc) = [ArrayDevSlot; ArrayDevSlot; Cooling; Cooling]
    /\ slots_of enc = [1; 2; 2; 3]
    /\ exists drives others,
        elements enc = (drives ++ others)%list
        /\ List.NoDup (List.map slot drives)
        /\ Forall (fun e => ~ is_drive_slot e /\ 2 <= slot e
                            /\ exists v, value_raw e = RawInt v) others.
Proof.
  destruct (Enclosure_init (host_with two_bays) 0 bays_and_fans "TRUENAS-M40")
    as [enc|] eqn:E; [|vm_compute in E; discriminate E].
  exists enc. split; [reflexivity|].
  destruct (enclosure_elements_layout _ _ _ _ _ E)
    as (drives & others & Hel & _ & _ & Hnd & Hot).
  split; [|split].
  3: { exists drives, others. split; [exact Hel|]. split; [exact Hnd | exact Hot]. }
  all: pose proof E as E'; vm_compute in E'; injection E' as <-; reflexivity.
Defined.

Lemma find_in_app {A} (f : A -> bool) (l1 l2 : list A) :
  List.find f (l1 ++ l2)
  = match List.find f l1 with
    | Some x => Some x
    | None => List.find f l2
    end.
Proof.
  induction l1 as [|a l1 IH]; cbn [List.find app]; [reflexivity|].
  now destruct (f a).
Qed.

(** In a list of drive slots followed by elements of other kinds, the first
    element with a slot number is a drive slot if any drive slot has the
    number. *)
Lemma first_with_slot (drives others : list Element) (s : Z) (e : Element) :
  Forall is_drive_slot drives ->
  Forall (fun x => ~ is_drive_slot x) others ->
  List.find (fun x => slot x =? s) (drives ++ others) = Some e ->
  slot e = s
  /\ In e (drives ++ others)
  /\ (is_drive_slot e <->
      exists d, In d (drives ++ others) /\ is_drive_slot d /\ slot d = s).
Proof.
  intros Hdr Hot Hget. rewrite find_in_app in Hget.
  rewrite List.Forall_forall in Hdr, Hot.
  destruct (List.find (fun x => slot x =? s) drives) as [d|] eqn:Ed.
  - injection Hget as <-. apply find_some in Ed as [Hin Hs]. apply Z.eqb_eq in Hs.
    split; [exact Hs|]. split; [apply in_or_app; now left|].
    split; [|intros _; now apply Hdr].
    intros Hd. exists d. split; [apply in_or_app; now left|]. now split.
  - apply find_some in Hget as [Hin Hs]. apply Z.eqb_eq in Hs.
    split; [exact Hs|]. split; [apply in_or_app; now right|].
    pose proof (Hot e Hin) as Hnot. split; [contradiction|].
    intros (d & Hd & Hdrive & Hds). exfalso.
    apply in_app_or in Hd as [Hd|Hd].
    + pose proof (find_none _ _ Ed d Hd) as Hf. cbv beta in Hf.
      apply Z.eqb_neq in Hf. contradiction.
    + exact (Hot d Hd Hdrive).
Qed.

(** X10.  [get_by_slot] on a constructed enclosure returns an element with the
    requested slot, and it is a drive slot whenever the enclosure has a drive
    slot with that number; only when no drive slot has the number can an
    element of another kind (a fan, a sensor) be returned. *)
Theorem get_by_slot_prefers_drive (host : Host) (n : Z)
    (data : string * (string * string)) (product : string) (enc : Enclosure)
    (s : Z) (e : Element) :
  Enclosure_init host n data product = Ok enc ->
  get_by_slot enc s = Some e ->
  slot e = s
  /\ In e (elements enc)
  /\ (is_drive_slot e <-> exists d, In d (elements enc) /\ is_drive_slot d /\ slot d = s).
Proof.
  intros Hinit Hget.
  destruct (elements_layout _ _ _ _ _ Hinit)
    as (drives & others & Hel & Hdr & _ & Hot & _).
  unfold get_by_slot in Hget. rewrite Hel in Hget |- *.
  apply (first_with_slot drives others s e Hdr); [|exact Hget].
  eapply Forall_impl; [exact Hot|]. cbv beta. tauto.
Qed.

Lemma get_by_slot_prefers_drive_witness :
  exists enc drive fan,
    Enclosure_init (host_with two_bays) 0 bays_and_fans "TRUENAS-M40" = Ok enc
    /\ get_by_slot enc 2 = Some drive /\ cls drive = ArrayDevSlot
    /\ get_by_slot enc 3 = Some fan /\ cls fan = Cooling
    /\ slot drive = 2 /\ slot fan = 3.
Proof.
  destruct (Enclosure_init (host_with two_bays) 0 bays_and_fans "TRUENAS-M40")
    as [enc|] eqn:E; [|vm_compute in E; discriminate E].
  destruct (get_by_slot enc 2) as [drive|] eqn:E2;
    [|pose proof E as E'; vm_compute in E'; injection E' as <-; discriminate E2].
  destruct (get_by_slot enc 3) as [fan|] eqn:E3;
    [|pose proof E as E'; vm_compute in E'; injection E' as <-; discriminate E3].
  exists enc, drive, fan. split; [reflexivity|].
  destruct (get_by_slot_prefers_drive _ _ _ _ _ _ _ E E2) as (Hs2 & _ & _).
  destruct (get_by_slot_prefers_drive _ _ _ _ _ _ _ E E3) as (Hs3 & _ & _).
  pose proof E as E'. vm_compute in E'. injection E' as <-.
  vm_compute in E2, E3. injection E2 as <-. injection E3 as <-.
  repeat split; reflexivity.
Defined.

Lemma filter_all {A} (f : A -> bool) (l : list A) :
  (forall x, In x l -> f x = true) -> List.filter f l = l.
Proof.
  induction l as [|a l IH]; intros H; cbn [List.filter]; [reflexivity|].
  rewrite (H a (or_introl eq_refl)). f_equal. apply IH. intros x Hx. apply H. now right.
Qed.

Lemma filter_none {A} (f : A -> bool) (l : list A) :
  (forall x, In x l -> f x = false) -> List.filter f l = [].
Proof.
  induction l as [|a l IH]; intros H; cbn [List.filter]; [reflexivity|].
  rewrite (H a (or_introl eq_refl)). apply IH. intros x Hx. apply H. now right.
Qed.

(** In a list with strictly ascending slots, the first element with a given
    device name is the one with the lowest slot. *)
Lemma find_lowest (dev : string) (drives : list Element) :
  StronglySorted Z.lt (List.map slot drives) ->
  match List.find (fun e => String.eqb (devname e) dev) drives with
  | Some e =>
      In e drives /\ devname e = dev
      /\ forall d, In d drives -> devname d = dev -> slot e <= slot d
  | None => forall d, In d drives -> devname d <> dev
  end.
Proof.
  induction drives as [|a drives IH]; intros Hsorted; cbn [List.find].
  - intros d [].
  - cbn [List.map] in Hsorted. inversion Hsorted as [|? ? Hs' Hlt]; subst.
    destruct (String.eqb_spec (devname a) dev) as [Ea|Ea].
    + split; [now left|]. split; [exact Ea|].
      intros d [<-|Hd] _; [lia|].
      rewrite List.Forall_forall in Hlt.
      assert (slot a < slot d) by (apply Hlt, in_map_iff; now exists d). lia.
    + specialize (IH Hs').
      destruct (List.find _ drives) as [e|].
      * destruct IH as (Hin & Hdev & Hlow).
        split; [now right|]. split; [exact Hdev|].
        intros d [<-|Hd] Hdd; [contradiction|]. now apply Hlow.
      * intros d [<-|Hd]; [exact Ea|]. now apply IH.
Qed.

(** X11.  [find_device_slot] on a constructed enclosure returns a drive slot with
    the requested device name, the one with the lowest slot number; it
    returns nothing exactly when no drive slot has that device name. *)
Theorem find_device_slot_lowest (host : Host) (n : Z)
    (data : string * (string * string)) (product : string) (enc : Enclosure)
    (dev : string) :
  Enclosure_init host n data product = Ok enc ->
  match find_device_slot enc dev with
  | Some e =>
      In e (elements enc) /\ is_drive_slot e /\ devname e = dev
      /\ forall d, In d (elements enc) -> is_drive_slot d -> devname d = dev ->
                   slot e <= slot d
  | None =>
      forall d, In d (elements enc) -> is_drive_slot d -> devname d <> dev
  end.
Proof.
  intros Hinit.
  destruct (elements_layout _ _ _ _ _ Hinit)
    as (drives & others & Hel & Hdr & Hsorted & Hot & Hwb).
  rewrite List.Forall_forall in Hdr, Hot, Hwb.
  assert (Hname : forall e, In e (elements enc) ->
                            String.eqb (name e) "Array Device Slot" = true
                            <-> is_drive_slot e).
  { intros e He. rewrite String.eqb_eq. apply (Hwb e He). }
  assert (Hgroup : List.filter (fun e => String.eqb (name e) "Array Device Slot")
                               (elements enc) = drives).
  { rewrite Hel, List.filter_app, filter_all, filter_none.
    - apply app_nil_r.
    - intros e He. destruct (Hot e He) as (Hnot & _).
      destruct (String.eqb (name e) "Array Device Slot") eqn:En; [|reflexivity].
      exfalso. apply Hnot, Hname; [rewrite Hel; apply in_or_app; now right | exact En].
    - intros e He. apply Hname; [rewrite Hel; apply in_or_app; now left|].
      now apply Hdr. }
  assert (Hdrives : forall d, In d (elements enc) -> is_drive_slot d -> In d drives).
  { intros d Hd Hdrive. rewrite Hel in Hd. apply in_app_or in Hd as [Hd|Hd]; [exact Hd|].
    destruct (Hot d Hd) as (Hnot & _). contradiction. }
  unfold find_device_slot. rewrite Hgroup.
  pose proof (find_lowest dev drives Hsorted) as Hlow.
  destruct (List.find _ drives) as [e|].
  - destruct Hlow as (Hin & Hdev & Hmin).
    split; [rewrite Hel; apply in_or_app; now left|].
    split; [now apply Hdr|]. split; [exact Hdev|].
    intros d Hd Hdrive Hdd. apply Hmin; [now apply Hdrives | exact Hdd].
  - intros d Hd Hdrive. apply Hlow. now apply Hdrives.
Qed.

Lemma find_device_slot_lowest_witness :
  exists enc e,
    Enclosure_init hseries_host 0 ("bsg/0:0:0:0", (vendor_config, "")) "TRUENAS-H10"
    = Ok enc
    /\ find_device_slot enc "sdb" = Some e
    /\ slot e = 9 /\ is_drive_slot e /\ devname e = "sdb".
Proof.
  destruct (Enclosure_init hseries_host 0 ("bsg/0:0:0:0", (vendor_config, ""))
                           "TRUENAS-H10") as [enc|] eqn:E;
    [|vm_compute in E; discriminate E].
  pose proof (find_device_slot_lowest _ _ _ _ _ "sdb" E) as H.
  destruct (find_device_slot enc "sdb") as [e|] eqn:Ef.
  - exists enc, e. split; [reflexivity|]. split; [exact Ef|].
    destruct H as (_ & Hd & Hn & _). split; [|split; assumption].
    pose proof E as E'. vm_compute in E'. injection E' as <-.
    vm_compute in Ef. now injection Ef as <-.
  - exfalso. pose proof E as E'. vm_compute in E'. injection E' as <-.
    vm_compute in Ef. discriminate Ef.
Defined.

(** ** The collection and the query *)

Lemma build_enclosures_spec (host : Host) (product : string)
    (stat : list (Z * (string * (string * string)))) :
  forall encs,
    build_enclosures host stat product = Ok encs ->
    exists built,
      mapM (fun nd => Enclosure_init host (fst nd) (snd nd) product) stat = Ok built
      /\ encs = List.filter
                  (fun enc => negb (existsb (fun s => contains s (encname enc))
                                            (blacklist product))) built.
Proof.
  induction stat as [|[n data] stat IH]; intros encs H; cbn [build_enclosures] in H.
  - injection H as <-. exists []. split; reflexivity.
  - destruct (Enclosure_init host n data product) as [enc|] eqn:E; cbn [bind] in H;
      [|discriminate H].
    destruct (build_enclosures host stat product) as [rest|]; cbn [bind] in H;
      [|discriminate H].
    destruct (IH rest eq_refl) as (built & Hb & ->).
    exists (enc :: built). cbn [mapM fst snd]. rewrite E. cbn [bind]. rewrite Hb.
    cbn [bind List.filter]. split; [reflexivity|].
    injection H as <-. now destruct (existsb _ (blacklist product)).
Qed.

Lemma collection_members (host : Host) (product : string)
    (stat : list (Z * (string * (string * string)))) (encs : list Enclosure) :
  Enclosures_init host stat product = Ok encs ->
  Forall (fun enc =>
            (exists n data, In (n, data) stat
                            /\ Enclosure_init host n data product = Ok enc)
            /\ existsb (fun s => contains s (encname enc)) (blacklist product) = false)
         encs.
Proof.
  intros H. unfold Enclosures_init in H.
  destruct (negb _); [injection H as <-; constructor|].
  apply build_enclosures_spec in H as (built & Hb & ->).
  apply List.Forall_forall. intros enc Henc.
  apply filter_In in Henc as [Hin Hkeep]. apply negb_true_iff in Hkeep.
  split; [|exact Hkeep]. clear Hkeep. revert built Hb Hin.
  induction stat as [|[n data] stat IH]; intros built Hb Hin; cbn [mapM] in Hb.
  - injection Hb as <-. destruct Hin.
  - cbn [fst snd] in Hb.
    destruct (Enclosure_init host n data product) as [e0|] eqn:E; cbn [bind] in Hb;
      [|discriminate Hb].
    destruct (mapM _ stat) as [rest|]; cbn [bind] in Hb; [|discriminate Hb].
    injection Hb as <-. destruct Hin as [<-|Hin].
    + exists n, data. split; [now left | exact E].
    + destruct (IH rest eq_refl Hin) as (n' & d' & Hs & He).
      exists n', d'. split; [now right | exact He].
Qed.

(** X12.  The collection holds only constructed enclosures that the product line
    does not exclude: a name containing "VirtualSES" is kept only on
    TRUENAS-H products, a name containing "AHCI SGPIO Enclosure 2.00" only
    on "-MINI-" products and the three R20 variants.  A product name outside
    TRUENAS-/FREENAS- gives the empty collection without looking at any
    device. *)
Theorem collection_blacklist (host : Host) (product : string)
    (stat : list (Z * (string * (string * string)))) :
  (startswith "TRUENAS-" product = false -> startswith "FREENAS-" product = false ->
   Enclosures_init host stat product = Ok [])
  /\ forall encs,
      Enclosures_init host stat product = Ok encs ->
      Forall (fun enc =>
                (contains "VirtualSES" (encname enc) = true ->
                 startswith "TRUENAS-H" product = true)
                /\ (contains "AHCI SGPIO Enclosure 2.00" (encname enc) = true ->
                    contains "-MINI-" product = true \/ In product R20_VARIANT)) encs.
Proof.
  split.
  - intros H1 H2. unfold Enclosures_init. now rewrite H1, H2.
  - intros encs H. apply collection_members in H.
    eapply Forall_impl; [exact H|]. intros enc [_ Hkeep].
    unfold blacklist in Hkeep. split.
    + intros Hv. destruct (startswith "TRUENAS-H" product); [reflexivity|].
      cbn [app existsb] in Hkeep. rewrite Hv in Hkeep. discriminate Hkeep.
    + intros Ha.
      destruct (contains "-MINI-" product) eqn:Em; [now left|]. right.
      destruct (str_in product R20_VARIANT) eqn:Er.
      * unfold str_in in Er. apply existsb_exists in Er as (x & Hx & Heq).
        apply String.eqb_eq in Heq. now subst x.
      * exfalso. cbn [negb andb] in Hkeep.
        rewrite existsb_app in Hkeep. apply orb_false_iff in Hkeep as [_ Hk].
        cbn [existsb] in Hk. rewrite Ha in Hk. discriminate Hk.
Qed.

Lemma collection_blacklist_witness :
  exists encs,
    Enclosures_init bare_host virtual_and_vendor "TRUENAS-M40" = Ok encs
    /\ List.map encname encs = ["Vendor Model"]
    /\ Enclosures_init hseries_host virtual_and_vendor "APPLIANCE-1" = Ok [].
Proof.
  destruct (Enclosures_init bare_host virtual_and_vendor "TRUENAS-M40") as [encs|] eqn:E;
    [|vm_compute in E; discriminate E].
  exists encs. split; [reflexivity|].
  destruct (collection_blacklist hseries_host "APPLIANCE-1" virtual_and_vendor) as [Hout _].
  split; [|apply Hout; reflexivity].
  vm_compute in E. now injection E as <-.
Defined.





Lemma numbers_of_positions (l : list EnclosureDict) :
  (forall (i : nat) (e : EnclosureDict), l !! i = Some e -> d_number e = Some (Z.of_nat i)) ->
  List.map d_number l = first_numbers (List.length l).
Proof.
  intros H. unfold first_numbers. apply list_eq. intros i.
  change (List.map ?f ?x) with (f <$> x). rewrite !list_lookup_fmap.
  destruct (l !! i) as [e|] eqn:E; cbn [fmap option_fmap option_map].
  - rewrite (H i e E). 
    assert (i < List.length l)%nat by (apply lookup_lt_is_Some; now exists e).
    rewrite lookup_seq_lt by assumption. reflexivity.
  - apply lookup_ge_None in E. rewrite lookup_seq_ge by assumption. reflexivity.
Qed.

Lemma no_dup_map_inj {A B} (f : A -> B) (l : list A) :
  (forall x y, f x = f y -> x = y) -> List.NoDup l -> List.NoDup (List.map f l).
Proof.
  intros Hinj. induction 1 as [|a l Hnotin Hnd IH]; cbn [List.map]; constructor.
  - intros Hin. apply in_map_iff in Hin as (x & Hx & Hin).
    apply Hinj in Hx. now subst x.
  - exact IH.
Qed.

Lemma first_numbers_no_dup (n : nat) : List.NoDup (first_numbers n).
Proof.
  unfold first_numbers. apply no_dup_map_inj; [|apply List.seq_NoDup].
  intros x y [= H]. lia.
Qed.

(** X14.  Without filters the [number] fields of the result are the numbers
    [0 .. n-1], each exactly once: a number names at most one enclosure of
    the result, whatever the final order is. *)
Theorem query_numbers_distinct (host : Host)
    (stat : list (Z * (string * (string * string)))) (product : string)
    (nvme : list EnclosureDict) (map_enc : list EnclosureDict -> list EnclosureDict)
    (rows : list (string * string))
    (filter_list : list EnclosureDict -> list query_filter -> list EnclosureDict)
    (result : list EnclosureDict) :
  (forall l, filter_list l [] = l) ->
  query host true stat product nvme map_enc rows filter_list [] = Ok result ->
  Permutation (List.map d_number result) (first_numbers (List.length result))
  /\ List.NoDup (List.map d_number result).
Proof.
  intros Hfl Hq. unfold query, __get_enclosures in Hq. cbn [negb] in Hq.
  destruct (Enclosures_init host stat product) as [encs|]; cbn [bind] in Hq;
    [|discriminate Hq].
  destruct (mapM enclosure_dict encs) as [dicts|]; cbn [bind] in Hq; [|discriminate Hq].
  rewrite Hfl in Hq. injection Hq as <-.
  set (before := numbered nvme map_enc rows (fold_left place dicts [])).
  assert (Hperm : Permutation (List.map d_number (py_sorted enclosure_le before))
                              (first_numbers (List.length (py_sorted enclosure_le before)))).
  { rewrite (Permutation_length (py_sorted_perm enclosure_le before)).
    rewrite <- (numbers_of_positions before).
    - apply Permutation_map, py_sorted_perm.
    - intros i e. apply numbered_lookup. }
  split; [exact Hperm|].
  eapply Permutation_NoDup; [symmetry; exact Hperm | apply first_numbers_no_dup].
Qed.

Lemma query_numbers_distinct_witness :
  exists result,
    query bare_host true controller_b_then_marked_a "TRUENAS-X10" [] (fun l => l) []
          plain_filter_list [] = Ok result
    /\ List.map d_number result = [Some 1; Some 0]
    /\ List.NoDup (List.map d_number result).
Proof.
  destruct (query bare_host true controller_b_then_marked_a "TRUENAS-X10" []
                  (fun l => l) [] plain_filter_list [])
    as [result|e] eqn:E; [|vm_compute in E; discriminate E].
  exists result. split; [reflexivity|].
  destruct (query_numbers_distinct
              bare_host controller_b_then_marked_a "TRUENAS-X10" [] (fun l => l) []
              plain_filter_list result plain_filter_list_nil E) as [_ Hnd].
  split; [|exact Hnd].
  vm_compute in E. now injection E as <-.
Defined.

Section Stable.
Context {A : Type} (le : A -> A -> bool) (P : A -> bool).
Hypothesis P_le : forall x y, P x = true -> P y = true -> le x y = true.

Lemma insert_sorted_stable (x : A) (l : list A) :
  List.filter P (insert_sorted le x l) = List.filter P (x :: l).
Proof.
  induction l as [|y l IH]; cbn [insert_sorted]; [reflexivity|].
  destruct (le x y) eqn:E; [reflexivity|].
  cbn [List.filter]. rewrite IH. cbn [List.filter].
  destruct (P x) eqn:Ex, (P y) eqn:Ey; try reflexivity.
  rewrite (P_le x y Ex Ey) in E. discriminate E.
Qed.

Lemma py_sorted_stable (l : list A) :
  List.filter P (py_sorted le l) = List.filter P l.
Proof.
  induction l as [|x l IH]; [reflexivity|].
  change (py_sorted le (x :: l)) with (insert_sorted le x (py_sorted le l)).
  rewrite insert_sorted_stable. cbn [List.filter]. now rewrite IH.
Qed.
End Stable.

Lemma leb_refl (s : string) : String.leb s s = true.
Proof.
  destruct (String.leb_total s s) as [H|H]; exact H.
Qed.

(** X15.  The final sort is stable: enclosures with the same controller flag and
    the same id come out in the order they had before sorting. *)
Theorem query_sort_stable (host : Host)
    (stat : list (Z * (string * (string * string)))) (product : string)
    (nvme : list EnclosureDict) (map_enc : list EnclosureDict -> list EnclosureDict)
    (rows : list (string * string))
    (filter_list : list EnclosureDict -> list query_filter -> list EnclosureDict)
    (result : list EnclosureDict) :
  (forall l, filter_list l [] = l) ->
  query host true stat product nvme map_enc rows filter_list [] = Ok result ->
  exists before_sort,
    Permutation result before_sort
    /\ List.map d_number before_sort = first_numbers (List.length before_sort)
    /\ forall k, List.filter (has_key k) result = List.filter (has_key k) before_sort.
Proof.
  intros Hfl Hq. unfold query, __get_enclosures in Hq. cbn [negb] in Hq.
  destruct (Enclosures_init host stat product) as [encs|]; cbn [bind] in Hq;
    [|discriminate Hq].
  destruct (mapM enclosure_dict encs) as [dicts|]; cbn [bind] in Hq; [|discriminate Hq].
  rewrite Hfl in Hq. injection Hq as <-.
  exists (numbered nvme map_enc rows (fold_left place dicts [])).
  split; [apply py_sorted_perm|]. split.
  - apply numbers_of_positions. intros i e. apply numbered_lookup.
  - intros k. apply py_sorted_stable. intros x y Hx Hy.
    unfold has_key in Hx, Hy.
    apply andb_true_iff in Hx as [Hx1 Hx2]. apply andb_true_iff in Hy as [Hy1 Hy2].
    apply Z.eqb_eq in Hx1, Hy1. apply String.eqb_eq in Hx2, Hy2.
    unfold enclosure_le, key_le. rewrite Hx1, Hy1, Hx2, Hy2.
    rewrite Z.eqb_refl, leb_refl. apply orb_true_r.
Qed.

Lemma query_sort_stable_witness :
  exists result before_sort,
    query bare_host true controller_b_then_marked_a "TRUENAS-X10" [] (fun l => l) []
          plain_filter_list [] = Ok result
    /\ List.map d_id before_sort = ["a"; "b"]
    /\ List.map d_id result = ["b"; "a"]
    /\ forall k, List.filter (has_key k) result = List.filter (has_key k) before_sort.
Proof.
  destruct (query bare_host true controller_b_then_marked_a "TRUENAS-X10" []
                  (fun l => l) [] plain_filter_list [])
    as [result|e] eqn:E; [|vm_compute in E; discriminate E].
  destruct (query_sort_stable
              bare_host controller_b_then_marked_a "TRUENAS-X10" [] (fun l => l) []
              plain_filter_list result plain_filter_list_nil E)
    as (before & Hperm & Hnum & Hstable).
  exists result, before. split; [reflexivity|].
  pose proof E as E'. vm_compute in E'. injection E' as <-.
  split; [|split; [reflexivity | exact Hstable]].
  (* two enclosures, numbered 0 and 1 in [before]: "a" got 0 *)
  apply Permutation_length in Hperm as Hlen. cbn [List.length] in Hlen.
  destruct before as [|x [|y [|z before]]]; try discriminate Hlen.
  vm_compute in Hnum. injection Hnum as Hx Hy.
  assert (Hin : forall e, In e [x; y] -> d_number e = Some 0 -> d_id e = "a").
  { intros e He. apply (Permutation_in _ (Permutation_sym Hperm)) in He.
    destruct He as [<-|[<-|[]]]; [discriminate | reflexivity]. }
  assert (Hin' : forall e, In e [x; y] -> d_number e = Some 1 -> d_id e = "b").
  { intros e He. apply (Permutation_in _ (Permutation_sym Hperm)) in He.
    destruct He as [<-|[<-|[]]]; [reflexivity | discriminate]. }
  cbn [List.map]. rewrite (Hin x), (Hin' y); try assumption; try reflexivity.
  - right. now left.
  - now left.
Defined.

Lemma fold_rows_lookup (rows : list (string * string)) :
  forall (acc : gmap string string) (k l : string),
    fold_left (fun m row => <[fst row := snd row]> m) rows acc !! k = Some l ->
    acc !! k = Some l \/ In (k, l) rows.
Proof.
  induction rows as [|[k0 l0] rows IH]; intros acc k l H; cbn [fold_left fst snd] in H.
  - now left.
  - apply IH in H as [H|H]; [|right; now right].
    destruct (decide (k0 = k)) as [->|Hne].
    + rewrite lookup_insert_eq in H. injection H as <-. right. now left.
    + rewrite lookup_insert_ne in H by assumption. now left.
Qed.

Lemma fold_rows_other (rows : list (string * string)) :
  forall (acc : gmap string string) (k : string),
    ~ In k (List.map fst rows) ->
    fold_left (fun m row => <[fst row := snd row]> m) rows acc !! k = acc !! k.
Proof.
  induction rows as [|[k0 l0] rows IH]; intros acc k H; cbn [fold_left fst snd];
    [reflexivity|].
  cbn [List.map fst] in H.
  rewrite IH by (intros Hin; apply H; now right).
  apply lookup_insert_ne. intros ->. apply H. now left.
Qed.

Lemma fold_rows_unique (rows : list (string * string)) :
  forall (acc : gmap string string) (k l : string),
    List.NoDup (List.map fst rows) -> In (k, l) rows ->
    fold_left (fun m row => <[fst row := snd row]> m) rows acc !! k = Some l.
Proof.
  induction rows as [|[k0 l0] rows IH]; intros acc k l Hnd Hin; [destruct Hin|].
  cbn [List.map fst] in Hnd. apply List.NoDup_cons_iff in Hnd as [Hnotin Hnd].
  cbn [fold_left fst snd]. destruct Hin as [[= -> ->]|Hin].
  - rewrite fold_rows_other by assumption. apply lookup_insert_eq.
  - now apply IH.
Qed.

Lemma numbered_label nvme map_enc (rows : list (string * string)) discovered
    (e : EnclosureDict) :
  In e (numbered nvme map_enc rows discovered) -> d_label e = Some (label_of rows e).
Proof.
  unfold numbered. intros H. apply in_map_iff in H as (x & <- & _). reflexivity.
Qed.

(** X16.  Every enclosure of the result carries a label: the label stored for its
    id when that is not empty, otherwise its name.  With one row per id (the
    column is unique) a stored non-empty label is always the one shown, and
    an id without a row shows the name. *)
Theorem query_labels (host : Host)
    (stat : list (Z * (string * (string * string)))) (product : string)
    (nvme : list EnclosureDict) (map_enc : list EnclosureDict -> list EnclosureDict)
    (rows : list (string * string))
    (filter_list : list EnclosureDict -> list query_filter -> list EnclosureDict)
    (result : list EnclosureDict) :
  (forall l, filter_list l [] = l) ->
  query host true stat product nvme map_enc rows filter_list [] = Ok result ->
  Forall (fun e =>
            exists l,
              d_label e = Some l
              /\ (l = d_name e \/ (l <> "" /\ In (d_id e, l) rows))
              /\ (~ In (d_id e) (List.map fst rows) -> l = d_name e)
              /\ (forall stored, List.NoDup (List.map fst rows) ->
                                 In (d_id e, stored) rows -> stored <> "" -> l = stored))
         result.
Proof.
  intros Hfl Hq. unfold query, __get_enclosures in Hq. cbn [negb] in Hq.
  destruct (Enclosures_init host stat product) as [encs|]; cbn [bind] in Hq;
    [|discriminate Hq].
  destruct (mapM enclosure_dict encs) as [dicts|]; cbn [bind] in Hq; [|discriminate Hq].
  rewrite Hfl in Hq. injection Hq as <-.
  apply List.Forall_forall. intros e He.
  apply (Permutation_in _ (py_sorted_perm enclosure_le _)) in He.
  apply numbered_label in He.
  exists (label_of rows e). split; [exact He|].
  unfold label_of, labels.
  split; [|split].
  - destruct (fold_left _ rows ∅ !! d_id e) as [[|c l]|] eqn:El; try now left.
    right. split; [discriminate|].
    apply fold_rows_lookup in El as [El|El]; [|exact El].
    rewrite lookup_empty in El. discriminate El.
  - intros Hnot. rewrite fold_rows_other by assumption. now rewrite lookup_empty.
  - intros stored Hnd Hin Hne.
    rewrite (fold_rows_unique rows ∅ (d_id e) stored Hnd Hin).
    destruct stored; [contradiction | reflexivity].
Qed.

Lemma query_labels_witness :
  exists result,
    query bare_host true controller_b_then_marked_a "TRUENAS-X10" [] (fun l => l)
          example_rows plain_filter_list [] = Ok result
    /\ List.map d_id result = ["b"; "a"]
    /\ List.map d_label result = [Some "CELESTIC P3215-O 0430"; Some "Shelf A"]
    /\ Forall (fun e => exists l, d_label e = Some l) result.
Proof.
  destruct (query bare_host true controller_b_then_marked_a "TRUENAS-X10" []
                  (fun l => l) example_rows plain_filter_list [])
    as [result|e] eqn:E; [|vm_compute in E; discriminate E].
  exists result. split; [reflexivity|].
  pose proof (query_labels
                bare_host controller_b_then_marked_a "TRUENAS-X10" [] (fun l => l)
                example_rows plain_filter_list result plain_filter_list_nil E) as Hall.
  split; [|split].
  3: { eapply Forall_impl; [exact Hall|]. intros e (l & Hl & _). now exists l. }
  all: vm_compute in E; injection E as <-; reflexivity.
Defined.

(** ** Slot control: the routes around the SCSI call, and failures *)

(** X17.  The dedicated NVMe ids make one platform call with the slot as given
    and the status as given; its exception, if any, leaves the method
    unchanged.  [enclosure.query] is not consulted: the result is the same
    whatever it would answer. *)
Theorem nvme_route_single_call
    (enclosure_query : list query_filter -> result (list EnclosureDict))
    (backend : call -> option exn) (encl_id : string) (s : Z) (st : slot_status) :
  is_nvme_id encl_id = true ->
  set_slot_status enclosure_query backend encl_id s st
  = ([nvme_call encl_id s st],
     match backend (nvme_call encl_id s st) with
     | Some e => Raise e
     | None => Ok tt
     end)
  /\ (encl_id = "r30_nvme_enclosure" \/ encl_id = "f60_nvme_enclosure"
      \/ encl_id = "f100_nvme_enclosure" \/ encl_id = "f130_nvme_enclosure").
Proof.
  intros H. unfold is_nvme_id in H. unfold set_slot_status, nvme_call, one_call.
  destruct (String.eqb_spec encl_id "r30_nvme_enclosure") as [->|Hne].
  - split; [reflexivity | now left].
  - cbn [orb] in H. rewrite H. split; [reflexivity|]. right.
    unfold str_in in H. cbn [existsb] in H.
    repeat (apply orb_true_iff in H as [H|H];
            [apply String.eqb_eq in H; subst; tauto|]).
    discriminate H.
Qed.

Lemma nvme_route_single_call_witness :
  set_slot_status query_nothing always_ok "f60_nvme_enclosure" 3 IDENTIFY
  = ([FSeriesSetSlotStatus 3 IDENTIFY], Ok tt).
Proof.
  apply (nvme_route_single_call query_nothing always_ok "f60_nvme_enclosure" 3 IDENTIFY).
  reflexivity.
Defined.





Lemma issue_stops (backend : call -> option exn) (pre : list call) (c : call)
    (post : list call) (e : exn) :
  Forall (fun x => backend x = None) pre -> backend c = Some e ->
  issue backend (pre ++ c :: post) = ((pre ++ [c])%list, Some e).
Proof.
  induction 1 as [|x pre Hx _ IH]; intros Hc; cbn [app issue].
  - now rewrite Hc.
  - rewrite Hx, (IH Hc). reflexivity.
Qed.

(** X19.  On the SCSI route the actions are issued in order and the first one that
    fails ends the method: the actions after it are not issued (a CLEAR
    whose "clear=ident" fails leaves the fault indicator untouched).  An
    [OSError] is reported as a [CallError] that names the status, the slot
    and the enclosure and carries no errno; any other exception leaves
    unchanged. *)
Theorem control_failure_stops
    (enclosure_query : list query_filter -> result (list EnclosureDict))
    (backend : call -> option exn)
    (encl_id : string) (s : Z) (st : slot_status)
    (info : EnclosureDict) (others : list EnclosureDict) (bsg_dev : string) (o : Z)
    (done : list string) (failing : string) (skipped : list string) (e : exn) :
  is_nvme_id encl_id = false ->
  enclosure_query [IdEq encl_id] = Ok (info :: others) ->
  d_model info <> "H Series" ->
  _get_orig_enclosure_and_disk encl_id s info = Ok (Some (bsg_dev, o)) ->
  control_actions st = (done ++ failing :: skipped)%list ->
  (forall a, In a done ->
             backend (SetControl ("/dev/" ++ bsg_dev) (str_of_int (o - 1)) a) = None) ->
  backend (SetControl ("/dev/" ++ bsg_dev) (str_of_int (o - 1)) failing) = Some e ->
  set_slot_status enclosure_query backend encl_id s st
  = (List.map (SetControl ("/dev/" ++ bsg_dev) (str_of_int (o - 1)))
              (done ++ [failing]),
     Raise (if is_OSError e
            then CallError ("Failed to " ++ status_str st ++ " slot " ++ repr_int s
                              ++ " on enclosure " ++ repr_str (d_id info)) None
            else e)).
Proof.
  intros Hnv Hq Hm Ho Hact Hdone Hfail.
  apply not_nvme in Hnv as [Hr30 Hf].
  unfold set_slot_status. rewrite Hr30, Hf, Hq.
  destruct (String.eqb_spec (d_model info) "H Series") as [E|_]; [contradiction|].
  rewrite Ho.
  assert (Ha : actions_of st = control_actions st) by (destruct st; reflexivity).
  rewrite Ha, Hact, map_app. cbn [List.map].
  rewrite (issue_stops backend _ _ _ e).
  - rewrite map_app. cbn [List.map]. now destruct (is_OSError e).
  - apply List.Forall_forall. intros c Hc. apply in_map_iff in Hc as (a & <- & Hin).
    now apply Hdone.
  - exact Hfail.
Qed.

Lemma control_failure_stops_witness :
  set_slot_status (query_of plain_enclosure) clear_fault_fails "5b0bd6d1a30714bf" 5 CLEAR
  = ([ SetControl "/dev/bsg/0:0:0:0" "4" "clear=ident";
       SetControl "/dev/bsg/0:0:0:0" "4" "clear=fault" ],
     Raise (CallError "Failed to CLEAR slot 5 on enclosure '5b0bd6d1a30714bf'" None)).
Proof.
  apply (control_failure_stops (query_of plain_enclosure) clear_fault_fails
           "5b0bd6d1a30714bf" 5 CLEAR plain_enclosure [] "bsg/0:0:0:0" 5
           ["clear=ident"] "clear=fault" [] OSError); try reflexivity.
  - discriminate.
  - intros a [<-|[]]. reflexivity.
Defined.

(** ** Slot lookup and disk synchronisation *)

Lemma first_slot_group_found (groups : list GroupDict) (r : option GroupDict) :
  first_slot_group groups = Ok r -> List.find is_slot_group groups = r.
Proof.
  induction groups as [|g groups IH]; cbn [first_slot_group List.find]; intros H.
  - now injection H as <-.
  - unfold is_slot_group at 1.
    destruct (g_name g) as [n|]; cbn [pop bind] in H; [|discriminate H].
    destruct (String.eqb n "Array Device Slot"); [now injection H as <-|].
    now apply IH.
Qed.

Lemma first_slot_group_named (groups : list GroupDict) :
  Forall (fun g => is_Some (g_name g)) groups ->
  first_slot_group groups = Ok (List.find is_slot_group groups).
Proof.
  induction 1 as [|g groups [n Hn] _ IH]; cbn [first_slot_group List.find];
    [reflexivity|].
  unfold is_slot_group at 1. rewrite Hn. cbn [pop bind].
  now destruct (String.eqb n "Array Device Slot").
Qed.

Lemma first_matching_some (f : ElementDict -> result bool) (l : list ElementDict)
    (x : ElementDict) :
  first_matching f l = Ok (Some x) ->
  exists before after,
    l = (before ++ x :: after)%list /\ f x = Ok true
    /\ Forall (fun y => f y = Ok false) before.
Proof.
  induction l as [|y l IH]; cbn [first_matching]; intros H; [discriminate H|].
  destruct (f y) as [[]|] eqn:Ey; cbn [bind] in H; [| |discriminate H].
  - injection H as <-. exists [], l. split; [reflexivity|]. split; [exact Ey|constructor].
  - destruct (IH H) as (before & after & -> & Hx & Hall).
    exists (y :: before), after. split; [reflexivity|]. split; [exact Hx|].
    now constructor.
Qed.

Lemma first_matching_none (f : ElementDict -> result bool) (l : list ElementDict) :
  first_matching f l = Ok None -> Forall (fun y => f y = Ok false) l.
Proof.
  induction l as [|y l IH]; cbn [first_matching]; intros H; [constructor|].
  destruct (f y) as [[]|] eqn:Ey; cbn [bind] in H; try discriminate H.
  constructor; [exact Ey | now apply IH].
Qed.

Lemma scan_first_match (slot_filter : ElementDict -> result bool)
    (info : list EnclosureDict) (enc : EnclosureDict) (el : ElementDict) :
  scan_enclosures slot_filter info = Ok (enc, el) ->
  exists pre post g before after,
    info = (pre ++ enc :: post)%list
    /\ slot_group enc = Some g
    /\ g_elements g = (before ++ el :: after)%list
    /\ slot_filter el = Ok true
    /\ Forall (fun x => slot_filter x = Ok false) before
    /\ Forall (no_match slot_filter) pre.
Proof.
  induction info as [|e info IH]; cbn [scan_enclosures]; intros H; [discriminate H|].
  destruct (first_slot_group (d_elements e)) as [g|] eqn:Eg; cbn [bind] in H;
    [|discriminate H].
  apply first_slot_group_found in Eg.
  assert (Hskip : no_match slot_filter e ->
                  scan_enclosures slot_filter info = Ok (enc, el) ->
                  exists pre post g before after,
                    (e :: info = pre ++ enc :: post)%list
                    /\ slot_group enc = Some g
                    /\ g_elements g = (before ++ el :: after)%list
                    /\ slot_filter el = Ok true
                    /\ Forall (fun x => slot_filter x = Ok false) before
                    /\ Forall (no_match slot_filter) pre).
  { intros Hno Hrest.
    destruct (IH Hrest) as (pre & post & g' & before & after & -> & Hg & He & Hf & Hb & Hp).
    exists (e :: pre), post, g', before, after.
    split; [reflexivity|]. split; [exact Hg|]. split; [exact He|]. split; [exact Hf|].
    split; [exact Hb|]. now constructor. }
  destruct g as [grp|].
  - destruct (first_matching slot_filter (g_elements grp)) as [[x|]|] eqn:Em;
      cbn [bind] in H; [| |discriminate H].
    + injection H as <- <-.
      apply first_matching_some in Em as (before & after & He & Hf & Hb).
      exists [], info, grp, before, after.
      split; [reflexivity|]. split; [exact Eg|]. split; [exact He|]. split; [exact Hf|].
      split; [exact Hb | constructor].
    + apply Hskip; [|exact H]. intros g' Hg'. unfold slot_group in Hg'.
      rewrite Eg in Hg'. injection Hg' as <-. now apply first_matching_none.
  - apply Hskip; [|exact H]. intros g' Hg'. unfold slot_group in Hg'.
    rewrite Eg in Hg'. discriminate Hg'.
Qed.

(** X20.  [_get_slot] returns the first match in list order: the enclosure is the
    first one whose slot group (the first group named "Array Device Slot";
    later groups of that name are not read) has an element that passes the
    filter, and the element is the first such element of that group.  The
    list is the one passed in, or the answer of [enclosure.query] when none
    is passed. *)
Theorem get_slot_first_match
    (enclosure_query : list query_filter -> result (list EnclosureDict))
    (slot_filter : ElementDict -> result bool)
    (enclosure_query_arg : option (list query_filter))
    (enclosure_info : option (list EnclosureDict))
    (info : list EnclosureDict) (enc : EnclosureDict) (el : ElementDict) :
  enclosure_info = Some info
  \/ (enclosure_info = None
      /\ enclosure_query (default [] enclosure_query_arg) = Ok info) ->
  _get_slot enclosure_query slot_filter enclosure_query_arg enclosure_info
  = Ok (enc, el) ->
  exists pre post g before after,
    info = (pre ++ enc :: post)%list
    /\ slot_group enc = Some g
    /\ g_elements g = (before ++ el :: after)%list
    /\ slot_filter el = Ok true
    /\ Forall (fun x => slot_filter x = Ok false) before
    /\ Forall (no_match slot_filter) pre.
Proof.
  intros Hinfo H. unfold _get_slot in H.
  destruct Hinfo as [->|[-> Hq]]; [|rewrite Hq in H]; cbn [bind] in H;
    now apply scan_first_match.
Qed.

Lemma get_slot_first_match_witness :
  exists enc el,
    _get_slot query_nothing (device_is "sda") None (Some two_shelves) = Ok (enc, el)
    /\ d_id enc = "a" /\ d_slot el = 2
    /\ exists pre post, two_shelves = (pre ++ enc :: post)%list.
Proof.
  destruct (_get_slot query_nothing (device_is "sda") None (Some two_shelves))
    as [[enc el]|] eqn:E; [|vm_compute in E; discriminate E].
  exists enc, el. split; [reflexivity|].
  destruct (get_slot_first_match query_nothing (device_is "sda") None (Some two_shelves)
              two_shelves enc el (or_introl eq_refl) E)
    as (pre & post & _ & _ & _ & Hinfo & _).
  vm_compute in E. injection E as <- <-.
  split; [reflexivity|]. split; [reflexivity|]. exists pre, post. exact Hinfo.
Defined.

Lemma first_matching_device (disk : string) (l : list ElementDict) :
  Forall (fun x => is_Some (d_device x)) l ->
  first_matching (device_is disk) l
  = Ok (List.find (fun x => bool_decide (d_device x = Some disk)) l).
Proof.
  induction 1 as [|x l [d Hd] _ IH]; cbn [first_matching List.find]; [reflexivity|].
  unfold device_is at 1. rewrite Hd. cbn [pop bind].
  destruct (String.eqb_spec d disk) as [->|Hne].
  - now rewrite bool_decide_eq_true_2.
  - rewrite bool_decide_eq_false_2 by congruence. exact IH.
Qed.

Lemma scan_head (disk : string) (e : EnclosureDict) (info : list EnclosureDict) :
  lookup_ready e ->
  (device_listed disk e ->
   exists el, scan_enclosures (device_is disk) (e :: info) = Ok (e, el)
              /\ d_device el = Some disk)
  /\ (~ device_listed disk e ->
      scan_enclosures (device_is disk) (e :: info) = scan_enclosures (device_is disk) info).
Proof.
  intros [Hnamed Hdev]. cbn [scan_enclosures].
  rewrite (first_slot_group_named _ Hnamed). cbn [bind]. fold (slot_group e).
  destruct (slot_group e) as [g|] eqn:Eg.
  - rewrite (first_matching_device disk _ (Hdev g eq_refl)). cbn [bind].
    destruct (List.find _ (g_elements g)) as [x|] eqn:Ef.
    + apply find_some in Ef as [Hin Hx]. apply bool_decide_eq_true_1 in Hx.
      split.
      * intros _. exists x. now split.
      * intros Hnot. exfalso. apply Hnot. exists g, x. now split.
    + split; [|reflexivity].
      intros (g' & x & Hg' & Hin & Hx). rewrite Eg in Hg'. injection Hg' as <-.
      pose proof (find_none _ _ Ef x Hin) as Hf. cbv beta in Hf.
      apply bool_decide_eq_false_1 in Hf. contradiction.
  - split; [|reflexivity]. intros (g' & x & Hg' & _). congruence.
Qed.

Lemma device_listed_dec (disk : string) (e : EnclosureDict) :
  device_listed disk e \/ ~ device_listed disk e.
Proof.
  unfold device_listed.
  destruct (slot_group e) as [g|]; [|right; intros (g & x & H & _); discriminate H].
  destruct (List.find (fun x => bool_decide (d_device x = Some disk)) (g_elements g))
    as [x|] eqn:Ef.
  - apply find_some in Ef as [Hin Hx]. apply bool_decide_eq_true_1 in Hx.
    left. exists g, x. now split.
  - right. intros (g' & x & Hg' & Hin & Hx). injection Hg' as <-.
    pose proof (find_none _ _ Ef x Hin) as Hf. cbv beta in Hf.
    apply bool_decide_eq_false_1 in Hf. contradiction.
Qed.

(** X21.  On dictionaries where every group is named and every drive slot has a
    "Device" entry, the lookup of a disk by device name finds it whenever
    some enclosure lists it in its slot group, and raises [MatchNotFound]
    when none does; no other outcome exists. *)
Theorem disk_lookup_complete
    (enclosure_query : list query_filter -> result (list EnclosureDict))
    (disk : string) (info : list EnclosureDict) :
  Forall lookup_ready info ->
  (Exists (device_listed disk) info ->
   exists enc el,
     _get_slot_for_disk enclosure_query disk (Some info) = Ok (enc, el)
     /\ In enc info /\ device_listed disk enc /\ d_device el = Some disk)
  /\ (Forall (fun e => ~ device_listed disk e) info ->
      _get_slot_for_disk enclosure_query disk (Some info) = Raise MatchNotFound).
Proof.
  intros Hready. unfold _get_slot_for_disk, _get_slot. cbn [bind].
  induction Hready as [|e info He _ IH].
  - split; [intros H; inversion H | reflexivity].
  - destruct (scan_head disk e info He) as [Hhit Hmiss].
    destruct (device_listed_dec disk e) as [Hl|Hn].
    + split.
      * intros _. destruct (Hhit Hl) as (el & Hscan & Hd).
        exists e, el. split; [exact Hscan|]. split; [now left|]. now split.
      * intros Hall. inversion Hall; subst. contradiction.
    + rewrite (Hmiss Hn). destruct IH as [IH1 IH2]. split.
      * intros Hex. inversion Hex; subst; [contradiction|].
        destruct (IH1 H0) as (enc & el & Hscan & Hin & Hrest).
        exists enc, el. split; [exact Hscan|]. split; [now right | exact Hrest].
      * intros Hall. inversion Hall; subst. now apply IH2.
Qed.

Lemma disk_lookup_complete_witness :
  (exists enc el,
      _get_slot_for_disk query_nothing "sdc" (Some two_shelves) = Ok (enc, el)
      /\ d_id enc = "b" /\ d_slot el = 1)
  /\ _get_slot_for_disk query_nothing "sdz" (Some two_shelves) = Raise MatchNotFound.
Proof.
  assert (Hready : Forall lookup_ready two_shelves).
  { repeat constructor;
      try (intros g [= <-]; repeat constructor; eexists; reflexivity);
      eexists; reflexivity. }
  split.
  - destruct (proj1 (disk_lookup_complete query_nothing "sdc" two_shelves Hready))
      as (enc & el & Hget & _).
    + apply Exists_cons_tl, Exists_cons_hd.
      exists {| g_name := Some "Array Device Slot";
                g_elements := [disk_slot 1 "sdc"; disk_slot 2 "sda"];
                g_has_slot_status := true |}, (disk_slot 1 "sdc").
      split; [reflexivity|]. split; [now left | reflexivity].
    + exists enc, el. split; [exact Hget|].
      vm_compute in Hget. injection Hget as <- <-. split; reflexivity.
  - apply (proj2 (disk_lookup_complete query_nothing "sdz" two_shelves Hready)).
    repeat constructor; intros (g & x & Hg & Hin & Hx);
      vm_compute in Hg; injection Hg as <-; cbn in Hin;
      repeat (destruct Hin as [<-|Hin]; [discriminate Hx|]); destruct Hin.
Defined.

(** X22.  [sync_disk] writes the enclosure pointer only when it differs from the
    stored one, and what it writes is what the lookup found: the number of
    the enclosure and the slot of the element, or nothing when the disk is
    in no enclosure.  Once the inventory holds the written pointer, the same
    call writes nothing. *)
Theorem sync_disk_settles
    (enclosure_query : list query_filter -> result (list EnclosureDict))
    (disk_query disk_query' : string -> result Disk)
    (id_ : string) (enclosure_info : option (list EnclosureDict)) (retry : bool)
    (disk : Disk) (written_id : string) (p : option (Z * Z)) :
  disk_query id_ = Ok disk ->
  sync_disk enclosure_query disk_query id_ enclosure_info retry
  = Ok (DiskUpdate written_id p) ->
  disk_query' id_ = Ok (with_enclosure p disk) ->
  written_id = id_
  /\ p <> disk_enclosure disk
  /\ match p with
     | Some (n, s) =>
         exists enc el,
           _get_slot_for_disk enclosure_query (disk_name disk) enclosure_info
           = Ok (enc, el)
           /\ d_number enc = Some n /\ d_slot el = s
     | None =>
         _get_slot_for_disk enclosure_query (disk_name disk) enclosure_info
         = Raise MatchNotFound
         /\ retry = false
     end
  /\ sync_disk enclosure_query disk_query' id_ enclosure_info retry = Ok NoWrite.
Proof.
  intros Hq H Hq'. unfold sync_disk in *. rewrite Hq in H. rewrite Hq'.
  cbn [bind] in *. cbn [with_enclosure disk_name disk_enclosure].
  destruct (_get_slot_for_disk enclosure_query (disk_name disk) enclosure_info)
    as [[enc el]|e] eqn:El.
  - destruct (d_number enc) as [n|] eqn:En; cbn [pop bind] in *; [|discriminate H].
    destruct (decide (Some (n, d_slot el) ≠ disk_enclosure disk)) as [Hne|Heq];
      [rewrite bool_decide_eq_true_2 in H by exact Hne
      |rewrite bool_decide_eq_false_2 in H by exact Heq; discriminate H].
    injection H as <- <-. split; [reflexivity|]. split; [exact Hne|].
    split; [exists enc, el; now split|].
    rewrite bool_decide_eq_false_2; [reflexivity | intros Hc; now apply Hc].
  - destruct e; cbv beta iota zeta in H |- *; try discriminate H.
    destruct retry; [discriminate H|].
    destruct (decide (None ≠ disk_enclosure disk)) as [Hne|Heq];
      [rewrite bool_decide_eq_true_2 in H by exact Hne
      |rewrite bool_decide_eq_false_2 in H by exact Heq; discriminate H].
    injection H as <- <-. split; [reflexivity|]. split; [exact Hne|].
    split; [now split|].
    rewrite bool_decide_eq_false_2; [reflexivity | intros Hc; now apply Hc].
Qed.

Lemma sync_disk_settles_witness :
  sync_disk query_nothing one_disk "{serial}C" (Some two_shelves) false
  = Ok (DiskUpdate "{serial}C" (Some (1, 1)))
  /\ sync_disk query_nothing one_disk_placed "{serial}C" (Some two_shelves) false
     = Ok NoWrite.
Proof.
  split; [reflexivity|].
  apply (sync_disk_settles query_nothing one_disk one_disk_placed "{serial}C"
           (Some two_shelves) false
           {| disk_identifier := "{serial}C"; disk_name := "sdc";
              disk_enclosure := None |}
           "{serial}C" (Some (1, 1))); reflexivity.
Defined.

(** X23.  The SES element that [_get_ses_slot] returns belongs to a constructed
    enclosure of the collection whose id is the requested one, and has the
    requested slot; for an element with an "original" entry the id and slot
    recorded there are used, not the displayed ones.  It is a drive slot
    whenever that enclosure has a drive slot with the number. *)
Theorem ses_slot_resolution (host : Host)
    (stat : list (Z * (string * (string * string)))) (product : string)
    (enclosure : EnclosureDict) (element : ElementDict) (ses_slot : Element) :
  _get_ses_slot host stat product enclosure element = Ok ses_slot ->
  exists n data ses_enclosure,
    In (n, data) stat
    /\ Enclosure_init host n data product = Ok ses_enclosure
    /\ encid ses_enclosure = requested_id enclosure element
    /\ In ses_slot (elements ses_enclosure)
    /\ slot ses_slot = requested_slot element
    /\ (is_drive_slot ses_slot <->
        exists d, In d (elements ses_enclosure) /\ is_drive_slot d
                  /\ slot d = requested_slot element).
Proof.
  unfold _get_ses_slot, requested_id, requested_slot, __get_enclosures. intros H.
  set (i := match d_original element with
            | Some o => enclosure_id o
            | None => d_id enclosure
            end) in *.
  set (s := match d_original element with
            | Some o => original_slot o
            | None => d_slot element
            end) in *.
  assert (Hpair : (match d_original element with
                   | Some o => (enclosure_id o, original_slot o)
                   | None => (d_id enclosure, d_slot element)
                   end) = (i, s)) by (subst i s; now destruct (d_original element)).
  rewrite Hpair in H. clearbody i s. clear Hpair.
  destruct (Enclosures_init host stat product) as [encs|] eqn:Ei; cbn [bind] in H;
    [|discriminate H].
  destruct (get_by_encid encs i) as [enc|] eqn:Ee; [|discriminate H].
  destruct (get_by_slot enc s) as [e|] eqn:Es; [|discriminate H].
  injection H as <-.
  apply find_some in Ee as [Hin Hid]. apply String.eqb_eq in Hid.
  pose proof (collection_members _ _ _ _ Ei) as Hall.
  rewrite List.Forall_forall in Hall.
  destruct (Hall enc Hin) as [(n & data & Hstat & Hinit) _].
  destruct (elements_layout _ _ _ _ _ Hinit)
    as (drives & others & Helems & Hdr & _ & Hot & _).
  unfold get_by_slot in Es. rewrite Helems in Es.
  destruct (first_with_slot drives others s e Hdr) as (Hs & Hel & Hdrive);
    [eapply Forall_impl; [exact Hot|]; cbv beta; tauto | exact Es |].
  rewrite <- Helems in Hel, Hdrive.
  exists n, data, enc. split; [exact Hstat|]. split; [exact Hinit|].
  split; [exact Hid|]. split; [exact Hel|]. split; [exact Hs | exact Hdrive].
Qed.

Lemma ses_slot_resolution_witness :
  exists ses_slot,
    _get_ses_slot (host_with two_bays) [(0, bays_and_fans)] "TRUENAS-M40"
                  mapped_enclosure remapped_slot = Ok ses_slot
    /\ slot ses_slot = 2 /\ cls ses_slot = ArrayDevSlot.
Proof.
  destruct (_get_ses_slot (host_with two_bays) [(0, bays_and_fans)] "TRUENAS-M40"
                          mapped_enclosure remapped_slot)
    as [ses_slot|] eqn:E; [|vm_compute in E; discriminate E].
  exists ses_slot. split; [reflexivity|].
  destruct (ses_slot_resolution _ _ _ _ _ _ E) as (_ & _ & _ & _ & _ & _ & _ & Hs & _).
  split; [exact Hs|].
  vm_compute in E. injection E as <-. reflexivity.
Defined.

(** ** What makes the status-block walk fail *)





















(** ** The groups of an enclosure in the query result *)

Lemma mapM_inv {A B} (f : A -> result B) (l : list A) :
  forall ys, mapM f l = Ok ys -> Forall2 (fun x y => f x = Ok y) l ys.
Proof.
  induction l as [|x l IH]; cbn [mapM]; intros ys H.
  - injection H as <-. constructor.
  - destruct (f x) as [y|] eqn:Ey; cbn [bind] in H; [|discriminate H].
    destruct (mapM f l) as [ys'|]; cbn [bind] in H; [|discriminate H].
    injection H as <-. constructor; [exact Ey | now apply IH].
Qed.

Lemma element_dict_fields (e : Element) (x : ElementDict) :
  element_dict e = Ok x ->
  d_slot x = slot e /\ d_elem_name x = name e
  /\ (cls e = ArrayDevSlot ->
      is_Some (d_device x) /\ is_Some (d_fault x) /\ is_Some (d_identify x)).
Proof.
  unfold element_dict. intros H.
  destruct (cls e) eqn:Ec;
    try (injection H as <-;
         split; [reflexivity | split; [reflexivity | intros Hc; discriminate Hc]]).
  destruct (fault e); cbn [bind] in H; [|discriminate H].
  destruct (identify e); cbn [bind] in H; [|discriminate H].
  injection H as <-. cbn. repeat split; eexists; reflexivity.
Qed.

Lemma sorted_distinct_ltb (l : list string) :
  Sorted (fun a b => String.leb a b = true) l -> List.NoDup l ->
  Sorted (fun a b => String.ltb a b = true) l.
Proof.
  induction 1 as [|a l Hs IH Hhd]; intros Hnd; constructor.
  - apply IH. now inversion Hnd.
  - destruct Hhd as [|b l Hab]; constructor.
    inversion Hnd as [|? ? Hnotin _]; subst.
    unfold String.leb in Hab. unfold String.ltb.
    destruct (String.compare a b) eqn:Ec; try reflexivity; try discriminate Hab.
    apply String.compare_eq_iff in Ec. subst. exfalso. apply Hnotin. now left.
Qed.

Lemma group_names (enc : Enclosure) :
  Sorted (fun a b => String.ltb a b = true) (List.map fst (iter_by_name enc))
  /\ forall nm, In nm (List.map fst (iter_by_name enc))
                <-> exists e, In e (elements enc) /\ name e = nm.
Proof.
  unfold iter_by_name. rewrite List.map_map. cbn [fst]. rewrite List.map_id.
  set (names := remove_dups (List.map name (elements enc))).
  split.
  - apply sorted_distinct_ltb.
    + apply py_sorted_Sorted, String.leb_total.
    + eapply Permutation_NoDup; [symmetry; apply py_sorted_perm|].
      apply NoDup_ListNoDup, NoDup_remove_dups.
  - intros nm. rewrite <- list_elem_of_In, elem_of_py_sorted.
    subst names. rewrite elem_of_remove_dups, list_elem_of_In, in_map_iff.
    split; intros (e & H1 & H2); exists e; tauto.
Qed.

(** Each group built for an enclosure whose elements are well built. *)
Lemma group_built (enc : Enclosure) (nm : string) (g : GroupDict) :
  Forall well_built (elements enc) ->
  (exists e, In e (elements enc) /\ name e = nm) ->
  (do es <- mapM element_dict
              (List.filter (fun e => String.eqb (name e) nm) (elements enc));
   Ok {| g_name := Some nm; g_elements := es;
         g_has_slot_status :=
           existsb has_device_slot_set
                   (List.filter (fun e => String.eqb (name e) nm) (elements enc)) |})
  = Ok g ->
  group_of enc g.
Proof.
  intros Hwb (e0 & Hin0 & Hn0) H. exists nm.
  set (members := List.filter (fun e => String.eqb (name e) nm) (elements enc)) in *.
  assert (Hmem : forall e, In e members -> name e = nm /\ well_built e).
  { intros e He. apply filter_In in He as [He Hn]. apply String.eqb_eq in Hn.
    rewrite List.Forall_forall in Hwb. split; [exact Hn | now apply Hwb]. }
  assert (Hin0' : In e0 members).
  { apply filter_In. split; [exact Hin0 | now apply String.eqb_eq]. }
  clearbody members.
  destruct (mapM element_dict members) as [es|] eqn:Ees; cbn [bind] in H;
    [|discriminate H].
  injection H as <-. apply mapM_inv in Ees.
  cbn [g_name g_elements g_has_slot_status].
  split; [reflexivity|].
  split.
  { clear -Ees. induction Ees as [|e x l l' Hex _ IH]; [reflexivity|].
    cbn [List.map]. apply element_dict_fields in Hex as (-> & _). now f_equal. }
  split.
  { clear -Ees Hmem. induction Ees as [|e x l l' Hex _ IH]; constructor.
    - apply element_dict_fields in Hex as (_ & -> & _). apply Hmem. now left.
    - apply IH. intros e' He'. apply Hmem. now right. }
  split.
  { intros ->. inversion Ees; subst. destruct Hin0'. }
  split.
  { split.
    - intros Hex. apply existsb_exists in Hex as (e & He & Hc).
      destruct (Hmem e He) as [<- [_ Hname]]. apply Hname.
      unfold has_device_slot_set in Hc. now destruct (cls e).
    - intros ->. apply existsb_exists. exists e0. split; [exact Hin0'|].
      destruct (Hmem e0 Hin0') as [Hn [_ Hname]].
      unfold has_device_slot_set. now rewrite (proj1 Hname Hn). }
  intros ->. clear -Ees Hmem.
  induction Ees as [|e x l l' Hex _ IH]; constructor.
  - apply element_dict_fields in Hex as (_ & _ & Hdev). apply Hdev.
    destruct (Hmem e (or_introl eq_refl)) as [Hn [_ Hname]]. now apply Hname.
  - apply IH. intros e' He'. apply Hmem. now right.
Qed.

(** X25.  The groups that [query] shows for a constructed enclosure: one per
    element name that occurs, in ascending order of the names, none of them
    empty (the guard "header is not None and elements" never drops a
    group); each holds the elements of its name in enclosure order, and
    only the "Array Device Slot" group is marked as having slot status.
    The dictionary is therefore fit for the disk lookup. *)
Theorem query_groups_by_name (host : Host) (n : Z)
    (data : string * (string * string)) (product : string)
    (enc : Enclosure) (d : EnclosureDict) :
  Enclosure_init host n data product = Ok enc ->
  enclosure_dict enc = Ok d ->
  exists names,
    List.map g_name (d_elements d) = List.map Some names
    /\ Sorted (fun a b => String.ltb a b = true) names
    /\ (forall nm, In nm names <-> exists e, In e (elements enc) /\ name e = nm)
    /\ Forall (group_of enc) (d_elements d)
    /\ lookup_ready d.
Proof.
  intros Hinit Hd.
  destruct (elements_layout _ _ _ _ _ Hinit) as (_ & _ & _ & _ & _ & _ & Hwb).
  unfold enclosure_dict in Hd.
  match type of Hd with
  | bind ?m _ = _ => destruct m as [groups|] eqn:Eg; cbn [bind] in Hd; [|discriminate Hd]
  end.
  injection Hd as <-. cbn [d_elements].
  apply mapM_inv in Eg.
  destruct (group_names enc) as [Hsorted Hnames].
  assert (Hgroups : Forall (group_of enc) groups
                    /\ List.map g_name groups
                       = List.map Some (List.map fst (iter_by_name enc))).
  { assert (Hsub : forall p, In p (iter_by_name enc) ->
                             snd p = List.filter (fun e => String.eqb (name e) (fst p))
                                                 (elements enc)
                             /\ exists e, In e (elements enc) /\ name e = fst p).
    { intros p Hp. split.
      - unfold iter_by_name in Hp. apply in_map_iff in Hp as (nm & <- & _). reflexivity.
      - apply Hnames. now apply in_map. }
    clear Hsorted Hnames. induction Eg as [|p g l l' Hpg _ IH].
    - split; [constructor | reflexivity].
    - destruct (Hsub p (or_introl eq_refl)) as [Hsnd Hex].
      destruct IH as [IH1 IH2]; [intros q Hq; apply Hsub; now right|].
      split.
      + constructor; [|exact IH1].
        rewrite Hsnd in Hpg. eapply group_built; eassumption.
      + cbn [List.map]. rewrite IH2. f_equal.
        destruct (mapM element_dict (snd p)); cbn [bind] in Hpg; [|discriminate Hpg].
        now injection Hpg as <-. }
  destruct Hgroups as [Hall Hmap].
  assert (Hkeep : List.filter
                    (fun g => negb (Nat.eqb (List.length (g_elements g)) 0)) groups
                  = groups).
  { apply filter_all. intros g Hg. rewrite List.Forall_forall in Hall.
    destruct (Hall g Hg) as (nm & _ & _ & _ & Hne & _).
    destruct (g_elements g); [contradiction | reflexivity]. }
  rewrite Hkeep.
  exists (List.map fst (iter_by_name enc)).
  split; [exact Hmap|]. split; [exact Hsorted|]. split; [exact Hnames|].
  split; [exact Hall|].
  unfold lookup_ready, slot_group. cbn [d_elements]. split.
  - eapply Forall_impl; [exact Hall|]. intros g (nm & Hn & _). now exists nm.
  - intros g Hg. apply find_some in Hg as [Hin Hslot].
    rewrite List.Forall_forall in Hall. destruct (Hall g Hin) as (nm & Hn & _ & _ & _ & _ & Hdev).
    unfold is_slot_group in Hslot. rewrite Hn in Hslot. apply String.eqb_eq in Hslot.
    eapply Forall_impl; [exact (Hdev Hslot)|]. cbv beta. tauto.
Qed.

Lemma query_groups_by_name_witness :
  exists enc d,
    Enclosure_init (host_with two_bays) 0 bays_and_fans "TRUENAS-M40" = Ok enc
    /\ enclosure_dict enc = Ok d
    /\ List.map g_name (d_elements d) = [Some "Array Device Slot"; Some "Cooling"]
    /\ List.map g_has_slot_status (d_elements d) = [true; false]
    /\ lookup_ready d.
Proof.
  destruct (Enclosure_init (host_with two_bays) 0 bays_and_fans "TRUENAS-M40")
    as [enc|] eqn:E; [|vm_compute in E; discriminate E].
  destruct (enclosure_dict enc) as [d|] eqn:Ed;
    [|pose proof E as E'; vm_compute in E'; injection E' as <-;
      vm_compute in Ed; discriminate Ed].
  exists enc, d. split; [reflexivity|]. split; [exact Ed|].
  destruct (query_groups_by_name _ _ _ _ _ _ E Ed) as (_ & _ & _ & _ & _ & Hready).
  split; [|split]; [| |exact Hready];
    pose proof E as E'; vm_compute in E'; injection E' as <-;
    vm_compute in Ed; injection Ed as <-; reflexivity.
Defined.
